(** * The paged array of lib/core/bigarray.py

    A shallow embedding of [BigArray]: a list-like container that keeps its
    last chunk in memory and spills the full ones to temporary files, read
    back through a one-slot write-back cache.

    Python objects are mutated in place and exceptions leave every earlier
    mutation behind, so the methods are written in a state-and-exception
    monad over the pair (the container's fields, the file system).  *)

From stdpp Require Import gmap strings list fin_maps.
From Stdlib Require Import ZArith Lia.

Set Warnings "-register-all".
Local Open Scope Z_scope.

(** ** Python values held by the container *)

(** The element universe: [None], integers, text, tuples, lists and dicts
    (a dict as its items in insertion order).  Every value of this universe
    can be pickled. *)
Inductive pyval : Type :=
| PyNone
| PyInt (z : Z)
| PyStr (s : string)
| PyTuple (items : list pyval)
| PyList (items : list pyval)
| PyDict (items : list (pyval * pyval)).

(** [hash(v)] succeeds: lists and dicts are unhashable, a tuple is hashable
    when all its members are. *)
Fixpoint hashable (v : pyval) : bool :=
  match v with
  | PyNone | PyInt _ | PyStr _ => true
  | PyTuple items => forallb hashable items
  | PyList _ | PyDict _ => false
  end.

Definition type_name (v : pyval) : string :=
  match v with
  | PyNone => "NoneType"
  | PyInt _ => "int"
  | PyStr _ => "str"
  | PyTuple _ => "tuple"
  | PyList _ => "list"
  | PyDict _ => "dict"
  end.

(** Python's [==] on this universe. *)
Fixpoint py_eq (a b : pyval) : bool :=
  match a, b with
  | PyNone, PyNone => true
  | PyInt x, PyInt y => Z.eqb x y
  | PyStr x, PyStr y => String.eqb x y
  | PyTuple xs, PyTuple ys
  | PyList xs, PyList ys =>
      (fix seq_eq (l : list pyval) (r : list pyval) : bool :=
         match l, r with
         | [], [] => true
         | x :: l', y :: r' => py_eq x y && seq_eq l' r'
         | _, _ => false
         end) xs ys
  | PyDict xs, PyDict ys =>
      Nat.eqb (length xs) (length ys)
      && forallb (fun kv : pyval * pyval =>
                    let (k, v) := kv in
                    existsb (fun kv' : pyval * pyval =>
                               py_eq k (fst kv') && py_eq v (snd kv')) ys) xs
  | _, _ => false
  end.

(** ** Exceptions *)

Inductive exn : Type :=
| ValueError (msg : string)
| IndexError (msg : string)
| TypeError (msg : string)
| ZeroDivisionError (msg : string)
| OverflowError (msg : string)
| AttributeError (msg : string)
| OSError (msg : string)
| zlib_error (msg : string)
| SqlmapSystemException (msg : string).

Inductive result (A : Type) : Type :=
| Ok (a : A)
| Raise (e : exn).
Arguments Ok {A} a.
Arguments Raise {A} e.

(** The two error kinds of the specification: a UsageError is what the
    code raises as [ValueError] or [IndexError], a StorageIOError is
    [SqlmapSystemException]. *)
Definition is_UsageError (e : exn) : bool :=
  match e with
  | ValueError _ | IndexError _ => true
  | _ => false
  end.

Definition is_StorageIOError (e : exn) : bool :=
  match e with
  | SqlmapSystemException _ => true
  | _ => false
  end.

(** ** Python sequence indexing *)

(** [l[i]] with Python's negative indices; [None] is "index out of range". *)
Definition py_index {A : Type} (l : list A) (i : Z) : option nat :=
  let n := Z.of_nat (length l) in
  let i' := if i <? 0 then i + n else i in
  if (0 <=? i') && (i' <? n) then Some (Z.to_nat i') else None.

Definition py_getitem {A : Type} (l : list A) (i : Z) : option A :=
  match py_index l i with
  | Some n => l !! n
  | None => None
  end.

Definition py_setitem {A : Type} (l : list A) (i : Z) (x : A) : option (list A) :=
  match py_index l i with
  | Some n => Some (<[n := x]> l)
  | None => None
  end.

(** [sys.maxsize] of a 64-bit CPython. *)
Definition sys_maxsize : Z := 9223372036854775807.

(** ** The file system *)

(** What a temporary file holds: nothing yet (as [mkstemp] leaves it), or
    [zlib.compress(pickle.dumps(chunk), level)].  Serialisation followed by
    compression is kept symbolic: reading it back gives [chunk]. *)
Inductive blob : Type :=
| EmptyFile
| Packed (level : Z) (chunk : list pyval).

(** The operating system as the container sees it: the files by path, and
    two standing fault conditions, each with the text of the [OSError] it
    produces (temporary directory not writable; device full on write). *)
Record World : Type := mkWorld {
  files : gmap string blob;
  mkstemp_fault : option string;
  write_fault : option string
}.

Definition healthy (w : World) : Prop :=
  mkstemp_fault w = None ∧ write_fault w = None.

(** ** The container's fields *)

Inductive chunk : Type :=
| Resident (data : list pyval)
| Spilled (filename : string).

Module Cache.
Record t : Type := new { index : Z; data : list pyval; dirty : bool }.
End Cache.

Record BigArray : Type := mkBigArray {
  chunks : list chunk;
  chunk_length : Z;
  cache : option Cache.t;
  filenames : gset string;
  _size_counter : option Z;
  _closed : bool;
  _compress_level : Z
}.

(** What [__getstate__] exports: the current four-field tuple, or the
    two-field tuple of older versions that [__setstate__] still accepts. *)
Inductive pickled : Type :=
| State4 (chunks : list chunk) (filenames : gset string)
         (chunk_length : Z) (compress_level : Z)
| State2 (chunks : list chunk) (filenames : gset string).

(** ** The monad of methods *)

Definition state : Type := BigArray * World.

Definition M (A : Type) : Type := state → result A * state.

Definition ret {A : Type} (a : A) : M A := fun s => (Ok a, s).

Definition raise {A : Type} (e : exn) : M A := fun s => (Raise e, s).

Definition bind {A B : Type} (m : M A) (k : A → M B) : M B :=
  fun s =>
    match m s with
    | (Ok a, s') => k a s'
    | (Raise e, s') => (Raise e, s')
    end.

(** [try: m except <handles> as ex: h ex] *)
Definition try_except {A : Type} (m : M A) (handles : exn → bool)
    (h : exn → M A) : M A :=
  fun s =>
    match m s with
    | (Raise e, s') => if handles e then h e s' else (Raise e, s')
    | r => r
    end.

Definition get_self : M BigArray := fun s => (Ok (fst s), s).
Definition get_os : M World := fun s => (Ok (snd s), s).
Definition put_self (b : BigArray) : M unit := fun s => (Ok tt, (b, snd s)).
Definition put_os (w : World) : M unit := fun s => (Ok tt, (fst s, w)).

Notation "x <- m ;; k" := (bind m (fun x => k))
  (at level 100, m at next level, right associativity).
Notation "m ;; k" := (bind m (fun _ => k))
  (at level 100, right associativity).

Definition lift_result {A : Type} (r : result A) : M A :=
  match r with
  | Ok a => ret a
  | Raise e => raise e
  end.

Definition from_option {A : Type} (o : option A) (e : exn) : M A :=
  match o with
  | Some a => ret a
  | None => raise e
  end.

(** Field assignments [self.f = v]. *)
Definition set_chunks (v : list chunk) : M unit :=
  self <- get_self ;;
  put_self (mkBigArray v (chunk_length self) (cache self) (filenames self)
              (_size_counter self) (_closed self) (_compress_level self)).

Definition set_chunk_length (v : Z) : M unit :=
  self <- get_self ;;
  put_self (mkBigArray (chunks self) v (cache self) (filenames self)
              (_size_counter self) (_closed self) (_compress_level self)).

Definition set_cache (v : option Cache.t) : M unit :=
  self <- get_self ;;
  put_self (mkBigArray (chunks self) (chunk_length self) v (filenames self)
              (_size_counter self) (_closed self) (_compress_level self)).

Definition set_filenames (v : gset string) : M unit :=
  self <- get_self ;;
  put_self (mkBigArray (chunks self) (chunk_length self) (cache self) v
              (_size_counter self) (_closed self) (_compress_level self)).

Definition set_size_counter (v : option Z) : M unit :=
  self <- get_self ;;
  put_self (mkBigArray (chunks self) (chunk_length self) (cache self)
              (filenames self) v (_closed self) (_compress_level self)).

Definition set_closed (v : bool) : M unit :=
  self <- get_self ;;
  put_self (mkBigArray (chunks self) (chunk_length self) (cache self)
              (filenames self) (_size_counter self) v (_compress_level self)).

Definition set_compress_level (v : Z) : M unit :=
  self <- get_self ;;
  put_self (mkBigArray (chunks self) (chunk_length self) (cache self)
              (filenames self) (_size_counter self) (_closed self) v).

(** ** Operating-system and library calls *)

(** [tempfile.mkstemp(prefix=...)] followed by [os.close(handle)]: a new,
    empty file under a name no existing file has. *)
Definition mkstemp : M string :=
  w <- get_os ;;
  match mkstemp_fault w with
  | Some err => raise (OSError err)
  | None =>
      let filename := fresh (dom (files w)) in
      put_os (mkWorld (<[filename := EmptyFile]> (files w))
                (mkstemp_fault w) (write_fault w)) ;;
      ret filename
  end.

(** [pickle.dumps(chunk, pickle.HIGHEST_PROTOCOL)] cannot fail on [pyval];
    [zlib.compress(data, level)] accepts the levels -1 to 9. *)
Definition valid_level (level : Z) : bool := (-1 <=? level) && (level <=? 9).

Definition compress (chunk : list pyval) (level : Z) : M blob :=
  if valid_level level then ret (Packed level chunk)
  else raise (zlib_error "Bad compression level").

(** [with open(filename, "w+b") as f: f.write(data)] *)
Definition write_file (filename : string) (data : blob) : M unit :=
  w <- get_os ;;
  match write_fault w with
  | Some err => raise (OSError err)
  | None =>
      put_os (mkWorld (<[filename := data]> (files w))
                (mkstemp_fault w) (write_fault w))
  end.

(** [with open(filename, "rb") as f: pickle.loads(zlib.decompress(f.read()))] *)
Definition read_file (filename : string) : M (list pyval) :=
  w <- get_os ;;
  match files w !! filename with
  | None =>
      raise (OSError ("[Errno 2] No such file or directory: '" +:+ filename +:+ "'"))
  | Some EmptyFile =>
      raise (zlib_error
               "Error -5 while decompressing data: incomplete or truncated stream")
  | Some (Packed _ data) => ret data
  end.

(** [os.remove(filename)] *)
Definition os_remove (filename : string) : M unit :=
  w <- get_os ;;
  match files w !! filename with
  | None =>
      raise (OSError ("[Errno 2] No such file or directory: '" +:+ filename +:+ "'"))
  | Some _ =>
      put_os (mkWorld (delete filename (files w))
                (mkstemp_fault w) (write_fault w))
  end.

(** ** The methods *)

Definition closed_error : exn := ValueError "Operation on closed BigArray".

Definition list_index_error : exn := IndexError "list index out of range".

Definition is_OSError (e : exn) : bool :=
  match e with OSError _ => true | _ => false end.

Definition is_IndexError (e : exn) : bool :=
  match e with IndexError _ => true | _ => false end.

(** [str(ex)] *)
Definition exn_str (e : exn) : string :=
  match e with
  | ValueError m | IndexError m | TypeError m | ZeroDivisionError m
  | OverflowError m | AttributeError m | OSError m | zlib_error m
  | SqlmapSystemException m => m
  end.

Definition store_message (ex : exn) : string :=
  "exception occurred while storing data to a temporary file ('" +:+ exn_str ex
  +:+ "'). Please " +:+ "make sure that there is enough disk space left. If problem persists, "
  +:+ "try to set environment variable 'TEMP' to a location "
  +:+ "writeable by the current user".

Definition retrieve_message (ex : exn) : string :=
  "exception occurred while retrieving data from a temporary file ('" +:+ exn_str ex
  +:+ "')".

Fixpoint for_each {A : Type} (l : list A) (body : A → M unit) : M unit :=
  match l with
  | [] => ret tt
  | x :: l' => body x ;; for_each l' body
  end.

Section BigArray.

(** The two constants of [lib.core.settings] are parameters, and so are
    the interpreter's [sys.getsizeof(instance, DEFAULT_SIZE_OF)] and
    [str]. *)
Variable BIGARRAY_CHUNK_SIZE : Z.
Variable BIGARRAY_COMPRESS_LEVEL : Z.
Variable getsizeof : pyval → Z.
Variable py_str : pyval → string.

(** [_size_of], seen through [functools.lru_cache]: the wrapper hashes
    its argument before anything else, so an unhashable one raises
    [TypeError]; otherwise the body runs (or its remembered result is
    returned, which is the same number).  No member of a value of
    [pyval] is equal to the value itself, so the guard
    [item != instance] always passes.  The interpreter's recursion limit
    is not modelled. *)
Fixpoint _size_of (instance : pyval) : result Z :=
  if hashable instance then
    let retval := getsizeof instance in
    match instance with
    | PyDict items =>
        match
          (fix total (l : list (pyval * pyval)) : result Z :=
             match l with
             | [] => Ok 0
             | (k, v) :: l' =>
                 match _size_of k with
                 | Raise e => Raise e
                 | Ok a =>
                     match _size_of v with
                     | Raise e => Raise e
                     | Ok b =>
                         match total l' with
                         | Raise e => Raise e
                         | Ok c => Ok (a + b + c)
                         end
                     end
                 end
             end) items
        with
        | Ok n => Ok (retval + n)
        | Raise e => Raise e
        end
    | PyTuple items | PyList items =>
        match
          (fix total (l : list pyval) : result Z :=
             match l with
             | [] => Ok 0
             | x :: l' =>
                 match _size_of x with
                 | Raise e => Raise e
                 | Ok a =>
                     match total l' with
                     | Raise e => Raise e
                     | Ok c => Ok (a + c)
                     end
                 end
             end) items
        with
        | Ok n => Ok (retval + n)
        | Raise (TypeError _) => Ok retval
        | Raise e => Raise e
        end
    | PyNone | PyInt _ | PyStr _ => Ok retval
    end
  else Raise (TypeError ("unhashable type: '" +:+ type_name instance +:+ "'")).

(** [len(self.chunks[-1])]; on a token this is the length of the path. *)
Definition len_last : M Z :=
  self <- get_self ;;
  match last (chunks self) with
  | None => raise list_index_error
  | Some (Resident l) => ret (Z.of_nat (length l))
  | Some (Spilled f) => ret (Z.of_nat (String.length f))
  end.

Definition __len__ : M Z :=
  self <- get_self ;;
  if _closed self then ret 0
  else if (length (chunks self) =? 1)%nat then len_last
  else
    l <- len_last ;;
    ret ((Z.of_nat (length (chunks self)) - 1) * chunk_length self + l).

(** The built-in [len(self)], which refuses a negative or oversized
    answer of [__len__]. *)
Definition len : M Z :=
  n <- __len__ ;;
  if n <? 0 then raise (ValueError "__len__() should return >= 0")
  else if sys_maxsize <? n
       then raise (OverflowError "cannot fit 'int' into an index-sized integer")
       else ret n.

Definition _dump (chunk : list pyval) : M string :=
  try_except
    (filename <- mkstemp ;;
     self <- get_self ;;
     set_filenames ({[filename]} ∪ filenames self) ;;
     self <- get_self ;;
     compressed_data <- compress chunk (_compress_level self) ;;
     write_file filename compressed_data ;;
     ret filename)
    is_OSError
    (fun ex => raise (SqlmapSystemException (store_message ex))).

Definition _load_chunk (index : Z) : M unit :=
  try_except
    (self <- get_self ;;
     filename <- from_option (py_getitem (chunks self) index) list_index_error ;;
     match filename with
     | Spilled f =>
         data <- read_file f ;;
         self <- get_self ;;
         chunks' <- from_option (py_setitem (chunks self) index (Resident data))
                      (IndexError "list assignment index out of range") ;;
         set_chunks chunks'
     | Resident _ => ret tt
     end)
    (fun e => match e with OSError _ | zlib_error _ => true | _ => false end)
    (fun ex => raise (SqlmapSystemException (retrieve_message ex))).

(** [_checkcache], first block: "Write dirty cache to disk". *)
Definition _checkcache_write_dirty (index : Z) : M unit :=
  self <- get_self ;;
  match cache self with
  | Some c =>
      if negb (Cache.index c =? index) && Cache.dirty c then
        filename <- _dump (Cache.data c) ;;
        self <- get_self ;;
        chunks' <- from_option
                     (py_setitem (chunks self) (Cache.index c) (Spilled filename))
                     (IndexError "list assignment index out of range") ;;
        set_chunks chunks' ;;
        set_cache (Some (Cache.new (Cache.index c) (Cache.data c) false))
      else ret tt
  | None => ret tt
  end.

(** [_checkcache], second block: "Load new chunk if not already cached".
    In the branch "chunk is still in memory" the slot would share the
    chunk's list; [__getitem__] and [__setitem__] call [_checkcache] on
    tokens only, so the sharing is not tracked. *)
Definition _checkcache_load (index : Z) : M unit :=
  self <- get_self ;;
  if match cache self with
     | Some c => Cache.index c =? index
     | None => false
     end
  then ret tt
  else
    try_except
      (self <- get_self ;;
       filename <- from_option (py_getitem (chunks self) index) list_index_error ;;
       match filename with
       | Spilled f =>
           data <- read_file f ;;
           set_cache (Some (Cache.new index data false))
       | Resident l => set_cache (Some (Cache.new index l false))
       end)
      (fun _ => true)
      (fun ex => raise (SqlmapSystemException (retrieve_message ex))).

Definition _checkcache (index : Z) : M unit :=
  _checkcache_write_dirty index ;;
  _checkcache_load index.

(** [append], the block "Dynamic chunk size calculation": run while the
    chunk length is still [sys.maxsize] and the byte counter is not [None]. *)
Definition append_size_chunk (value : pyval) : M unit :=
  self <- get_self ;;
  match _size_counter self with
  | Some counter =>
      if chunk_length self =? sys_maxsize then
        n <- lift_result (_size_of value) ;;
        set_size_counter (Some (counter + n)) ;;
        if BIGARRAY_CHUNK_SIZE <=? counter + n then
          l <- len_last ;;
          set_chunk_length (Z.max l 1) ;;
          set_size_counter None
        else ret tt
      else ret tt
  | None => ret tt
  end.

(** [append], the last block: a full open chunk is dumped, its token takes
    its place and a new empty chunk is opened.  The open chunk is a list
    here: [append] has just added to it. *)
Definition append_spill : M unit :=
  l <- len_last ;;
  self <- get_self ;;
  if chunk_length self <=? l then
    match last (chunks self) with
    | Some (Resident data) =>
        filename <- _dump data ;;
        self <- get_self ;;
        set_chunks (removelast (chunks self) ++ [Spilled filename]) ;;
        self <- get_self ;;
        set_chunks (chunks self ++ [Resident []])
    | _ => raise list_index_error
    end
  else ret tt.

Definition append (value : pyval) : M unit :=
  self <- get_self ;;
  if _closed self then raise closed_error
  else
    match last (chunks self) with
    | None => raise list_index_error
    | Some (Spilled _) => raise (AttributeError "'str' object has no attribute 'append'")
    | Some (Resident l) =>
        set_chunks (removelast (chunks self) ++ [Resident (l ++ [value])])
    end ;;
    append_size_chunk value ;;
    append_spill.

Definition extend (values : list pyval) : M unit :=
  self <- get_self ;;
  if _closed self then raise closed_error
  else for_each values append.

Definition __init__ (items : option (list pyval)) (chunk_size compress_level : Z)
    : M unit :=
  put_self (mkBigArray [Resident []] sys_maxsize None ∅ (Some 0) false
              compress_level) ;;
  (if negb (chunk_size =? BIGARRAY_CHUNK_SIZE) then
     set_chunk_length chunk_size ;;
     set_size_counter None
   else ret tt) ;;
  match items with
  | Some values => extend values
  | None => ret tt
  end.

Definition pop : M pyval :=
  self <- get_self ;;
  if _closed self then raise closed_error
  else
    l <- len_last ;;
    (if l <? 1 then
       self <- get_self ;;
       if (length (chunks self) <=? 1)%nat
       then raise (IndexError "pop from empty BigArray")
       else
         set_chunks (removelast (chunks self)) ;;
         _load_chunk (-1)
     else ret tt) ;;
    self <- get_self ;;
    match last (chunks self) with
    | None => raise list_index_error
    | Some (Spilled _) => raise (AttributeError "'str' object has no attribute 'pop'")
    | Some (Resident data) =>
        match last data with
        | None => raise (IndexError "pop from empty list")
        | Some v =>
            set_chunks (removelast (chunks self) ++ [Resident (removelast data)]) ;;
            ret v
        end
    end.

(** [__getitem__] on an integer key (slices go to [_getslice], which
    builds a second container and is not modelled). *)
Definition __getitem__ (key : Z) : M pyval :=
  self <- get_self ;;
  if _closed self then raise closed_error
  else
    length <- len ;;
    if length =? 0 then raise (IndexError "BigArray index out of range")
    else
      let key := if key <? 0 then key + length else key in
      if (key <? 0) || (length <=? key)
      then raise (IndexError "BigArray index out of range")
      else
        self <- get_self ;;
        if chunk_length self =? 0
        then raise (ZeroDivisionError "integer division or modulo by zero")
        else
          let index := key / chunk_length self in
          let offset := key mod chunk_length self in
          chunk <- from_option (py_getitem (chunks self) index) list_index_error ;;
          match chunk with
          | Resident l => from_option (py_getitem l offset) list_index_error
          | Spilled _ =>
              _checkcache index ;;
              self <- get_self ;;
              match cache self with
              | Some c => from_option (py_getitem (Cache.data c) offset) list_index_error
              | None => raise (AttributeError "'NoneType' object has no attribute 'data'")
              end
          end.

Definition __setitem__ (key : Z) (value : pyval) : M unit :=
  self <- get_self ;;
  if _closed self then raise closed_error
  else
    length <- len ;;
    let key := if key <? 0 then key + length else key in
    if (key <? 0) || (length <=? key)
    then raise (IndexError "BigArray assignment index out of range")
    else
      self <- get_self ;;
      if chunk_length self =? 0
      then raise (ZeroDivisionError "integer division or modulo by zero")
      else
        let index := key / chunk_length self in
        let offset := key mod chunk_length self in
        chunk <- from_option (py_getitem (chunks self) index) list_index_error ;;
        match chunk with
        | Resident l =>
            l' <- from_option (py_setitem l offset value)
                    (IndexError "list assignment index out of range") ;;
            chunks' <- from_option (py_setitem (chunks self) index (Resident l'))
                         (IndexError "list assignment index out of range") ;;
            set_chunks chunks'
        | Spilled _ =>
            _checkcache index ;;
            self <- get_self ;;
            match cache self with
            | Some c =>
                data' <- from_option (py_setitem (Cache.data c) offset value)
                           (IndexError "list assignment index out of range") ;;
                set_cache (Some (Cache.new (Cache.index c) data' true))
            | None => raise (AttributeError "'NoneType' object has no attribute 'data'")
            end
        end.

(** The generator of [__iter__], run to its end: the elements it yields.
    An [IndexError] ends it quietly, any other exception comes out. *)
Fixpoint iter_loop (n : nat) (i : Z) : M (list pyval) :=
  match n with
  | O => ret []
  | S n' =>
      item <- try_except (v <- __getitem__ i ;; ret (Some v))
                is_IndexError (fun _ => ret None) ;;
      match item with
      | None => ret []
      | Some v => rest <- iter_loop n' (i + 1) ;; ret (v :: rest)
      end
  end.

Definition __iter__ : M (list pyval) :=
  length <- len ;;
  iter_loop (Z.to_nat length) 0.

Fixpoint index_loop (n : nat) (i : Z) (value : pyval) : M Z :=
  match n with
  | O => raise (ValueError (py_str value +:+ " is not in BigArray"))
  | S n' =>
      v <- __getitem__ i ;;
      if py_eq v value then ret i else index_loop n' (i + 1) value
  end.

Definition index (value : pyval) (start : Z) (stop : option Z) : M Z :=
  length <- len ;;
  let stop := match stop with
              | None => length
              | Some stop => Z.min stop length
              end in
  index_loop (Z.to_nat (stop - start)) start value.

(** The body of the loop of [close]:
    [try: self._os_remove(filename) except OSError: pass]. *)
Definition close_remove (filename : string) : M unit :=
  try_except (os_remove filename) is_OSError (fun _ => ret tt).

Definition close : M unit :=
  self <- get_self ;;
  if _closed self then ret tt
  else
    set_closed true ;;
    for_each (elements (filenames self)) close_remove ;;
    set_filenames ∅ ;;
    set_cache None.

Definition clear : M unit :=
  close ;;
  __init__ None BIGARRAY_CHUNK_SIZE BIGARRAY_COMPRESS_LEVEL.

Definition count (value : pyval) : M Z :=
  items <- __iter__ ;;
  ret (Z.of_nat (length (filter (fun item => py_eq item value = true) items))).

Definition reverse : M unit :=
  self <- get_self ;;
  if _closed self then raise closed_error
  else
    items <- __iter__ ;;
    clear ;;
    extend (rev items).

Definition __getstate__ : M pickled :=
  self <- get_self ;;
  ret (State4 (chunks self) (filenames self) (chunk_length self)
         (_compress_level self)).

Definition __setstate__ (st : pickled) : M unit :=
  let '(chunks, filenames, chunk_length, compress_level) :=
    match st with
    | State4 a b c d => (a, b, c, d)
    | State2 a b => (a, b, sys_maxsize, BIGARRAY_COMPRESS_LEVEL)
    end in
  __init__ None BIGARRAY_CHUNK_SIZE BIGARRAY_COMPRESS_LEVEL ;;
  set_chunks chunks ;;
  set_filenames filenames ;;
  set_chunk_length chunk_length ;;
  set_compress_level compress_level.

(** The public operations that do not reinitialise the container
    ([clear] and [reverse] do), and the state each one leaves behind,
    whether it returns or raises. *)
Inductive operation : Type :=
| OpAppend (value : pyval)
| OpExtend (values : list pyval)
| OpPop
| OpGet (key : Z)
| OpSet (key : Z) (value : pyval)
| OpLen
| OpCount (value : pyval)
| OpIndex (value : pyval) (start : Z) (stop : option Z)
| OpIter
| OpClose.

Definition perform (o : operation) (st : state) : state :=
  match o with
  | OpAppend value => snd (append value st)
  | OpExtend values => snd (extend values st)
  | OpPop => snd (pop st)
  | OpGet key => snd (__getitem__ key st)
  | OpSet key value => snd (__setitem__ key value st)
  | OpLen => snd (len st)
  | OpCount value => snd (count value st)
  | OpIndex value start stop => snd (index value start stop st)
  | OpIter => snd (__iter__ st)
  | OpClose => snd (close st)
  end.

End BigArray.

(** ** Well-formed containers *)

(** Chunk sizing is still undetermined: no explicit chunk length was given
    and the byte threshold has not been crossed. *)
Definition undetermined (s : BigArray) : bool :=
  (chunk_length s =? sys_maxsize)
  && match _size_counter s with Some _ => true | None => false end.

(** The chunk persisted under a token, as [read_file] returns it. *)
Definition stored (w : World) (f : string) : option (list pyval) :=
  match files w !! f with
  | Some (Packed _ d) => Some d
  | _ => None
  end.

(** The cache slot when it holds chunk number [k]. *)
Definition slot_at (s : BigArray) (k : nat) : option Cache.t :=
  match cache s with
  | Some c => if Cache.index c =? Z.of_nat k then Some c else None
  | None => None
  end.

(** Spilled chunk [k], with token [f], currently reads as [d]: through the
    slot when it holds [k] (the file may then lag behind a dirty slot),
    from the file otherwise. *)
Definition chunk_ok (s : BigArray) (w : World) (k : nat) (f : string)
    (d : list pyval) : Prop :=
  match slot_at s k with
  | Some c => Cache.data c = d ∧ (Cache.dirty c = false → stored w f = Some d)
  | None => stored w f = Some d
  end.

(** The data model of the store: full spilled chunks [ds] under the tokens
    [fs], then the resident open chunk [tail]. *)
Record Layout (s : BigArray) (w : World) (fs : list string)
    (ds : list (list pyval)) (tail : list pyval) : Prop := mkLayout {
  lay_open : _closed s = false;
  lay_chunks : chunks s = (Spilled <$> fs) ++ [Resident tail];
  lay_count : length ds = length fs;
  lay_full : Forall (λ d, Z.of_nat (length d) = chunk_length s) ds;
  lay_tail : Z.of_nat (length tail) < chunk_length s;
  lay_files : ∀ k f d, fs !! k = Some f → ds !! k = Some d → chunk_ok s w k f d;
  lay_slot : match cache s with
             | Some c => 0 ≤ Cache.index c < Z.of_nat (length fs)
             | None => True
             end;
  lay_sizing : undetermined s = true → fs = [];
  lay_bound : Z.of_nat (length (concat ds ++ tail)) < sys_maxsize;
  lay_level : valid_level (_compress_level s) = true
}.

(** [Repr s w vs]: the open, well-formed container [s] over the files of
    [w] holds the sequence [vs]. *)
Definition Repr (s : BigArray) (w : World) (vs : list pyval) : Prop :=
  ∃ fs ds tail, Layout s w fs ds tail ∧ vs = concat ds ++ tail.

(** The slot holds no write that the files lack: it is empty, or it is
    clean and equal to what is persisted under its chunk's token. *)
Definition slot_flushed (s : BigArray) (w : World) : Prop :=
  match cache s with
  | None => True
  | Some c =>
      Cache.dirty c = false
      ∧ ∀ f, py_getitem (chunks s) (Cache.index c) = Some (Spilled f) →
             stored w f = Some (Cache.data c)
  end.

(** [get(i)], [get(i+1)], ... for [n] indices in order. *)
Fixpoint get_each (n : nat) (i : Z) : M (list pyval) :=
  match n with
  | O => ret []
  | S n' =>
      v <- __getitem__ i ;;
      rest <- get_each n' (i + 1) ;;
      ret (v :: rest)
  end.

(** A method leaves the sizing state (the chunk length and the byte
    counter) as it found it, whatever its outcome. *)
Definition keeps_sizing {A : Type} (m : M A) : Prop :=
  ∀ st,
    chunk_length (fst (snd (m st))) = chunk_length (fst st)
    ∧ _size_counter (fst (snd (m st))) = _size_counter (fst st).

(** ** Data of the worked examples *)

Definition example_world : World := mkWorld ∅ None None.

(** The object before [__init__] has run. *)
Definition unborn : BigArray := mkBigArray [] 0 None ∅ None false 0.

Definition example_getsizeof (v : pyval) : Z := 28.

Definition example_str (v : pyval) : string := "?".

Definition example_threshold : Z := 1048576.

Definition ints (n : nat) : list pyval :=
  map (λ i, PyInt (Z.of_nat i)) (seq 0 n).

(** [BigArray(items, chunk_size, compress_level)] in the example world. *)
Definition construct (items : list pyval) (chunk_size compress_level : Z) : state :=
  snd (__init__ example_threshold example_getsizeof (Some items) chunk_size
         compress_level (unborn, example_world)).

(** Export with [__getstate__], import with [__setstate__] into a new
    object over the same files. *)
Definition reimport (st : state) : state :=
  match __getstate__ st with
  | (Ok exported, st') =>
      snd (__setstate__ example_threshold 9 example_getsizeof exported
             (unborn, snd st'))
  | (Raise _, st') => st'
  end.

(** Chunk length 2 over 0, 1: one spilled chunk, then [set(1, 99)]. *)
Definition written_pair : state :=
  snd (__setitem__ 1 (PyInt 99) (construct (ints 2) 2 9)).

(** Chunk length 2 over 0, 1, 2, then [set(0, 99)]. *)
Definition written_triple : state :=
  snd (__setitem__ 0 (PyInt 99) (construct (ints 3) 2 9)).

(** Chunk length 2 over 0..4 (two spilled chunks), read once at index 0. *)
Definition read_five : state :=
  snd (__getitem__ 0 (construct (ints 5) 2 9)).

Definition closed_triple : state := snd (close (construct (ints 3) 2 9)).

Definition closed_single : state := snd (close (construct [PyInt 5] 2 9)).

(** Explicit chunk length 3, and the same container after [clear()]. *)
Definition explicit_three : state := construct (ints 3) 3 9.

Definition cleared_three : state :=
  snd (clear example_threshold 9 example_getsizeof explicit_three).

(** Chunk length 1 with the compression level 10, which zlib rejects. *)
Definition level_ten : state := construct [] 1 10.

(** [BigArray()]: adaptive sizing. *)
Definition default_empty : state := construct [] example_threshold 9.

(** An adaptive container of one element whose byte counter stands at 28,
    under a threshold of 50. *)
Definition counting : BigArray :=
  mkBigArray [Resident [PyInt 0]] sys_maxsize None ∅ (Some 28) false 9.

(** ** More conditions on containers *)

(** The cache slot is not on the last spilled chunk, the one [pop] promotes
    when the open chunk is empty. *)
Definition slot_off_last (s : BigArray) : Prop :=
  match cache s with
  | Some c => Cache.index c ≠ Z.of_nat (length (chunks s)) - 2
  | None => True
  end.

(** ** Temporary files *)

(** A condition on states that a method sustains, whatever its outcome. *)
Definition maintains {A : Type} (P : state → Prop) (m : M A) : Prop :=
  ∀ st, P st → P (snd (m st)).

(** The container owns the files it created and no others, with respect
    to the file system [w0] it started from: no registered name is a file
    of [w0], every other name holds what it held in [w0], and a closed
    container has nothing registered. *)
Definition owns_new_files (w0 : World) (st : state) : Prop :=
  (∀ g, g ∈ filenames (fst st) → files w0 !! g = None)
  ∧ (∀ g, g ∉ filenames (fst st) → files (snd st) !! g = files w0 !! g)
  ∧ (_closed (fst st) = true → filenames (fst st) = ∅).

Definition open_owner (w0 : World) (st : state) : Prop :=
  _closed (fst st) = false ∧ owns_new_files w0 st.

Section Sessions.

Variable BIGARRAY_CHUNK_SIZE : Z.
Variable BIGARRAY_COMPRESS_LEVEL : Z.
Variable getsizeof : pyval → Z.
Variable py_str : pyval → string.

(** Any public method called on the container, the reinitialising ones
    included, and a sequence of such calls, each continuing from the
    state the previous one left, whether it returned or raised. *)
Inductive method : Type :=
| Op (o : operation)
| Clear
| Reverse.

Definition invoke (m : method) (st : state) : state :=
  match m with
  | Op o => perform BIGARRAY_CHUNK_SIZE getsizeof py_str o st
  | Clear => snd (clear BIGARRAY_CHUNK_SIZE BIGARRAY_COMPRESS_LEVEL getsizeof st)
  | Reverse => snd (reverse BIGARRAY_CHUNK_SIZE BIGARRAY_COMPRESS_LEVEL getsizeof st)
  end.

Definition session (ms : list method) (st : state) : state :=
  foldl (λ st m, invoke m st) st ms.

End Sessions.

(** ** The size of a hashable value *)

(** The shallow size of a value plus, for a tuple, the sizes of its items:
    the number that [_size_of] is compared with below. *)
Fixpoint tuple_size (getsizeof : pyval → Z) (v : pyval) : Z :=
  getsizeof v
  + match v with
    | PyTuple items =>
        (fix total (l : list pyval) : Z :=
           match l with
           | [] => 0
           | x :: l' => tuple_size getsizeof x + total l'
           end) items
    | _ => 0
    end.

(** ** Slices and copies *)

(** A [slice] object with integer or absent components. *)
Module Slice.
Record t : Type := mk {
  start : option Z;
  stop : option Z;
  step : option Z
}.
End Slice.

(** [slice.indices(length)] for a length that is not negative. *)
Definition slice_indices (key : Slice.t) (length : Z) : result (Z * Z * Z) :=
  let step := default 1 (Slice.step key) in
  if step =? 0 then Raise (ValueError "slice step cannot be zero")
  else
    let lower := if step <? 0 then -1 else 0 in
    let upper := if step <? 0 then length - 1 else length in
    let clip (bound : option Z) (absent : Z) : Z :=
      match bound with
      | None => absent
      | Some i =>
          if i <? 0 then Z.max (i + length) lower else Z.min i upper
      end in
    Ok (clip (Slice.start key) (if step <? 0 then upper else lower),
        clip (Slice.stop key) (if step <? 0 then lower else upper),
        step).

(** [len(range(start, stop, step))] and [list(range(start, stop, step))],
    for a step that is not zero. *)
Definition range_len (start stop step : Z) : Z :=
  if 0 <? step then
    if start <? stop then (stop - start - 1) / step + 1 else 0
  else
    if stop <? start then (start - stop - 1) / (- step) + 1 else 0.

Definition py_range (start stop step : Z) : list Z :=
  (λ i, start + Z.of_nat i * step) <$> seq 0 (Z.to_nat (range_len start stop step)).

(** [l[key]] for a list [l] and a slice [key]: the elements at the
    positions of the range that [key.indices(len(l))] describes. *)
Definition py_slice {A : Type} (l : list A) (key : Slice.t) : option (list A) :=
  match slice_indices key (Z.of_nat (length l)) with
  | Ok (start, stop, step) =>
      Some (omap (λ i, l !! Z.to_nat i) (py_range start stop step))
  | Raise _ => None
  end.

(** A method call on another container, one held in a local variable of
    the running method: the call runs on that object and the shared file
    system, and hands the object back.  When the call raises, the local
    object is dropped from the model (its temporary files stay until it is
    collected). *)
Definition on_object {A : Type} (obj : BigArray) (m : M A) : M (A * BigArray) :=
  fun st =>
    match m (obj, snd st) with
    | (Ok a, st') => (Ok (a, fst st'), (fst st, snd st'))
    | (Raise e, st') => (Raise e, (fst st, snd st'))
    end.

Section Copies.

Variable BIGARRAY_CHUNK_SIZE : Z.
Variable BIGARRAY_COMPRESS_LEVEL : Z.
Variable getsizeof : pyval → Z.

(** [BigArray()] *)
Definition BigArray_new : M BigArray :=
  r <- on_object unborn
         (__init__ BIGARRAY_CHUNK_SIZE getsizeof None BIGARRAY_CHUNK_SIZE
            BIGARRAY_COMPRESS_LEVEL) ;;
  ret (snd r).

(** The loops of [_getslice]: [for i in range(...): result.append(self[i])]. *)
Fixpoint getslice_loop (indices : list Z) (result : BigArray) : M BigArray :=
  match indices with
  | [] => ret result
  | i :: rest =>
      v <- __getitem__ i ;;
      r <- on_object result (append BIGARRAY_CHUNK_SIZE getsizeof v) ;;
      getslice_loop rest (snd r)
  end.

Definition _getslice (key : Slice.t) : M BigArray :=
  length <- len ;;
  ind <- lift_result (slice_indices key length) ;;
  let '(start, stop, step) := ind in
  result <- BigArray_new ;;
  if step =? 1 then getslice_loop (py_range start stop 1) result
  else getslice_loop (py_range start stop step) result.

(** [__getitem__] with a slice for its key. *)
Definition getitem_slice (key : Slice.t) : M BigArray :=
  self <- get_self ;;
  if _closed self then raise closed_error
  else _getslice key.

(** [retval.extend(self)] inside [BigArray(self)]: the generator of
    [__iter__] runs on [self], one element per [retval.append]. *)
Fixpoint copy_loop (n : nat) (i : Z) (retval : BigArray) : M BigArray :=
  match n with
  | O => ret retval
  | S n' =>
      item <- try_except (v <- __getitem__ i ;; ret (Some v))
                is_IndexError (fun _ => ret None) ;;
      match item with
      | None => ret retval
      | Some v =>
          r <- on_object retval (append BIGARRAY_CHUNK_SIZE getsizeof v) ;;
          copy_loop n' (i + 1) (snd r)
      end
  end.

Definition __add__ (value : list pyval) : M BigArray :=
  retval <- BigArray_new ;;
  (if _closed retval then raise closed_error else ret tt) ;;
  length <- len ;;
  retval <- copy_loop (Z.to_nat length) 0 retval ;;
  r <- on_object retval (extend BIGARRAY_CHUNK_SIZE getsizeof value) ;;
  ret (snd r).

(** [__iadd__] returns [self], the container the state holds. *)
Definition __iadd__ (value : list pyval) : M unit :=
  extend BIGARRAY_CHUNK_SIZE getsizeof value.

End Copies.

(** ** Display and scope exit *)

Section Display.

(** [repr] of a list of values and of a string. *)
Variable repr_list : list pyval → string.
Variable repr_str : string → string.

Definition __repr__ : M string :=
  self <- get_self ;;
  if _closed self then ret "BigArray(closed)"
  else
    let prefix := if (1 <? length (chunks self))%nat then "..." else "" in
    match last (chunks self) with
    | None => raise list_index_error
    | Some (Resident l) => ret (prefix +:+ repr_list l)
    | Some (Spilled f) => ret (prefix +:+ repr_str f)
    end.

End Display.

(** [__enter__] returns the container itself; [__exit__] closes it and
    returns [None], so an exception of the block is not suppressed. *)
Definition __enter__ : M BigArray := get_self.

Definition __exit__ : M unit := close.

(** [with self as a: body]: [__exit__] runs however the block ends, and the
    block's outcome stands unless [__exit__] itself raises. *)
Definition with_block {A : Type} (body : BigArray → M A) : M A :=
  a <- __enter__ ;;
  fun st =>
    match body a st with
    | (r, st1) =>
        match __exit__ st1 with
        | (Ok _, st2) => (r, st2)
        | (Raise e, st2) => (Raise e, st2)
        end
    end.

(** [__del__]: [close()] with every exception swallowed. *)
Definition __del__ : M unit :=
  try_except close (fun _ => true) (fun _ => ret tt).

(** * Verification *)

Ltac mstep1 :=
  cbv beta iota zeta delta
    [bind get_self get_os put_self put_os ret raise from_option lift_result
     set_chunks set_cache set_filenames set_chunk_length set_size_counter
     set_closed set_compress_level];
  cbn [fst snd chunks chunk_length cache filenames _size_counter _closed
       _compress_level files mkstemp_fault write_fault Cache.index Cache.data
       Cache.dirty orb andb negb].

Ltac mstep := mstep1; mstep1.

Lemma concat_uniform_length (c : Z) (ds : list (list pyval)) :
  Forall (λ d, Z.of_nat (length d) = c) ds →
  Z.of_nat (length (concat ds)) = Z.of_nat (length ds) * c.
Proof.
  induction 1 as [|d ds Hd _ IH]; simpl; [lia|].
  rewrite length_app. lia.
Qed.

Lemma len_last_resident s w cs l :
  chunks s = cs ++ [Resident l] →
  len_last (s, w) = (Ok (Z.of_nat (length l)), (s, w)).
Proof.
  intros H. unfold len_last. mstep. rewrite H, last_snoc. reflexivity.
Qed.

(** [len] counts the elements of the store and changes nothing. *)
Lemma len_Layout s w fs ds tail :
  Layout s w fs ds tail →
  len (s, w) = (Ok (Z.of_nat (length (concat ds ++ tail))), (s, w)).
Proof.
  intros L. destruct L.
  pose proof (concat_uniform_length _ _ lay_full0) as Hc.
  pose proof (len_last_resident s w _ _ lay_chunks0) as Hl.
  rewrite length_app in *.
  unfold len, __len__. mstep.
  rewrite lay_open0, lay_chunks0, length_app, length_fmap.
  change (length [Resident tail]) with 1%nat.
  destruct (Nat.eqb_spec (length fs + 1) 1) as [E|E]; mstep; rewrite Hl.
  - assert (length ds = 0%nat) by lia. destruct ds; [|done]. simpl in *.
    destruct (Z.ltb_spec (Z.of_nat (length tail)) 0); [lia|].
    destruct (Z.ltb_spec sys_maxsize (Z.of_nat (length tail))); [lia|]. done.
  - replace ((Z.of_nat (length fs + 1) - 1) * chunk_length s + Z.of_nat (length tail))
      with (Z.of_nat (length (concat ds) + length tail)) by lia.
    destruct (Z.ltb_spec (Z.of_nat (length (concat ds) + length tail)) 0); [lia|].
    destruct (Z.ltb_spec sys_maxsize (Z.of_nat (length (concat ds) + length tail))); [lia|]. done.
Qed.

(** ** Addressing in a store of equal-length chunks *)

Lemma py_getitem_nonneg {A} (l : list A) (i : Z) :
  0 ≤ i → py_getitem l i = l !! Z.to_nat i.
Proof.
  intros Hi. unfold py_getitem, py_index.
  destruct (Z.ltb_spec i 0); [lia|].
  destruct (Z.leb_spec 0 i); [|lia]. simpl.
  destruct (Z.ltb_spec i (Z.of_nat (length l))); [done|].
  symmetry. apply lookup_ge_None. lia.
Qed.

Lemma py_setitem_in_range {A} (l : list A) (i : Z) (x : A) :
  0 ≤ i < Z.of_nat (length l) → py_setitem l i x = Some (<[Z.to_nat i := x]> l).
Proof.
  intros Hi. unfold py_setitem, py_index.
  destruct (Z.ltb_spec i 0); [lia|].
  destruct (Z.leb_spec 0 i); [|lia]. simpl.
  destruct (Z.ltb_spec i (Z.of_nat (length l))); [done|lia].
Qed.

(** Index [i] below the spilled part: chunk [i / c], offset [i mod c]. *)
Lemma chunk_addr_spilled (c : Z) (ds : list (list pyval)) (tail : list pyval)
    (i : Z) (v : pyval) :
  Forall (λ d, Z.of_nat (length d) = c) ds →
  0 ≤ i < Z.of_nat (length ds) * c →
  0 ≤ i / c < Z.of_nat (length ds) ∧ 0 ≤ i mod c < c ∧
  ∃ d, ds !! Z.to_nat (i / c) = Some d
       ∧ (concat ds ++ tail) !! Z.to_nat i = d !! Z.to_nat (i mod c)
       ∧ <[Z.to_nat i := v]> (concat ds ++ tail)
         = concat (<[Z.to_nat (i / c) := <[Z.to_nat (i mod c) := v]> d]> ds) ++ tail.
Proof.
  intros Hall. revert i.
  induction Hall as [|d ds Hd Hall IH]; intros i Hi; cbn [length] in *; [lia|].
  assert (0 < c) as Hc by nia.
  destruct (Z.lt_ge_cases i c) as [Hlt|Hge].
  - rewrite Z.div_small, Z.mod_small by lia.
    split; [lia|]. split; [lia|]. exists d. simpl.
    split; [done|].
    rewrite <- !app_assoc.
    split.
    + apply lookup_app_l. lia.
    + rewrite insert_app_l by lia. done.
  - destruct (IH (i - c)) as (Hq & Hr & d' & Hd' & Hget & Hset); [lia|].
    assert (i / c = (i - c) / c + 1) as ->.
    { rewrite <- Z.div_add by lia. f_equal. lia. }
    assert (i mod c = (i - c) mod c) as ->.
    { rewrite <- (Z.mod_add (i - c) 1 c) by lia. f_equal. lia. }
    split; [lia|]. split; [lia|]. exists d'.
    replace (Z.to_nat ((i - c) / c + 1)) with (S (Z.to_nat ((i - c) / c))) by lia.
    simpl. split; [done|].
    rewrite <- !app_assoc.
    assert (Z.to_nat i = (length d + Z.to_nat (i - c))%nat) as -> by lia.
    split.
    + rewrite lookup_app_r by lia.
      replace (length d + Z.to_nat (i - c) - length d)%nat with (Z.to_nat (i - c)) by lia.
      done.
    + rewrite insert_app_r. f_equal. done.
Qed.

(** Index [i] beyond the spilled part: the open chunk, offset [i mod c]. *)
Lemma chunk_addr_tail (c : Z) (ds : list (list pyval)) (tail : list pyval)
    (i : Z) (v : pyval) :
  Forall (λ d, Z.of_nat (length d) = c) ds →
  Z.of_nat (length tail) < c →
  Z.of_nat (length ds) * c ≤ i < Z.of_nat (length ds) * c + Z.of_nat (length tail) →
  i / c = Z.of_nat (length ds) ∧ 0 ≤ i mod c < Z.of_nat (length tail)
  ∧ (concat ds ++ tail) !! Z.to_nat i = tail !! Z.to_nat (i mod c)
  ∧ <[Z.to_nat i := v]> (concat ds ++ tail)
    = concat ds ++ <[Z.to_nat (i mod c) := v]> tail.
Proof.
  intros Hall Ht Hi.
  pose proof (concat_uniform_length _ _ Hall) as Hlen.
  set (r := i - Z.of_nat (length ds) * c).
  assert (i / c = Z.of_nat (length ds)) as Hq.
  { symmetry. apply (Z.div_unique_pos i c _ r); unfold r; lia. }
  assert (i mod c = r) as Hr.
  { symmetry. apply (Z.mod_unique_pos i c (Z.of_nat (length ds)) r); unfold r; lia. }
  rewrite Hq, Hr. split; [done|]. split; [unfold r; lia|].
  assert (Z.to_nat i = (length (concat ds) + Z.to_nat r)%nat) as -> by (unfold r; lia).
  split.
  - rewrite lookup_app_r by lia. f_equal. lia.
  - rewrite insert_app_r. done.
Qed.

(** ** Files *)

(** [mkstemp] never names a file that holds a chunk. *)
Lemma stored_fresh (w : World) (f : string) (d : list pyval) :
  stored w f = Some d → f ≠ fresh (dom (files w)).
Proof.
  unfold stored. intros H ->.
  pose proof (is_fresh (dom (files w))) as Hf.
  apply not_elem_of_dom in Hf. rewrite Hf in H. done.
Qed.

Lemma stored_write_eq (w : World) (f : string) (lvl : Z) (d : list pyval) m1 m2 :
  stored (mkWorld (<[f := Packed lvl d]> (files w)) m1 m2) f = Some d.
Proof. unfold stored. simpl. rewrite lookup_insert_eq. done. Qed.

Lemma stored_write_ne (w : World) (f g : string) (b : blob) m1 m2 :
  g ≠ f → stored (mkWorld (<[f := b]> (files w)) m1 m2) g = stored w g.
Proof. intros H. unfold stored. simpl. rewrite lookup_insert_ne by done. done. Qed.

Lemma read_file_stored (s : BigArray) (w : World) (f : string) (d : list pyval) :
  stored w f = Some d → read_file f (s, w) = (Ok d, (s, w)).
Proof.
  unfold stored, read_file. intros H. mstep.
  destruct (files w !! f) as [[|lvl d']|]; try done. by simplify_eq.
Qed.

Lemma dump_ok (s : BigArray) (w : World) (d : list pyval) :
  healthy w → valid_level (_compress_level s) = true →
  _dump d (s, w)
  = (Ok (fresh (dom (files w))),
     (mkBigArray (chunks s) (chunk_length s) (cache s)
        ({[fresh (dom (files w))]} ∪ filenames s) (_size_counter s) (_closed s)
        (_compress_level s),
      mkWorld (<[fresh (dom (files w)) := Packed (_compress_level s) d]> (files w))
        None None)).
Proof.
  intros [Hm Hw] Hl. unfold _dump, try_except, mkstemp, compress, write_file.
  mstep. rewrite Hm. mstep. rewrite Hl. mstep. rewrite Hw. mstep.
  rewrite insert_insert_eq. done.
Qed.

(** An [OSError] inside [_dump] comes out as [SqlmapSystemException], with
    the error's text and the hint about disk space and [TEMP]. *)
Lemma dump_mkstemp_fault (s : BigArray) (w : World) (d : list pyval) (err : string) :
  mkstemp_fault w = Some err →
  _dump d (s, w) = (Raise (SqlmapSystemException (store_message (OSError err))), (s, w)).
Proof.
  intros Hm. unfold _dump, try_except, mkstemp. mstep. rewrite Hm. reflexivity.
Qed.

Lemma dump_write_fault (s : BigArray) (w : World) (d : list pyval) (err : string) :
  mkstemp_fault w = None → valid_level (_compress_level s) = true →
  write_fault w = Some err →
  fst (_dump d (s, w)) = Raise (SqlmapSystemException (store_message (OSError err))).
Proof.
  intros Hm Hl Hw. unfold _dump, try_except, mkstemp, compress, write_file.
  mstep. rewrite Hm. mstep. rewrite Hl. mstep. rewrite Hw. reflexivity.
Qed.

(** ** The cache protocol keeps the layout *)

Lemma Layout_token s w fs ds tail k f :
  Layout s w fs ds tail → fs !! k = Some f →
  py_getitem (chunks s) (Z.of_nat k) = Some (Spilled f).
Proof.
  intros L Hf. rewrite py_getitem_nonneg, Nat2Z.id by lia.
  rewrite (lay_chunks _ _ _ _ _ L).
  rewrite lookup_app_l by (rewrite length_fmap; eapply lookup_lt_Some; eauto).
  rewrite list_lookup_fmap, Hf. done.
Qed.

(** First block of [_checkcache]: a dirty slot on another chunk is dumped
    to a new file and its token replaced; the chunks read as before. *)
Lemma write_dirty_Layout s w fs ds tail k :
  Layout s w fs ds tail → healthy w →
  ∃ s' w' fs',
    _checkcache_write_dirty (Z.of_nat k) (s, w) = (Ok tt, (s', w'))
    ∧ Layout s' w' fs' ds tail ∧ healthy w'
    ∧ fs' !! k = fs !! k
    ∧ slot_at s' k = slot_at s k
    ∧ chunk_length s' = chunk_length s
    ∧ match cache s' with
      | Some c => Cache.index c = Z.of_nat k ∨ Cache.dirty c = false
      | None => True
      end.
Proof.
  intros L Hw. unfold _checkcache_write_dirty. mstep.
  destruct (cache s) as [c|] eqn:Hc; cycle 1.
  { exists s, w, fs. rewrite Hc. split_and!; done. }
  destruct (Z.eqb_spec (Cache.index c) (Z.of_nat k)) as [E|E]; simpl.
  { exists s, w, fs. rewrite Hc. split_and!; try done. by left. }
  destruct (Cache.dirty c) eqn:Hd.
  2:{ exists s, w, fs. rewrite Hc. split_and!; try done. by right. }
  rewrite (dump_ok s w (Cache.data c) Hw (lay_level _ _ _ _ _ L)). mstep.
  pose proof (lay_slot _ _ _ _ _ L) as Hslot. rewrite Hc in Hslot.
  set (fnew := fresh (dom (files w))).
  set (kc := Z.to_nat (Cache.index c)).
  assert (kc < length fs)%nat as Hkc by (unfold kc; lia).
  rewrite py_setitem_in_range.
  2:{ rewrite (lay_chunks _ _ _ _ _ L), length_app, length_fmap. simpl. lia. }
  mstep. fold kc.
  eexists _, _, (<[kc := fnew]> fs). split; [reflexivity|].
  destruct (lookup_lt_is_Some_2 fs kc Hkc) as [fc Hfc].
  destruct (lookup_lt_is_Some_2 ds kc) as [dc Hdc];
    [rewrite (lay_count _ _ _ _ _ L); done|].
  pose proof (lay_files _ _ _ _ _ L kc fc dc Hfc Hdc) as Hok.
  unfold chunk_ok, slot_at in Hok. rewrite Hc in Hok.
  replace (Z.of_nat kc) with (Cache.index c) in Hok by (unfold kc; lia).
  rewrite Z.eqb_refl in Hok. destruct Hok as [Hdata _].
  split; [|split; [done|split; [|split; [|split; [done|]]]]].
  - destruct L. constructor; simpl; try done.
    + rewrite lay_chunks0, insert_app_l by (rewrite length_fmap; done).
      rewrite list_fmap_insert. done.
    + rewrite length_insert. done.
    + intros k' f' d' Hf' Hd'. unfold chunk_ok, slot_at. simpl.
      destruct (Z.eqb_spec (Cache.index c) (Z.of_nat k')) as [E'|E'].
      * assert (k' = kc) as -> by (unfold kc; lia).
        rewrite list_lookup_insert_eq in Hf' by done. simplify_eq.
        split; [done|]. intros _. apply stored_write_eq.
      * assert (k' ≠ kc) as Hne by (unfold kc; lia).
        rewrite list_lookup_insert_ne in Hf' by done.
        pose proof (lay_files0 k' f' d' Hf' Hd') as Hok.
        unfold chunk_ok, slot_at in Hok. rewrite Hc in Hok.
        destruct (Z.eqb_spec (Cache.index c) (Z.of_nat k')); [done|].
        rewrite stored_write_ne; [done|]. eapply stored_fresh; eauto.
    + rewrite length_insert. done.
    + intros Hu. rewrite (lay_sizing0 Hu) in Hkc. simpl in Hkc. lia.
  - rewrite list_lookup_insert_ne; [done|]. unfold kc. lia.
  - unfold slot_at. simpl. rewrite Hc.
    destruct (Z.eqb_spec (Cache.index c) (Z.of_nat k)); done.
  - simpl. by right.
Qed.

(** Second block of [_checkcache]: the slot ends up on chunk [k], holding
    what chunk [k] reads as. *)
Lemma load_Layout s w fs ds tail k f d :
  Layout s w fs ds tail →
  match cache s with
  | Some c => Cache.index c = Z.of_nat k ∨ Cache.dirty c = false
  | None => True
  end →
  fs !! k = Some f → ds !! k = Some d →
  ∃ s' dirty',
    _checkcache_load (Z.of_nat k) (s, w) = (Ok tt, (s', w))
    ∧ cache s' = Some (Cache.new (Z.of_nat k) d dirty')
    ∧ dirty' = match slot_at s k with Some c => Cache.dirty c | None => false end
    ∧ Layout s' w fs ds tail ∧ chunk_length s' = chunk_length s.
Proof.
  intros L Hclean Hf Hd. unfold _checkcache_load. mstep.
  pose proof (lay_files _ _ _ _ _ L k f d Hf Hd) as Hok.
  unfold chunk_ok in Hok. unfold slot_at in *.
  destruct (cache s) as [c|] eqn:Hc.
  - destruct (Z.eqb_spec (Cache.index c) (Z.of_nat k)) as [E|E].
    + exists s, (Cache.dirty c). rewrite Hc. destruct Hok as [<- _].
      rewrite <- E. destruct c; done.
    + destruct Hclean as [|Hclean]; [done|].
      unfold try_except. mstep.
      rewrite (Layout_token _ _ _ _ _ _ _ L Hf). mstep.
      rewrite (read_file_stored _ _ _ _ Hok). mstep.
      eexists _, false. split_and!; try done.
      destruct L. constructor; simpl; try done.
      * intros k' f' d' Hf' Hd'. unfold chunk_ok, slot_at. simpl.
        destruct (Z.eqb_spec (Z.of_nat k) (Z.of_nat k')) as [E'|E'].
        { assert (k' = k) as -> by lia. simplify_eq. done. }
        pose proof (lay_files0 k' f' d' Hf' Hd') as Hok'.
        unfold chunk_ok, slot_at in Hok'. rewrite Hc in Hok'.
        destruct (Z.eqb_spec (Cache.index c) (Z.of_nat k')); [|done].
        destruct Hok' as [_ Hok']. auto.
      * apply lookup_lt_Some in Hf. lia.
  - unfold try_except. mstep.
    rewrite (Layout_token _ _ _ _ _ _ _ L Hf). mstep.
    rewrite (read_file_stored _ _ _ _ Hok). mstep.
    eexists _, false. split_and!; try done.
    destruct L. constructor; simpl; try done.
    * intros k' f' d' Hf' Hd'. unfold chunk_ok, slot_at. simpl.
      destruct (Z.eqb_spec (Z.of_nat k) (Z.of_nat k')) as [E'|E'].
      { assert (k' = k) as -> by lia. simplify_eq. done. }
      pose proof (lay_files0 k' f' d' Hf' Hd') as Hok'.
      unfold chunk_ok, slot_at in Hok'. rewrite Hc in Hok'. done.
    * apply lookup_lt_Some in Hf. lia.
Qed.

Lemma checkcache_Layout s w fs ds tail k f d :
  Layout s w fs ds tail → healthy w →
  fs !! k = Some f → ds !! k = Some d →
  ∃ s' w' fs' dirty',
    _checkcache (Z.of_nat k) (s, w) = (Ok tt, (s', w'))
    ∧ cache s' = Some (Cache.new (Z.of_nat k) d dirty')
    ∧ dirty' = match slot_at s k with Some c => Cache.dirty c | None => false end
    ∧ Layout s' w' fs' ds tail ∧ healthy w' ∧ chunk_length s' = chunk_length s.
Proof.
  intros L Hw Hf Hd.
  destruct (write_dirty_Layout s w fs ds tail k L Hw)
    as (s1 & w1 & fs1 & E1 & L1 & Hw1 & Hf1 & Hslot & Hcl1 & Hclean).
  rewrite Hf in Hf1.
  destruct (load_Layout s1 w1 fs1 ds tail k f d L1 Hclean Hf1 Hd)
    as (s2 & dirty' & E2 & Hc2 & Hd2 & L2 & Hcl2).
  exists s2, w1, fs1, dirty'.
  unfold _checkcache. mstep. rewrite E1, E2, <- Hslot, Hcl2, Hcl1. done.
Qed.

(** ** Reading and writing by index *)

(** [get(i)] returns element [i]; on a spilled chunk the slot ends up on
    that chunk. *)
Lemma getitem_Layout s w fs ds tail i :
  Layout s w fs ds tail → healthy w →
  0 ≤ i < Z.of_nat (length (concat ds ++ tail)) →
  ∃ x s' w' fs',
    __getitem__ i (s, w) = (Ok x, (s', w'))
    ∧ (concat ds ++ tail) !! Z.to_nat i = Some x
    ∧ Layout s' w' fs' ds tail ∧ healthy w'
    ∧ chunk_length s' = chunk_length s
    ∧ (i < Z.of_nat (length ds) * chunk_length s →
       ∃ d dirty',
         ds !! Z.to_nat (i / chunk_length s) = Some d
         ∧ cache s' = Some (Cache.new (i / chunk_length s) d dirty')
         ∧ dirty' = match slot_at s (Z.to_nat (i / chunk_length s)) with
                    | Some c => Cache.dirty c
                    | None => false
                    end).
Proof.
  intros L Hw Hi.
  destruct (lookup_lt_is_Some_2 (concat ds ++ tail) (Z.to_nat i)) as [x Hx]; [lia|].
  exists x.
  unfold __getitem__. mstep. rewrite (lay_open _ _ _ _ _ L). mstep.
  rewrite (len_Layout _ _ _ _ _ L). mstep.
  destruct (Z.eqb_spec (Z.of_nat (length (concat ds ++ tail))) 0); [lia|].
  destruct (Z.ltb_spec i 0); [lia|]. mstep.
  destruct (Z.ltb_spec i 0); [lia|].
  destruct (Z.leb_spec (Z.of_nat (length (concat ds ++ tail))) i); [lia|].
  mstep.
  pose proof (lay_tail _ _ _ _ _ L) as Ht.
  destruct (Z.eqb_spec (chunk_length s) 0); [lia|]. mstep.
  pose proof (lay_full _ _ _ _ _ L) as Hfull.
  pose proof (concat_uniform_length _ _ Hfull) as Hlen.
  rewrite length_app in Hi.
  destruct (Z.lt_ge_cases i (Z.of_nat (length ds) * chunk_length s)) as [Hsp|Htl].
  - destruct (chunk_addr_spilled _ ds tail i x Hfull) as (Hq & Hr & d & Hd & Hget & _);
      [lia|].
    set (k := Z.to_nat (i / chunk_length s)) in *.
    destruct (lookup_lt_is_Some_2 fs k) as [f Hf];
      [rewrite <- (lay_count _ _ _ _ _ L); lia|].
    replace (i / chunk_length s) with (Z.of_nat k) by lia.
    rewrite (Layout_token _ _ _ _ _ _ _ L Hf). mstep.
    destruct (checkcache_Layout s w fs ds tail k f d L Hw Hf Hd)
      as (s' & w' & fs' & dirty' & E & Hc & Hdirty & L' & Hw' & Hcl).
    rewrite E. mstep. rewrite Hc. mstep.
    rewrite py_getitem_nonneg by lia. rewrite <- Hget, Hx. mstep.
    exists s', w', fs'. split_and!; try done.
    intros _. exists d, dirty'. done.
  - destruct (chunk_addr_tail _ ds tail i x Hfull Ht) as (Hq & Hr & Hget & _); [lia|].
    rewrite Hq, py_getitem_nonneg, Nat2Z.id by lia.
    rewrite (lay_chunks _ _ _ _ _ L).
    rewrite lookup_app_r by (rewrite length_fmap, (lay_count _ _ _ _ _ L); done).
    rewrite length_fmap, (lay_count _ _ _ _ _ L), Nat.sub_diag.
    change ([Resident tail] !! 0%nat) with (Some (Resident tail)). mstep.
    rewrite py_getitem_nonneg by lia. rewrite <- Hget, Hx. mstep.
    exists s, w, fs. split_and!; try done.
    intros ?. pose proof (lay_count _ _ _ _ _ L). lia.
Qed.

Lemma Layout_write_slot s w fs ds tail k d o v dirty0 :
  Layout s w fs ds tail →
  cache s = Some (Cache.new (Z.of_nat k) d dirty0) →
  ds !! k = Some d →
  Layout (mkBigArray (chunks s) (chunk_length s)
            (Some (Cache.new (Z.of_nat k) (<[o := v]> d) true)) (filenames s)
            (_size_counter s) (_closed s) (_compress_level s))
    w fs (<[k := <[o := v]> d]> ds) tail.
Proof.
  intros L Hc Hd. destruct L.
  assert (Forall (λ d0, Z.of_nat (length d0) = chunk_length s)
            (<[k := <[o := v]> d]> ds)) as Hfull.
  { apply Forall_insert; [done|]. rewrite length_insert.
    eapply (Forall_lookup_1 _ _ _ _ lay_full0 Hd). }
  constructor; simpl; try done.
  - rewrite length_insert. done.
  - intros k' f' d' Hf' Hd'. unfold chunk_ok, slot_at. simpl.
    destruct (Z.eqb_spec (Z.of_nat k) (Z.of_nat k')) as [E|E].
    + assert (k' = k) as -> by lia.
      rewrite list_lookup_insert_eq in Hd' by (eapply lookup_lt_Some; eauto).
      simplify_eq. done.
    + rewrite list_lookup_insert_ne in Hd' by lia.
      pose proof (lay_files0 k' f' d' Hf' Hd') as Hok.
      unfold chunk_ok, slot_at in Hok. rewrite Hc in Hok. simpl in Hok.
      destruct (Z.eqb_spec (Z.of_nat k) (Z.of_nat k')); done.
  - rewrite Hc in lay_slot0. done.
  - rewrite length_app in *.
    pose proof (concat_uniform_length _ _ Hfull) as H1.
    pose proof (concat_uniform_length _ _ lay_full0) as H2.
    rewrite length_insert in H1. lia.
Qed.

(** [set(i, v)] replaces element [i]; on a spilled chunk the write stays in
    the slot, marked dirty. *)
Lemma setitem_Layout s w fs ds tail i v :
  Layout s w fs ds tail → healthy w →
  0 ≤ i < Z.of_nat (length (concat ds ++ tail)) →
  ∃ s' w' fs' ds' tail',
    __setitem__ i v (s, w) = (Ok tt, (s', w'))
    ∧ concat ds' ++ tail' = <[Z.to_nat i := v]> (concat ds ++ tail)
    ∧ Layout s' w' fs' ds' tail' ∧ healthy w'
    ∧ chunk_length s' = chunk_length s
    ∧ (i < Z.of_nat (length ds) * chunk_length s →
       ∃ d,
         ds !! Z.to_nat (i / chunk_length s) = Some d
         ∧ ds' = <[Z.to_nat (i / chunk_length s)
                   := <[Z.to_nat (i mod chunk_length s) := v]> d]> ds
         ∧ cache s' = Some (Cache.new (i / chunk_length s)
                              (<[Z.to_nat (i mod chunk_length s) := v]> d) true)).
Proof.
  intros L Hw Hi.
  unfold __setitem__. mstep. rewrite (lay_open _ _ _ _ _ L). mstep.
  rewrite (len_Layout _ _ _ _ _ L). mstep.
  destruct (Z.ltb_spec i 0); [lia|]. mstep.
  destruct (Z.ltb_spec i 0); [lia|].
  destruct (Z.leb_spec (Z.of_nat (length (concat ds ++ tail))) i); [lia|].
  mstep.
  pose proof (lay_tail _ _ _ _ _ L) as Ht.
  destruct (Z.eqb_spec (chunk_length s) 0); [lia|]. mstep.
  pose proof (lay_full _ _ _ _ _ L) as Hfull.
  pose proof (concat_uniform_length _ _ Hfull) as Hlen.
  rewrite length_app in Hi.
  destruct (Z.lt_ge_cases i (Z.of_nat (length ds) * chunk_length s)) as [Hsp|Htl].
  - destruct (chunk_addr_spilled _ ds tail i v Hfull) as (Hq & Hr & d & Hd & _ & Hset);
      [lia|].
    set (k := Z.to_nat (i / chunk_length s)) in *.
    destruct (lookup_lt_is_Some_2 fs k) as [f Hf];
      [rewrite <- (lay_count _ _ _ _ _ L); lia|].
    replace (i / chunk_length s) with (Z.of_nat k) by lia.
    rewrite (Layout_token _ _ _ _ _ _ _ L Hf). mstep.
    destruct (checkcache_Layout s w fs ds tail k f d L Hw Hf Hd)
      as (s' & w' & fs' & dirty' & E & Hc & _ & L' & Hw' & Hcl).
    rewrite E. mstep. rewrite Hc. mstep.
    rewrite py_setitem_in_range.
    2:{ rewrite (Forall_lookup_1 _ _ _ _ Hfull Hd). lia. }
    mstep. eexists _, w', fs', _, tail. split; [reflexivity|].
    split; [symmetry; exact Hset|].
    split; [apply (Layout_write_slot s' w' fs' ds tail k d _ v dirty' L' Hc Hd)|].
    split; [done|]. split; [done|].
    intros _. exists d. done.
  - destruct (chunk_addr_tail _ ds tail i v Hfull Ht) as (Hq & Hr & _ & Hset); [lia|].
    rewrite Hq, py_getitem_nonneg, Nat2Z.id by lia.
    rewrite (lay_chunks _ _ _ _ _ L).
    rewrite lookup_app_r by (rewrite length_fmap, (lay_count _ _ _ _ _ L); done).
    rewrite length_fmap, (lay_count _ _ _ _ _ L), Nat.sub_diag.
    change ([Resident tail] !! 0%nat) with (Some (Resident tail)). mstep.
    rewrite py_setitem_in_range by lia. mstep.
    rewrite py_setitem_in_range.
    2:{ rewrite length_app, length_fmap. simpl. lia. }
    mstep. rewrite Nat2Z.id.
    eexists _, w, fs, ds, _. split; [reflexivity|].
    split; [symmetry; exact Hset|]. split; [|split_and!; try done; intros ?; pose proof (lay_count _ _ _ _ _ L); lia].
    destruct L. constructor; simpl; try done.
    + rewrite insert_app_r_alt by (rewrite length_fmap; lia).
      rewrite length_fmap, <- lay_count0, Nat.sub_diag. done.
    + rewrite length_insert. done.
    + rewrite length_app, length_insert, <- length_app. done.
Qed.

(** ** Operations that leave the sizing state alone *)

Create HintDb keeps.

Lemma keeps_ret {A} (a : A) : keeps_sizing (ret a).
Proof. by intros st. Qed.

Lemma keeps_raise {A} (e : exn) : keeps_sizing (@raise A e).
Proof. by intros st. Qed.

Lemma keeps_bind {A B} (m : M A) (k : A → M B) :
  keeps_sizing m → (∀ a, keeps_sizing (k a)) → keeps_sizing (bind m k).
Proof.
  intros Hm Hk st. unfold bind. specialize (Hm st).
  destruct (m st) as [[a|e] st1]; simpl in *; [|done].
  destruct (Hk a st1) as [H1 H2]. destruct Hm. split; congruence.
Qed.

Lemma keeps_try_except {A} (m : M A) handles (h : exn → M A) :
  keeps_sizing m → (∀ e, keeps_sizing (h e)) → keeps_sizing (try_except m handles h).
Proof.
  intros Hm Hh st. unfold try_except. specialize (Hm st).
  destruct (m st) as [[a|e] st1]; simpl in *; [done|].
  destruct (handles e); [|done].
  destruct (Hh e st1) as [H1 H2]. destruct Hm. split; congruence.
Qed.

Lemma keeps_for_each {A} (l : list A) (body : A → M unit) :
  (∀ x, keeps_sizing (body x)) → keeps_sizing (for_each l body).
Proof.
  intros Hb. induction l as [|x l IH]; simpl; [apply keeps_ret|].
  apply keeps_bind; [apply Hb|intros _; apply IH].
Qed.

Lemma keeps_get_self : keeps_sizing get_self.
Proof. by intros st. Qed.

Lemma keeps_get_os : keeps_sizing get_os.
Proof. by intros st. Qed.

Lemma keeps_put_os w : keeps_sizing (put_os w).
Proof. by intros st. Qed.

Lemma keeps_set_chunks v : keeps_sizing (set_chunks v).
Proof. by intros st. Qed.

Lemma keeps_set_cache v : keeps_sizing (set_cache v).
Proof. by intros st. Qed.

Lemma keeps_set_filenames v : keeps_sizing (set_filenames v).
Proof. by intros st. Qed.

Lemma keeps_set_closed v : keeps_sizing (set_closed v).
Proof. by intros st. Qed.

Lemma keeps_from_option {A} (o : option A) e : keeps_sizing (from_option o e).
Proof. by destruct o; intros st. Qed.

#[local] Hint Resolve keeps_ret keeps_raise keeps_get_self keeps_get_os keeps_put_os
  keeps_set_chunks keeps_set_cache keeps_set_filenames keeps_set_closed
  keeps_from_option : keeps.

Ltac keeps_step :=
  first
    [ progress cbv beta zeta
    | solve [auto with keeps]
    | apply keeps_bind; [|intros ?]
    | apply keeps_try_except; [|intros ?]
    | apply keeps_for_each; intros ?
    | match goal with
      | |- keeps_sizing (match ?x with _ => _ end) => destruct x
      | |- keeps_sizing (if ?b then _ else _) => destruct b
      end ].

Ltac keeps := repeat keeps_step.

Lemma keeps_len_last : keeps_sizing len_last.
Proof. unfold len_last. keeps. Qed.
#[local] Hint Resolve keeps_len_last : keeps.

Lemma keeps_len : keeps_sizing len.
Proof. unfold len, __len__. keeps. Qed.
#[local] Hint Resolve keeps_len : keeps.

Lemma keeps_dump chunk : keeps_sizing (_dump chunk).
Proof. unfold _dump, mkstemp, compress, write_file. keeps. Qed.
#[local] Hint Resolve keeps_dump : keeps.

Lemma keeps_read_file f : keeps_sizing (read_file f).
Proof. unfold read_file. keeps. Qed.
#[local] Hint Resolve keeps_read_file : keeps.

Lemma keeps_load_chunk i : keeps_sizing (_load_chunk i).
Proof. unfold _load_chunk. keeps. Qed.

Lemma keeps_checkcache i : keeps_sizing (_checkcache i).
Proof. unfold _checkcache, _checkcache_write_dirty, _checkcache_load. keeps. Qed.
#[local] Hint Resolve keeps_load_chunk keeps_checkcache : keeps.

Lemma keeps_append_spill : keeps_sizing append_spill.
Proof. unfold append_spill. keeps. Qed.

Lemma keeps_pop : keeps_sizing pop.
Proof. unfold pop. keeps. Qed.

Lemma keeps_getitem key : keeps_sizing (__getitem__ key).
Proof. unfold __getitem__. keeps. Qed.
#[local] Hint Resolve keeps_getitem : keeps.

Lemma keeps_setitem key v : keeps_sizing (__setitem__ key v).
Proof. unfold __setitem__. keeps. Qed.

Lemma keeps_iter_loop n : ∀ i, keeps_sizing (iter_loop n i).
Proof. induction n as [|n IH]; intros i; simpl; keeps; try apply IH. Qed.

Lemma keeps_iter : keeps_sizing __iter__.
Proof. unfold __iter__. keeps. apply keeps_iter_loop. Qed.
#[local] Hint Resolve keeps_iter : keeps.

Lemma keeps_count v : keeps_sizing (count v).
Proof. unfold count. keeps. Qed.

Lemma keeps_index_loop py_str n v : ∀ i, keeps_sizing (index_loop py_str n i v).
Proof. induction n as [|n IH]; intros i; simpl; keeps; try apply IH. Qed.

Lemma keeps_index py_str v start stop : keeps_sizing (index py_str v start stop).
Proof. unfold index. keeps. apply keeps_index_loop. Qed.

Lemma keeps_close : keeps_sizing close.
Proof. unfold close, close_remove, os_remove. keeps. Qed.

Lemma append_size_chunk_fixed T g s w v :
  undetermined s = false → append_size_chunk T g v (s, w) = (Ok tt, (s, w)).
Proof.
  unfold undetermined, append_size_chunk. intros H. mstep.
  destruct (_size_counter s); [|done].
  destruct (chunk_length s =? sys_maxsize); done.
Qed.

Lemma append_fixed_any_estimator T g1 g2 v st :
  undetermined (fst st) = false → append T g1 v st = append T g2 v st.
Proof.
  destruct st as [s w]. simpl. intros H. unfold append. mstep.
  destruct (_closed s); [done|].
  destruct (last (chunks s)) as [[l|f]|]; mstep; try done.
  rewrite !append_size_chunk_fixed by exact H. done.
Qed.

Lemma append_keeps_fixed T g v st :
  undetermined (fst st) = false →
  chunk_length (fst (snd (append T g v st))) = chunk_length (fst st)
  ∧ _size_counter (fst (snd (append T g v st))) = _size_counter (fst st).
Proof.
  destruct st as [s w]. simpl. intros H. unfold append. mstep.
  destruct (_closed s); [done|].
  destruct (last (chunks s)) as [[l|f]|]; mstep; try done.
  rewrite append_size_chunk_fixed by exact H. mstep.
  match goal with |- context [append_spill ?st] =>
    destruct (keeps_append_spill st) as [H1 H2] end.
  destruct (append_spill _) as [[[]|e] st']; done.
Qed.

Lemma for_each_append_keeps_fixed T g vs : ∀ st,
  undetermined (fst st) = false →
  chunk_length (fst (snd (for_each vs (append T g) st))) = chunk_length (fst st)
  ∧ _size_counter (fst (snd (for_each vs (append T g) st))) = _size_counter (fst st).
Proof.
  induction vs as [|v vs IH]; intros st H; [done|].
  cbn [for_each]. unfold bind.
  destruct (append_keeps_fixed T g v st H) as [H1 H2].
  destruct (append T g v st) as [[[]|e] st1]; simpl in *; [|done].
  destruct (IH st1) as [H3 H4].
  { unfold undetermined in *. rewrite H1, H2. done. }
  split; congruence.
Qed.

(** ** The size estimator *)

Lemma pyval_nested_ind (P : pyval → Prop) :
  P PyNone → (∀ z, P (PyInt z)) → (∀ s, P (PyStr s)) →
  (∀ items, Forall P items → P (PyTuple items)) →
  (∀ items, Forall P items → P (PyList items)) →
  (∀ items, Forall (λ kv, P kv.1 ∧ P kv.2) items → P (PyDict items)) →
  ∀ v, P v.
Proof.
  intros HN HI HS HT HL HD. fix IH 1.
  intros [|z|s|items|items|items]; [done|done|done|..].
  - apply HT. induction items as [|x items IHl]; constructor; [apply IH|exact IHl].
  - apply HL. induction items as [|x items IHl]; constructor; [apply IH|exact IHl].
  - apply HD. induction items as [|[k v] items IHl]; constructor;
      [split; apply IH|exact IHl].
Qed.

Section Verification.

Variable BIGARRAY_CHUNK_SIZE : Z.
Variable BIGARRAY_COMPRESS_LEVEL : Z.
Variable getsizeof : pyval → Z.
Variable py_str : pyval → string.

Local Abbreviation append_size_chunk' :=
  (append_size_chunk BIGARRAY_CHUNK_SIZE getsizeof).
Local Abbreviation append' := (append BIGARRAY_CHUNK_SIZE getsizeof).
Local Abbreviation extend' := (extend BIGARRAY_CHUNK_SIZE getsizeof).
Local Abbreviation init' := (__init__ BIGARRAY_CHUNK_SIZE getsizeof).
Local Abbreviation clear' :=
  (clear BIGARRAY_CHUNK_SIZE BIGARRAY_COMPRESS_LEVEL getsizeof).
Local Abbreviation perform' := (perform BIGARRAY_CHUNK_SIZE getsizeof py_str).
Local Abbreviation setstate' :=
  (__setstate__ BIGARRAY_CHUNK_SIZE BIGARRAY_COMPRESS_LEVEL getsizeof).

Lemma size_of_unhashable (v : pyval) :
  hashable v = false →
  _size_of getsizeof v = Raise (TypeError ("unhashable type: '" +:+ type_name v +:+ "'")).
Proof. intros H. destruct v; simpl in *; rewrite ?H; done. Qed.

Lemma size_of_raises_TypeError (v : pyval) (e : exn) :
  _size_of getsizeof v = Raise e → ∃ m, e = TypeError m.
Proof.
  revert e. induction v as [|z|s|items IH|items IH|items IH] using pyval_nested_ind;
    intros e; simpl; try done.
  - destruct (forallb hashable items); [|intros [= <-]; eauto].
    match goal with |- context [match ?t with _ => _ end] => destruct t as [n|e'] eqn:E end;
      [done|].
    assert (∃ m, e' = TypeError m) as [m ->]; [|done].
    clear -IH E. revert e' E.
    induction IH as [|x items Hx _ IHl]; intros e' E; [done|].
    destruct (_size_of getsizeof x) as [a|ex] eqn:Ex.
    + match type of E with context [match ?t with _ => _ end] =>
        destruct t as [c|e''] eqn:E' end; [done|].
      injection E as <-. eauto.
    + injection E as <-. eauto.
  - intros [= <-]; eauto.
  - intros [= <-]; eauto.
Qed.

Lemma size_of_hashable (v : pyval) :
  hashable v = true → ∃ n, _size_of getsizeof v = Ok n.
Proof.
  intros H. destruct (_size_of getsizeof v) as [n|e] eqn:E; [eauto|].
  exfalso. destruct (size_of_raises_TypeError v e E) as [m ->].
  destruct v; simpl in E, H; try done.
  rewrite H in E.
  match type of E with context [match ?t with _ => _ end] =>
    destruct t as [c|e'] eqn:E' end; [done|].
  destruct e'; done.
Qed.

(** ** Appending *)

Lemma append_size_chunk_undetermined s w v c n cs l :
  undetermined s = true → _size_counter s = Some c →
  _size_of getsizeof v = Ok n → chunks s = cs ++ [Resident l] →
  append_size_chunk' v (s, w)
  = (Ok tt,
     (if BIGARRAY_CHUNK_SIZE <=? c + n
      then mkBigArray (chunks s) (Z.max (Z.of_nat (length l)) 1) (cache s)
             (filenames s) None (_closed s) (_compress_level s)
      else mkBigArray (chunks s) (chunk_length s) (cache s) (filenames s)
             (Some (c + n)) (_closed s) (_compress_level s), w)).
Proof.
  unfold undetermined, append_size_chunk. intros H Hc Hn Hl. mstep.
  rewrite Hc in *. destruct (chunk_length s =? sys_maxsize); [|done].
  rewrite Hn. mstep.
  destruct (BIGARRAY_CHUNK_SIZE <=? c + n); [|done].
  unfold len_last. mstep. rewrite Hl, last_snoc. done.
Qed.

Lemma append_size_chunk_unhashable s w v :
  undetermined s = true → hashable v = false →
  append_size_chunk' v (s, w)
  = (Raise (TypeError ("unhashable type: '" +:+ type_name v +:+ "'")), (s, w)).
Proof.
  unfold undetermined, append_size_chunk. intros H Hv. mstep.
  destruct (_size_counter s); [|by rewrite andb_false_r in H].
  destruct (chunk_length s =? sys_maxsize); [|done].
  rewrite (size_of_unhashable v Hv). done.
Qed.

(** Last block of [append]: a full open chunk becomes a spilled one. *)
Lemma append_spill_Layout s w fs ds tail v cl1 counter1 :
  Layout s w fs ds tail → healthy w →
  Forall (λ d, Z.of_nat (length d) = cl1) ds →
  Z.of_nat (length (tail ++ [v])) ≤ cl1 →
  ((cl1 =? sys_maxsize) && match counter1 with Some _ => true | None => false end = true
   → fs = [] ∧ Z.of_nat (length (tail ++ [v])) < cl1) →
  Z.of_nat (length (concat ds ++ tail)) + 1 < sys_maxsize →
  ∃ s' w' fs' ds' tail',
    append_spill
      (mkBigArray ((Spilled <$> fs) ++ [Resident (tail ++ [v])]) cl1 (cache s)
         (filenames s) counter1 (_closed s) (_compress_level s), w)
    = (Ok tt, (s', w'))
    ∧ concat ds' ++ tail' = (concat ds ++ tail) ++ [v]
    ∧ Layout s' w' fs' ds' tail' ∧ healthy w'
    ∧ chunk_length s' = cl1 ∧ _size_counter s' = counter1.
Proof.
  intros L Hw Hfull Hle Hsz Hb.
  assert (Z.of_nat (length (tail ++ [v])) = Z.of_nat (length tail) + 1) as Hlen1
    by (rewrite length_app; simpl; lia).
  unfold append_spill, len_last. mstep. rewrite last_snoc. mstep.
  destruct (Z.leb_spec cl1 (Z.of_nat (length (tail ++ [v])))) as [Hge|Hlt].
  - rewrite last_snoc.
    rewrite dump_ok; [|done|exact (lay_level _ _ _ _ _ L)]. mstep.
    rewrite removelast_last.
    set (fnew := fresh (dom (files w))).
    eexists _, _, (fs ++ [fnew]), (ds ++ [tail ++ [v]]), []. split; [reflexivity|].
    split; [rewrite concat_app; simpl; rewrite !app_nil_r, app_assoc; done|].
    split; [|done].
    destruct L. constructor; simpl; try done.
    + rewrite fmap_app. done.
    + rewrite !length_app, lay_count0. done.
    + apply Forall_app. split; [done|]. constructor; [lia|done].
    + lia.
    + intros k f d Hf Hd. unfold chunk_ok, slot_at. simpl.
      destruct (decide (k < length fs)%nat) as [Hk|Hk].
      * rewrite lookup_app_l in Hf by done.
        rewrite lookup_app_l in Hd by lia.
        pose proof (lay_files0 k f d Hf Hd) as Hok.
        unfold chunk_ok, slot_at in Hok.
        assert (∀ d0, stored w f = Some d0 →
                      stored (mkWorld (<[fnew := Packed (_compress_level s) (tail ++ [v])]>
                                         (files w)) None None) f = Some d0) as Hkeep.
        { intros d0 Hst. rewrite stored_write_ne; [done|]. eapply stored_fresh; eauto. }
        destruct (cache s) as [c|]; [|auto].
        destruct (Cache.index c =? Z.of_nat k); [|auto].
        destruct Hok as [? Hok]. split; [done|]. auto.
      * assert (k = length fs) as ->.
        { apply lookup_lt_Some in Hf. rewrite length_app in Hf. simpl in Hf. lia. }
        rewrite list_lookup_middle in Hf by done.
        rewrite list_lookup_middle in Hd by done. simplify_eq.
        pose proof lay_slot0 as Hslot.
        destruct (cache s) as [c|]; [|apply stored_write_eq].
        destruct (Z.eqb_spec (Cache.index c) (Z.of_nat (length fs))); [lia|].
        apply stored_write_eq.
    + rewrite length_app. simpl. destruct (cache s); [lia|done].
    + unfold undetermined. simpl. intros Hu. destruct (Hsz Hu). lia.
    + rewrite concat_app. simpl. rewrite !app_nil_r.
      rewrite !length_app in *. simpl in *. lia.
  - eexists _, w, fs, ds, (tail ++ [v]). split; [reflexivity|].
    split; [by rewrite app_assoc|]. split; [|done].
    destruct L. constructor; simpl; try done.
    + unfold undetermined. simpl. intros Hu. destruct (Hsz Hu). done.
    + rewrite !length_app in *. simpl in *. lia.
Qed.

(** [append] adds one element at the end, provided the estimator accepts
    the value while sizing is undetermined. *)
Lemma append_Layout s w fs ds tail v :
  Layout s w fs ds tail → healthy w →
  (undetermined s = true → hashable v = true) →
  Z.of_nat (length (concat ds ++ tail)) + 1 < sys_maxsize →
  ∃ s' w' fs' ds' tail',
    append' v (s, w) = (Ok tt, (s', w'))
    ∧ concat ds' ++ tail' = (concat ds ++ tail) ++ [v]
    ∧ Layout s' w' fs' ds' tail' ∧ healthy w'
    ∧ (undetermined s = false → undetermined s' = false).
Proof.
  intros L Hw Hv Hb.
  unfold append. mstep. rewrite (lay_open _ _ _ _ _ L). mstep.
  rewrite (lay_chunks _ _ _ _ _ L), last_snoc. mstep. rewrite removelast_last.
  set (s0 := mkBigArray _ _ _ _ _ _ _).
  assert (Z.of_nat (length (tail ++ [v])) = Z.of_nat (length tail) + 1) as Hlen1
    by (rewrite length_app; simpl; lia).
  pose proof (lay_tail _ _ _ _ _ L) as Ht.
  destruct (undetermined s) eqn:Hu.
  - pose proof (lay_sizing _ _ _ _ _ L Hu) as ->.
    pose proof (lay_count _ _ _ _ _ L) as Hds. destruct ds; [|done]. clear Hds.
    destruct (size_of_hashable v (Hv eq_refl)) as [n Hn].
    pose proof Hu as Hu'. unfold undetermined in Hu'.
    destruct (_size_counter s) as [c|] eqn:Hc; [|by rewrite andb_false_r in Hu'].
    rewrite andb_true_r in Hu'. apply Z.eqb_eq in Hu'.
    rewrite (append_size_chunk_undetermined s0 w v c n (Spilled <$> []) (tail ++ [v]));
      [|by unfold undetermined; simpl; rewrite Hu', Z.eqb_refl|done|exact Hn|done].
    subst s0. mstep.
    destruct (BIGARRAY_CHUNK_SIZE <=? c + n).
    + mstep.
      destruct (append_spill_Layout s w [] [] tail v
                  (Z.max (Z.of_nat (length (tail ++ [v]))) 1) None L Hw)
        as (s' & w' & fs' & ds' & tail' & E & Hvs & L' & Hw' & _);
        [done|lia|by rewrite andb_false_r|done|].
      rewrite E. exists s', w', fs', ds', tail'. done.
    + mstep.
      destruct (append_spill_Layout s w [] [] tail v (chunk_length s) (Some (c + n)) L Hw)
        as (s' & w' & fs' & ds' & tail' & E & Hvs & L' & Hw' & _);
        [done|lia| |done|].
      { intros _. split; [done|]. simpl in Hb. lia. }
      rewrite E. exists s', w', fs', ds', tail'. done.
  - rewrite (append_size_chunk_fixed _ _ s0 w v Hu). mstep. subst s0.
    destruct (append_spill_Layout s w fs ds tail v (chunk_length s) (_size_counter s) L Hw)
      as (s' & w' & fs' & ds' & tail' & E & Hvs & L' & Hw' & Hcl & Hcn);
      [exact (lay_full _ _ _ _ _ L)|lia| |done|].
    { intros Hu'. unfold undetermined in Hu. congruence. }
    rewrite E. exists s', w', fs', ds', tail'. split_and!; try done.
    intros _. unfold undetermined in *. rewrite Hcl, Hcn. done.
Qed.

(** ** The container as a sequence *)

Lemma len_Repr s w vs :
  Repr s w vs → len (s, w) = (Ok (Z.of_nat (length vs)), (s, w)).
Proof. intros (fs & ds & tail & L & ->). exact (len_Layout _ _ _ _ _ L). Qed.

Lemma getitem_Repr s w vs i :
  Repr s w vs → healthy w → 0 ≤ i < Z.of_nat (length vs) →
  ∃ x s' w',
    __getitem__ i (s, w) = (Ok x, (s', w'))
    ∧ vs !! Z.to_nat i = Some x ∧ Repr s' w' vs ∧ healthy w'.
Proof.
  intros (fs & ds & tail & L & ->) Hw Hi.
  destruct (getitem_Layout _ _ _ _ _ i L Hw Hi)
    as (x & s' & w' & fs' & E & Hx & L' & Hw' & _).
  exists x, s', w'. split_and!; try done. by exists fs', ds, tail.
Qed.

Lemma setitem_Repr s w vs i v :
  Repr s w vs → healthy w → 0 ≤ i < Z.of_nat (length vs) →
  ∃ s' w',
    __setitem__ i v (s, w) = (Ok tt, (s', w'))
    ∧ Repr s' w' (<[Z.to_nat i := v]> vs) ∧ healthy w'.
Proof.
  intros (fs & ds & tail & L & ->) Hw Hi.
  destruct (setitem_Layout _ _ _ _ _ i v L Hw Hi)
    as (s' & w' & fs' & ds' & tail' & E & Hvs & L' & Hw' & _).
  exists s', w'. split_and!; try done. by exists fs', ds', tail'.
Qed.

Lemma append_Repr s w vs v :
  Repr s w vs → healthy w →
  (undetermined s = true → hashable v = true) →
  Z.of_nat (length vs) + 1 < sys_maxsize →
  ∃ s' w',
    append' v (s, w) = (Ok tt, (s', w'))
    ∧ Repr s' w' (vs ++ [v]) ∧ healthy w'
    ∧ (undetermined s = false → undetermined s' = false).
Proof.
  intros (fs & ds & tail & L & ->) Hw Hv Hb.
  destruct (append_Layout _ _ _ _ _ v L Hw Hv Hb)
    as (s' & w' & fs' & ds' & tail' & E & Hvs & L' & Hw' & Hu).
  exists s', w'. split_and!; try done. by exists fs', ds', tail'.
Qed.

Lemma init_Repr s0 w chunk_size compress_level :
  valid_level compress_level = true →
  chunk_size = BIGARRAY_CHUNK_SIZE ∨ 1 ≤ chunk_size →
  ∃ s,
    init' None chunk_size compress_level (s0, w) = (Ok tt, (s, w))
    ∧ Repr s w []
    ∧ (chunk_size ≠ BIGARRAY_CHUNK_SIZE → undetermined s = false).
Proof.
  intros Hl Hc. unfold __init__. mstep.
  destruct (Z.eqb_spec chunk_size BIGARRAY_CHUNK_SIZE) as [E|E]; mstep.
  - eexists. split; [reflexivity|]. split; [|done].
    exists [], [], []. split; [|done].
    constructor; simpl; try done.
  - eexists. split; [reflexivity|].
    split; [|intros _; unfold undetermined; simpl; apply andb_false_r].
    exists [], [], []. split; [|done].
    constructor; simpl; try done. lia.
Qed.

(** The loop of [extend]. *)
Lemma for_each_append_Repr vs : ∀ s w vs0,
  Repr s w vs0 → healthy w →
  (undetermined s = true → Forall (λ v, hashable v = true) vs) →
  Z.of_nat (length vs0) + Z.of_nat (length vs) < sys_maxsize →
  ∃ s' w',
    for_each vs append' (s, w) = (Ok tt, (s', w'))
    ∧ Repr s' w' (vs0 ++ vs) ∧ healthy w'
    ∧ (undetermined s = false → undetermined s' = false).
Proof.
  induction vs as [|v vs IH]; intros s w vs0 R Hw Hv Hb.
  - exists s, w. rewrite app_nil_r. done.
  - simpl in Hb.
    destruct (append_Repr s w vs0 v R Hw) as (s1 & w1 & E1 & R1 & Hw1 & Hu1); [|lia|].
    { intros Hu. specialize (Hv Hu). by inversion Hv. }
    destruct (IH s1 w1 (vs0 ++ [v]) R1 Hw1) as (s2 & w2 & E2 & R2 & Hw2 & Hu2).
    { intros Hu. destruct (undetermined s) eqn:Hus; [|by rewrite Hu1 in Hu].
      specialize (Hv eq_refl). by inversion Hv. }
    { rewrite length_app. simpl. lia. }
    rewrite <- app_assoc in R2.
    exists s2, w2. cbn [for_each]. mstep. rewrite E1, E2.
    split_and!; try done. auto.
Qed.

Lemma get_each_Repr n : ∀ s w vs i,
  Repr s w vs → healthy w →
  0 ≤ i → i + Z.of_nat n ≤ Z.of_nat (length vs) →
  ∃ s' w',
    get_each n i (s, w) = (Ok (take n (drop (Z.to_nat i) vs)), (s', w'))
    ∧ Repr s' w' vs ∧ healthy w'.
Proof.
  induction n as [|n IH]; intros s w vs i R Hw Hi Hn.
  - exists s, w. done.
  - destruct (getitem_Repr s w vs i R Hw) as (x & s1 & w1 & E1 & Hx & R1 & Hw1); [lia|].
    destruct (IH s1 w1 vs (i + 1) R1 Hw1) as (s2 & w2 & E2 & R2 & Hw2); [lia|lia|].
    exists s2, w2. cbn [get_each]. mstep. rewrite E1, E2.
    split_and!; try done. do 2 f_equal.
    rewrite (drop_S _ _ _ Hx). simpl. do 3 f_equal. lia.
Qed.

(** Append-then-read round trip, for every sequence the size estimator
    accepts: with an explicit chunk length of at least 1 any elements, with
    adaptive sizing hashable ones. *)
Theorem append_then_get_roundtrip chunk_size compress_level vs s0 w :
  healthy w → valid_level compress_level = true →
  Z.of_nat (length vs) < sys_maxsize →
  (chunk_size ≠ BIGARRAY_CHUNK_SIZE ∧ 1 ≤ chunk_size)
  ∨ (chunk_size = BIGARRAY_CHUNK_SIZE ∧ Forall (λ v, hashable v = true) vs) →
  ∃ s1 w1 s2 w2,
    (init' None chunk_size compress_level ;; for_each vs append') (s0, w)
    = (Ok tt, (s1, w1))
    ∧ len (s1, w1) = (Ok (Z.of_nat (length vs)), (s1, w1))
    ∧ get_each (length vs) 0 (s1, w1) = (Ok vs, (s2, w2)).
Proof.
  intros Hw Hl Hb Hmode.
  destruct (init_Repr s0 w chunk_size compress_level Hl) as (s & E0 & R0 & Hu0).
  { destruct Hmode as [[_ ?]|[? _]]; auto. }
  destruct (for_each_append_Repr vs s w [] R0 Hw) as (s1 & w1 & E1 & R1 & Hw1 & _).
  { intros Hu. destruct Hmode as [[Hne _]|[_ ?]]; [|done].
    rewrite (Hu0 Hne) in Hu. done. }
  { simpl. lia. }
  simpl in R1.
  destruct (get_each_Repr (length vs) s1 w1 vs 0 R1 Hw1) as (s2 & w2 & E2 & _);
    [lia|lia|].
  exists s1, w1, s2, w2. mstep. rewrite E0, E1. split; [done|].
  split; [exact (len_Repr _ _ _ R1)|].
  rewrite E2. simpl. rewrite firstn_all. done.
Qed.

Lemma Layout_spilled_index s w fs ds tail i f :
  Layout s w fs ds tail →
  0 ≤ i < Z.of_nat (length (concat ds ++ tail)) →
  py_getitem (chunks s) (i / chunk_length s) = Some (Spilled f) →
  i < Z.of_nat (length ds) * chunk_length s.
Proof.
  intros L Hi Hf.
  destruct (Z.lt_ge_cases i (Z.of_nat (length ds) * chunk_length s)) as [|Hge]; [done|].
  exfalso.
  pose proof (concat_uniform_length _ _ (lay_full _ _ _ _ _ L)) as Hlen.
  rewrite length_app in Hi.
  destruct (chunk_addr_tail _ ds tail i PyNone (lay_full _ _ _ _ _ L)
              (lay_tail _ _ _ _ _ L)) as (Hq & _); [lia|].
  rewrite Hq, py_getitem_nonneg, Nat2Z.id in Hf by lia.
  rewrite (lay_chunks _ _ _ _ _ L) in Hf.
  rewrite lookup_app_r in Hf by (rewrite length_fmap, (lay_count _ _ _ _ _ L); done).
  rewrite length_fmap, (lay_count _ _ _ _ _ L), Nat.sub_diag in Hf. done.
Qed.

(** C2 (flush before evict).  In a well-formed container, take an index [i]
    and an index [j] that fall in two different spilled chunks.  After
    [set(i, v)] the cache slot holds [i]'s chunk, dirty; [get(j)] then
    succeeds, moves the slot to [j]'s chunk and leaves [i]'s chunk under a
    token whose file contains [v]; a following [get(i)] returns [v]. *)
Theorem flush_before_evict s w vs i j v fi fj :
  Repr s w vs → healthy w →
  0 ≤ i < Z.of_nat (length vs) → 0 ≤ j < Z.of_nat (length vs) →
  py_getitem (chunks s) (i / chunk_length s) = Some (Spilled fi) →
  py_getitem (chunks s) (j / chunk_length s) = Some (Spilled fj) →
  i / chunk_length s ≠ j / chunk_length s →
  ∃ s1 w1 x s2 w2 s3 w3,
    __setitem__ i v (s, w) = (Ok tt, (s1, w1))
    ∧ (∃ d, cache s1 = Some (Cache.new (i / chunk_length s) d true))
    ∧ __getitem__ j (s1, w1) = (Ok x, (s2, w2))
    ∧ vs !! Z.to_nat j = Some x
    ∧ (∃ d, cache s2 = Some (Cache.new (j / chunk_length s) d false))
    ∧ (∃ f d, py_getitem (chunks s2) (i / chunk_length s) = Some (Spilled f)
              ∧ stored w2 f = Some d
              ∧ d !! Z.to_nat (i mod chunk_length s) = Some v)
    ∧ __getitem__ i (s2, w2) = (Ok v, (s3, w3)).
Proof.
  intros (fs & ds & tail & L & ->) Hw Hi Hj Hfi Hfj Hne.
  pose proof (Layout_spilled_index _ _ _ _ _ i fi L Hi Hfi) as Hsi.
  pose proof (Layout_spilled_index _ _ _ _ _ j fj L Hj Hfj) as Hsj.
  destruct (setitem_Layout _ _ _ _ _ i v L Hw Hi)
    as (s1 & w1 & fs1 & ds1 & tail1 & E1 & Hvs1 & L1 & Hw1 & Hcl1 & Hsp1).
  destruct (Hsp1 Hsi) as (di & Hdi & Hds1 & Hc1). clear Hsp1.
  assert (length (concat ds1 ++ tail1) = length (concat ds ++ tail)) as Hlen1
    by (rewrite Hvs1, length_insert; done).
  assert (length ds1 = length ds) as Hcount1 by (rewrite Hds1, length_insert; done).
  destruct (getitem_Layout _ _ _ _ _ j L1 Hw1)
    as (x & s2 & w2 & fs2 & E2 & Hx & L2 & Hw2 & Hcl2 & Hsp2); [lia|].
  rewrite Hcl1 in Hsp2.
  destruct Hsp2 as (dj & dirty2 & Hdj & Hc2 & Hdirty2); [lia|].
  set (cl := chunk_length s) in *.
  assert (0 ≤ i / cl ∧ 0 ≤ j / cl ∧ 0 < cl) as (Hqi & Hqj & Hcl).
  { pose proof (lay_tail _ _ _ _ _ L) as Ht. fold cl in Ht.
    split_and!; try apply Z.div_pos; lia. }
  assert (i ≠ j) as Hij by (intros ->; done).
  assert (dirty2 = false) as ->.
  { rewrite Hdirty2. unfold slot_at. rewrite Hc1. simpl.
    destruct (Z.eqb_spec (i / cl) (Z.of_nat (Z.to_nat (j / cl)))); [lia|done]. }
  destruct (getitem_Layout _ _ _ _ _ i L2 Hw2)
    as (x' & s3 & w3 & fs3 & E3 & Hx' & _); [lia|].
  rewrite Hvs1 in Hx, Hx'.
  rewrite list_lookup_insert_ne in Hx by lia.
  rewrite list_lookup_insert_eq in Hx' by lia.
  assert (x' = v) as -> by congruence.
  exists s1, w1, x, s2, w2, s3, w3.
  split; [done|]. split; [eauto|]. split; [done|]. split; [done|].
  split; [eauto|]. split; [|done].
  set (ki := Z.to_nat (i / cl)) in *.
  pose proof (lay_count _ _ _ _ _ L2) as Hcount2.
  assert (ki < length ds)%nat as Hki by (eapply lookup_lt_Some; eauto).
  destruct (lookup_lt_is_Some_2 fs2 ki) as [f Hf]; [lia|].
  assert (ds1 !! ki = Some (<[Z.to_nat (i mod cl) := v]> di)) as Hd'
    by (rewrite Hds1; apply list_lookup_insert_eq; done).
  pose proof (lay_files _ _ _ _ _ L2 ki f _ Hf Hd') as Hok.
  unfold chunk_ok, slot_at in Hok. rewrite Hc2 in Hok. simpl in Hok.
  destruct (Z.eqb_spec (j / cl) (Z.of_nat ki)); [lia|].
  exists f, (<[Z.to_nat (i mod cl) := v]> di). split_and!; [|done|].
  - replace (i / cl) with (Z.of_nat ki) by lia.
    exact (Layout_token _ _ _ _ _ _ _ L2 Hf).
  - apply list_lookup_insert_eq.
    pose proof (Forall_lookup_1 _ _ _ _ (lay_full _ _ _ _ _ L) Hdi) as Hlen.
    simpl in Hlen. fold cl in Hlen.
    pose proof (Z.mod_pos_bound i cl Hcl). lia.
Qed.

(** ** Closing, clearing, popping *)

Lemma remove_all_ok l : ∀ s w,
  ∃ w',
    for_each l close_remove (s, w) = (Ok tt, (s, w'))
    ∧ mkstemp_fault w' = mkstemp_fault w ∧ write_fault w' = write_fault w.
Proof.
  induction l as [|f l IH]; intros s w; [by exists w|].
  cbn [for_each]. unfold close_remove at 1, try_except, os_remove. mstep.
  destruct (files w !! f); mstep; cbn [is_OSError]; mstep.
  - destruct (IH s (mkWorld (delete f (files w)) (mkstemp_fault w) (write_fault w)))
      as (w' & E & H1 & H2).
    exists w'. rewrite E. done.
  - destruct (IH s w) as (w' & E & H1 & H2). exists w'. rewrite E. done.
Qed.

(** [close] always succeeds and leaves the container closed. *)
Lemma close_ok s w :
  ∃ s' w',
    close (s, w) = (Ok tt, (s', w')) ∧ _closed s' = true
    ∧ mkstemp_fault w' = mkstemp_fault w ∧ write_fault w' = write_fault w.
Proof.
  unfold close. mstep. destruct (_closed s) eqn:Hc; mstep.
  - exists s, w. done.
  - match goal with |- context [for_each ?l ?b (?s1, w)] =>
      destruct (remove_all_ok l s1 w) as (w' & E & H1 & H2) end.
    rewrite E. mstep. eexists _, w'. split; [reflexivity|]. done.
Qed.

Lemma closed_append st v :
  _closed (fst st) = true → append' v st = (Raise closed_error, st).
Proof. destruct st as [s w]. simpl. intros H. unfold append. mstep. by rewrite H. Qed.

Lemma closed_extend st vs :
  _closed (fst st) = true → extend' vs st = (Raise closed_error, st).
Proof. destruct st as [s w]. simpl. intros H. unfold extend. mstep. by rewrite H. Qed.

Lemma closed_pop st :
  _closed (fst st) = true → pop st = (Raise closed_error, st).
Proof. destruct st as [s w]. simpl. intros H. unfold pop. mstep. by rewrite H. Qed.

Lemma closed_getitem st key :
  _closed (fst st) = true → __getitem__ key st = (Raise closed_error, st).
Proof. destruct st as [s w]. simpl. intros H. unfold __getitem__. mstep. by rewrite H. Qed.

Lemma closed_setitem st key v :
  _closed (fst st) = true → __setitem__ key v st = (Raise closed_error, st).
Proof. destruct st as [s w]. simpl. intros H. unfold __setitem__. mstep. by rewrite H. Qed.

Lemma closed_reverse st :
  _closed (fst st) = true →
  reverse BIGARRAY_CHUNK_SIZE BIGARRAY_COMPRESS_LEVEL getsizeof st
  = (Raise closed_error, st).
Proof. destruct st as [s w]. simpl. intros H. unfold reverse. mstep. by rewrite H. Qed.

Lemma closed_len st :
  _closed (fst st) = true → len st = (Ok 0, st).
Proof.
  destruct st as [s w]. simpl. intros H. unfold len, __len__. mstep. by rewrite H.
Qed.

Lemma closed_iter st :
  _closed (fst st) = true → __iter__ st = (Ok [], st).
Proof. intros H. unfold __iter__. mstep. rewrite (closed_len st H). done. Qed.

Lemma closed_count st v :
  _closed (fst st) = true → count v st = (Ok 0, st).
Proof. intros H. unfold count. mstep. rewrite (closed_iter st H). done. Qed.

Lemma closed_index st v start stop :
  _closed (fst st) = true →
  ∃ e, index py_str v start stop st = (Raise e, st) ∧ is_UsageError e = true.
Proof.
  intros H. unfold index. mstep. rewrite (closed_len st H).
  destruct (Z.to_nat _) as [|n]; cbn [index_loop].
  - eexists. split; [reflexivity|done].
  - mstep. rewrite (closed_getitem st _ H). eexists. split; [reflexivity|done].
Qed.

Lemma clear_closed st :
  _closed (fst st) = true →
  clear' st
  = (Ok tt,
     (mkBigArray [Resident []] sys_maxsize None ∅ (Some 0) false BIGARRAY_COMPRESS_LEVEL,
      snd st)).
Proof.
  destruct st as [s w]. simpl. intros H. unfold clear, close, __init__. mstep.
  rewrite H. mstep. rewrite Z.eqb_refl. done.
Qed.

(** C3, as amended.  After [close()]: [append], [extend], [pop], [get],
    [set] and [reverse] fail with the closed-container [ValueError], and
    [index] fails with a UsageError too; but [length] and [count] return 0,
    iteration yields nothing, and [clear] succeeds and reopens the
    container. *)
Theorem operations_after_close s w v vs key start stop :
  ∃ st,
    close (s, w) = (Ok tt, st)
    ∧ is_UsageError closed_error = true
    ∧ append' v st = (Raise closed_error, st)
    ∧ extend' vs st = (Raise closed_error, st)
    ∧ pop st = (Raise closed_error, st)
    ∧ __getitem__ key st = (Raise closed_error, st)
    ∧ __setitem__ key v st = (Raise closed_error, st)
    ∧ reverse BIGARRAY_CHUNK_SIZE BIGARRAY_COMPRESS_LEVEL getsizeof st
      = (Raise closed_error, st)
    ∧ (∃ e, index py_str v start stop st = (Raise e, st) ∧ is_UsageError e = true)
    ∧ len st = (Ok 0, st)
    ∧ count v st = (Ok 0, st)
    ∧ __iter__ st = (Ok [], st)
    ∧ ∃ st', clear' st = (Ok tt, st') ∧ _closed (fst st') = false.
Proof.
  destruct (close_ok s w) as (s' & w' & E & Hc & _).
  exists (s', w'). split; [done|]. split; [done|].
  split; [by apply closed_append|]. split; [by apply closed_extend|].
  split; [by apply closed_pop|]. split; [by apply closed_getitem|].
  split; [by apply closed_setitem|]. split; [by apply closed_reverse|].
  split; [by apply closed_index|]. split; [by apply closed_len|].
  split; [by apply closed_count|]. split; [by apply closed_iter|].
  eexists. split; [by apply clear_closed|done].
Qed.

(** C5.  A container of one chunk with one element: [pop()] returns the
    element and leaves one empty chunk, of length 0; the next [pop()] fails
    with the out-of-range error "pop from empty BigArray". *)
Theorem pop_single_element s w x :
  _closed s = false → chunks s = [Resident [x]] →
  ∃ s',
    pop (s, w) = (Ok x, (s', w))
    ∧ chunks s' = [Resident []]
    ∧ len (s', w) = (Ok 0, (s', w))
    ∧ pop (s', w) = (Raise (IndexError "pop from empty BigArray"), (s', w))
    ∧ is_UsageError (IndexError "pop from empty BigArray") = true.
Proof.
  intros Hc Hs.
  exists (mkBigArray [Resident []] (chunk_length s) (cache s) (filenames s)
            (_size_counter s) false (_compress_level s)).
  split.
  { unfold pop, len_last. mstep. rewrite Hc. mstep.
    rewrite Hs. simpl. mstep. rewrite Hs. simpl. mstep. rewrite Hc. reflexivity. }
  split; [done|]. split; [done|]. split; done.
Qed.

(** C10.  [clear()] on a closed container succeeds and leaves exactly the
    container that [__init__()] builds, with the closed flag reset; on it
    [append] and [get] work again. *)
Theorem clear_reopens s w v :
  healthy w → valid_level BIGARRAY_COMPRESS_LEVEL = true → hashable v = true →
  ∃ s1 w1 s2 s3 w2 s4 w3,
    close (s, w) = (Ok tt, (s1, w1)) ∧ _closed s1 = true
    ∧ clear' (s1, w1) = (Ok tt, (s2, w1))
    ∧ s2 = mkBigArray [Resident []] sys_maxsize None ∅ (Some 0) false
             BIGARRAY_COMPRESS_LEVEL
    ∧ _closed s2 = false
    ∧ append' v (s2, w1) = (Ok tt, (s3, w2))
    ∧ __getitem__ 0 (s3, w2) = (Ok v, (s4, w3)).
Proof.
  intros Hw Hl Hv.
  destruct (close_ok s w) as (s1 & w1 & E1 & Hc1 & Hm & Hwr).
  assert (healthy w1) as Hw1 by (destruct Hw; split; congruence).
  pose proof (clear_closed (s1, w1) Hc1) as E2. simpl in E2.
  set (s2 := mkBigArray _ _ _ _ _ _ _) in E2.
  assert (Repr s2 w1 []) as R2.
  { exists [], [], []. split; [|done]. constructor; simpl; try done. }
  destruct (append_Repr s2 w1 [] v R2 Hw1) as (s3 & w2 & E3 & R3 & Hw2 & _);
    [done|done|].
  destruct (getitem_Repr s3 w2 _ 0 R3 Hw2) as (x & s4 & w3 & E4 & Hx & _);
    [simpl; lia|].
  simpl in Hx. injection Hx as <-.
  exists s1, w1, s2, s3, w2, s4, w3. split_and!; done.
Qed.

(** ** Chunk sizing *)

Lemma perform_keeps_fixed o st :
  undetermined (fst st) = false →
  chunk_length (fst (perform' o st)) = chunk_length (fst st)
  ∧ _size_counter (fst (perform' o st)) = _size_counter (fst st).
Proof.
  intros H. destruct o; cbn [perform].
  - by apply append_keeps_fixed.
  - destruct st as [s w]. unfold extend. mstep.
    destruct (_closed s); [done|]. by apply for_each_append_keeps_fixed.
  - apply keeps_pop.
  - apply keeps_getitem.
  - apply keeps_setitem.
  - apply keeps_len.
  - apply keeps_count.
  - apply keeps_index.
  - apply keeps_iter.
  - apply keeps_close.
Qed.

Lemma trace_keeps_fixed ops : ∀ st,
  undetermined (fst st) = false →
  chunk_length (fst (foldl (λ st o, perform' o st) st ops)) = chunk_length (fst st)
  ∧ _size_counter (fst (foldl (λ st o, perform' o st) st ops)) = _size_counter (fst st).
Proof.
  induction ops as [|o ops IH]; intros st H; [done|]. simpl.
  destruct (perform_keeps_fixed o st H) as [H1 H2].
  destruct (IH (perform' o st)) as [H3 H4].
  { unfold undetermined in *. rewrite H1, H2. done. }
  split; congruence.
Qed.


(** ** Export and import *)

Lemma read_file_pure (w : World) (f : string) :
  ∃ r, (∀ s, read_file f (s, w) = (r, (s, w)))
       ∧ (∀ d, stored w f = Some d → r = Ok d).
Proof.
  unfold read_file, stored. destruct (files w !! f) as [[|lvl d]|] eqn:E.
  - eexists. split; [intros s; mstep; rewrite E; reflexivity|done].
  - eexists. split; [intros s; mstep; rewrite E; reflexivity|]. by intros ? [= ->].
  - eexists. split; [intros s; mstep; rewrite E; reflexivity|done].
Qed.

(** With no unflushed write in the slot, [_checkcache] serves what the file
    of the chunk holds, or fails as reading that file fails. *)
Lemma checkcache_flushed s w index f r :
  py_getitem (chunks s) index = Some (Spilled f) → slot_flushed s w →
  (∀ s0, read_file f (s0, w) = (r, (s0, w))) →
  (∀ d, stored w f = Some d → r = Ok d) →
  match r with
  | Ok data =>
      ∃ s1 c, _checkcache index (s, w) = (Ok tt, (s1, w))
              ∧ cache s1 = Some c ∧ Cache.data c = data
  | Raise e =>
      _checkcache index (s, w)
      = (Raise (SqlmapSystemException (retrieve_message e)), (s, w))
  end.
Proof.
  intros Hf Hfl Hr Hst.
  assert (match r with
          | Ok data =>
              ∃ s1 c, _checkcache_load index (s, w) = (Ok tt, (s1, w))
                      ∧ cache s1 = Some c ∧ Cache.data c = data
          | Raise e =>
              _checkcache_load index (s, w)
              = (Raise (SqlmapSystemException (retrieve_message e)), (s, w))
          end) as Hload.
  { unfold _checkcache_load. mstep. unfold slot_flushed in Hfl.
    destruct (cache s) as [c|] eqn:Hc.
    - destruct Hfl as [Hd Hco].
      destruct (Z.eqb_spec (Cache.index c) index) as [E|E].
      + rewrite E in Hco. rewrite (Hst _ (Hco f Hf)). exists s, c. done.
      + unfold try_except. mstep. rewrite Hf. mstep. rewrite Hr.
        destruct r as [data|e]; mstep; [|done]. eexists _, _. done.
    - unfold try_except. mstep. rewrite Hf. mstep. rewrite Hr.
      destruct r as [data|e]; mstep; [|done]. eexists _, _. done. }
  assert (_checkcache_write_dirty index (s, w) = (Ok tt, (s, w))) as Hwd.
  { unfold _checkcache_write_dirty. mstep. unfold slot_flushed in Hfl.
    destruct (cache s) as [c|]; [|done]. destruct Hfl as [-> _].
    by rewrite andb_false_r. }
  unfold _checkcache. mstep. rewrite Hwd.
  destruct r as [data|e].
  - destruct Hload as (s1 & c & -> & ?). eauto.
  - rewrite Hload. done.
Qed.

Lemma len_frame s s' w w' :
  chunks s = chunks s' → chunk_length s = chunk_length s' → _closed s = _closed s' →
  ∃ r, len (s, w) = (r, (s, w)) ∧ len (s', w') = (r, (s', w')).
Proof.
  destruct s as [cs cl ca fn sc cd lv], s' as [cs' cl' ca' fn' sc' cd' lv'].
  simpl. intros <- <- <-. unfold len, __len__, len_last. mstep.
  destruct cd; [by eexists|].
  destruct (length cs =? 1)%nat; mstep;
    (destruct (last cs) as [[l|f]|]; mstep;
     repeat match goal with |- context [if ?b then _ else _] => destruct b end;
     by eexists).
Qed.

(** Two containers with the same store and no unflushed write answer
    [get] alike. *)
Lemma getitem_frame s s' w key :
  chunks s = chunks s' → chunk_length s = chunk_length s' → _closed s = _closed s' →
  slot_flushed s w → slot_flushed s' w →
  fst (__getitem__ key (s, w)) = fst (__getitem__ key (s', w)).
Proof.
  intros H1 H2 H3 Hfl Hfl'.
  destruct (len_frame s s' w w H1 H2 H3) as (r & E & E').
  unfold __getitem__. mstep. rewrite H3. destruct (_closed s'); [done|]. mstep.
  rewrite E, E'. destruct r as [length|e]; [|done]. mstep.
  destruct (length =? 0); [done|].
  destruct ((_ <? 0) || _); [done|]. mstep.
  rewrite H2. destruct (chunk_length s' =? 0); [done|]. mstep.
  rewrite H1.
  set (key' := if key <? 0 then key + length else key).
  destruct (py_getitem (chunks s') (key' / chunk_length s')) as [[l|f]|] eqn:Hf;
    mstep; [by destruct (py_getitem l _)| |done].
  destruct (read_file_pure w f) as (r & Hr & Hst).
  assert (py_getitem (chunks s) (key' / chunk_length s') = Some (Spilled f)) as Hf0
    by (rewrite H1; done).
  pose proof (checkcache_flushed s w _ f r Hf0 Hfl Hr Hst) as Hc.
  pose proof (checkcache_flushed s' w _ f r Hf Hfl' Hr Hst) as Hc'.
  destruct r as [data|e].
  - destruct Hc as (s1 & c & -> & Hc1 & Hd1).
    destruct Hc' as (s1' & c' & -> & Hc1' & Hd1').
    mstep. rewrite Hc1, Hc1', Hd1, Hd1'. by destruct (py_getitem data _).
  - rewrite Hc, Hc'. done.
Qed.

(** C7, as amended.  For an open container whose cache slot holds no
    unflushed write (it is empty, or clean and equal to the persisted
    chunk), exporting the state and importing it into a new object gives a
    container with the same length on which [get] has, for every index,
    the outcome it has on the original: the same element, or the same
    error when a referenced file cannot be read. *)
Theorem export_import_roundtrip s w s_new :
  _closed s = false → slot_flushed s w →
  ∃ st s',
    __getstate__ (s, w) = (Ok st, (s, w))
    ∧ setstate' st (s_new, w) = (Ok tt, (s', w))
    ∧ fst (len (s', w)) = fst (len (s, w))
    ∧ ∀ key, fst (__getitem__ key (s', w)) = fst (__getitem__ key (s, w)).
Proof.
  intros Hc Hfl. eexists _, _. split; [reflexivity|].
  split.
  { unfold __setstate__, __init__. mstep. rewrite Z.eqb_refl. mstep. reflexivity. }
  split.
  - match goal with |- fst (len (?s', _)) = _ =>
      destruct (len_frame s' s w w) as (r & -> & ->); simpl; done end.
  - intros key. apply getitem_frame; simpl; done.
Qed.


(** C1.  With the default (adaptive) sizing, appending a list as an element
    raises [TypeError] in the size estimator: the append-then-read scenario
    of one element does not get to read anything back. *)
Theorem append_then_get_unhashable s0 w :
  fst ((init' None BIGARRAY_CHUNK_SIZE BIGARRAY_COMPRESS_LEVEL ;;
        for_each [PyList [PyInt 1; PyInt 2]] append' ;;
        get_each 1 0) (s0, w))
  = Raise (TypeError "unhashable type: 'list'").
Proof.
  unfold __init__. mstep. rewrite Z.eqb_refl. mstep. cbn [for_each]. mstep.
  unfold append. mstep. cbn [last]. mstep. cbn [removelast app].
  rewrite append_size_chunk_unhashable by done. reflexivity.
Qed.

End Verification.

(** ** Worked examples *)

(** A container constructed with an explicit chunk length holds its
    items. *)
Lemma construct_Repr items chunk_size compress_level :
  valid_level compress_level = true → 1 ≤ chunk_size →
  chunk_size ≠ example_threshold →
  Z.of_nat (length items) < sys_maxsize →
  Repr (fst (construct items chunk_size compress_level))
    (snd (construct items chunk_size compress_level)) items
  ∧ healthy (snd (construct items chunk_size compress_level)).
Proof.
  intros Hl Hc Hne Hb. unfold construct.
  destruct (init_Repr example_threshold example_getsizeof unborn example_world
              chunk_size compress_level Hl) as (s & E0 & R0 & Hu0); [by right|].
  destruct (for_each_append_Repr example_threshold example_getsizeof items s
              example_world [] R0) as (s1 & w1 & E1 & R1 & Hw1 & _);
    [done|by rewrite (Hu0 Hne)|simpl; lia|].
  revert E0. unfold __init__. mstep.
  destruct (Z.eqb_spec chunk_size example_threshold); [done|]. mstep.
  intros [= <-]. unfold extend. mstep. rewrite E1. done.
Qed.

(** C3, counterexample: on the closed container [length] returns 0 rather
    than failing, and so does [count]. *)
Lemma length_after_close_counterexample :
  _closed (fst closed_triple) = true
  ∧ fst (len closed_triple) = Ok 0
  ∧ fst (count (PyInt 1) closed_triple) = Ok 0
  ∧ ¬ ∃ e, fst (len closed_triple) = Raise e ∧ is_UsageError e = true.
Proof.
  split; [vm_compute; reflexivity|]. split; [vm_compute; reflexivity|].
  split; [vm_compute; reflexivity|]. intros (e & H & _). vm_compute in H. done.
Qed.

(** C4: [pop] promotes a spilled chunk by reading its file, not through
    the cache.  With chunk length 2 and elements 0, 1: [set(1, 99)] goes to
    the cache slot and [get(1)] returns 99, yet [pop()], which reloads the
    chunk from its file, returns the persisted 1.  The slot is left behind,
    still dirty: after [append(5)] refills and spills the chunk, [get(1)]
    answers 99 from the slot although index 1 holds 5. *)
Lemma pop_ignores_cached_write :
  fst (__getitem__ 1 written_pair) = Ok (PyInt 99)
  ∧ cache (fst written_pair) = Some (Cache.new 0 [PyInt 0; PyInt 99] true)
  ∧ fst (pop written_pair) = Ok (PyInt 1)
  ∧ chunks (fst (snd (pop written_pair))) = [Resident [PyInt 0]]
  ∧ fst (__getitem__ 1
           (snd (append example_threshold example_getsizeof (PyInt 5)
                   (snd (pop written_pair))))) = Ok (PyInt 99).
Proof. repeat split; vm_compute; reflexivity. Qed.


(** C7, counterexample: with chunk length 2 and elements 0, 1, 2, after
    [set(0, 99)] the write sits in the dirty cache slot; the exported state
    does not carry it, so the reimported container returns 0 at index 0
    where the original returns 99.  A closed container has length 0 while
    its reimported copy has length 1. *)
Lemma export_drops_dirty_slot_counterexample :
  fst (__getitem__ 0 written_triple) = Ok (PyInt 99)
  ∧ fst (__getitem__ 0 (reimport written_triple)) = Ok (PyInt 0)
  ∧ fst (__getitem__ 0 (reimport written_triple)) ≠ fst (__getitem__ 0 written_triple)
  ∧ fst (len closed_single) = Ok 0
  ∧ fst (len (reimport closed_single)) = Ok 1.
Proof. repeat split; try (vm_compute; reflexivity). vm_compute. done. Qed.

(** C8: a failure of the compression step leaves [_dump] as [zlib.error],
    not as a StorageIOError.  Chunk length 1 and compression level 10: the
    first [append] spills and raises "Bad compression level". *)
Lemma dump_lets_zlib_error_escape :
  fst (append example_threshold example_getsizeof (PyInt 0) level_ten)
  = Raise (zlib_error "Bad compression level")
  ∧ is_StorageIOError (zlib_error "Bad compression level") = false
  ∧ fst (_dump [PyInt 0] level_ten) = Raise (zlib_error "Bad compression level").
Proof. repeat split; vm_compute; reflexivity. Qed.


(** *** Instances of the theorems *)

Lemma flush_before_evict_witness :
  ∃ s1 w1 x s2 w2 s3 w3,
    __setitem__ 0 (PyInt 99) (construct (ints 5) 2 9) = (Ok tt, (s1, w1))
    ∧ __getitem__ 2 (s1, w1) = (Ok x, (s2, w2))
    ∧ __getitem__ 0 (s2, w2) = (Ok (PyInt 99), (s3, w3)).
Proof.
  destruct (construct_Repr (ints 5) 2 9) as [R Hw];
    [reflexivity|lia|unfold example_threshold; lia|reflexivity|].
  destruct (flush_before_evict (fst (construct (ints 5) 2 9))
              (snd (construct (ints 5) 2 9)) (ints 5) 0 2 (PyInt 99) "0" "1" R Hw)
    as (s1 & w1 & x & s2 & w2 & s3 & w3 & E1 & _ & E2 & _ & _ & _ & E3);
    [simpl; lia|simpl; lia|vm_compute; reflexivity|vm_compute; reflexivity
    |vm_compute; discriminate|].
  exists s1, w1, x, s2, w2, s3, w3. split; [exact E1|]. split; [exact E2|exact E3].
Defined.

Lemma pop_single_element_witness :
  ∃ s',
    pop (mkBigArray [Resident [PyInt 7]] 2 None ∅ None false 9, example_world)
    = (Ok (PyInt 7), (s', example_world))
    ∧ chunks s' = [Resident []]
    ∧ len (s', example_world) = (Ok 0, (s', example_world))
    ∧ pop (s', example_world)
      = (Raise (IndexError "pop from empty BigArray"), (s', example_world))
    ∧ is_UsageError (IndexError "pop from empty BigArray") = true.
Proof.
  apply (pop_single_element
           (mkBigArray [Resident [PyInt 7]] 2 None ∅ None false 9) example_world
           (PyInt 7)); reflexivity.
Defined.

Lemma clear_reopens_witness :
  ∃ s1 w1 s2 s3 w2 s4 w3,
    close (construct (ints 3) 2 9) = (Ok tt, (s1, w1)) ∧ _closed s1 = true
    ∧ clear example_threshold 9 example_getsizeof (s1, w1) = (Ok tt, (s2, w1))
    ∧ s2 = mkBigArray [Resident []] sys_maxsize None ∅ (Some 0) false 9
    ∧ _closed s2 = false
    ∧ append example_threshold example_getsizeof (PyInt 1) (s2, w1) = (Ok tt, (s3, w2))
    ∧ __getitem__ 0 (s3, w2) = (Ok (PyInt 1), (s4, w3)).
Proof.
  destruct (construct_Repr (ints 3) 2 9) as [_ Hw];
    [reflexivity|lia|unfold example_threshold; lia|reflexivity|].
  apply (clear_reopens example_threshold 9 example_getsizeof
           (fst (construct (ints 3) 2 9)) (snd (construct (ints 3) 2 9)) (PyInt 1));
    [exact Hw|reflexivity|reflexivity].
Defined.


Lemma export_import_roundtrip_witness :
  ∃ st s',
    __getstate__ read_five = (Ok st, read_five)
    ∧ __setstate__ example_threshold 9 example_getsizeof st (unborn, snd read_five)
      = (Ok tt, (s', snd read_five))
    ∧ fst (len (s', snd read_five)) = fst (len read_five)
    ∧ ∀ key, fst (__getitem__ key (s', snd read_five))
             = fst (__getitem__ key read_five).
Proof.
  apply (export_import_roundtrip example_threshold 9 example_getsizeof
           (fst read_five) (snd read_five) unborn).
  - vm_compute. reflexivity.
  - unfold slot_flushed. vm_compute. split; [reflexivity|].
    intros f H. injection H as <-. reflexivity.
Defined.


(** * Further properties *)

(** * More of the container's behaviour *)

(** ** Indexing as on a list *)

Lemma getitem_normalize s w vs key :
  Repr s w vs → - Z.of_nat (length vs) ≤ key < 0 →
  __getitem__ key (s, w) = __getitem__ (key + Z.of_nat (length vs)) (s, w).
Proof.
  intros R Hk. pose proof R as (fs & ds & tail & L & _).
  unfold __getitem__. mstep. rewrite (lay_open _ _ _ _ _ L). mstep.
  rewrite (len_Repr _ _ _ R). mstep.
  destruct (Z.eqb_spec (Z.of_nat (length vs)) 0); [done|].
  destruct (Z.ltb_spec key 0); [|lia].
  destruct (Z.ltb_spec (key + Z.of_nat (length vs)) 0); [lia|]. mstep.
  destruct (Z.ltb_spec (key + Z.of_nat (length vs)) 0); [lia|]. reflexivity.
Qed.

Lemma setitem_normalize s w vs key v :
  Repr s w vs → - Z.of_nat (length vs) ≤ key < 0 →
  __setitem__ key v (s, w) = __setitem__ (key + Z.of_nat (length vs)) v (s, w).
Proof.
  intros R Hk. pose proof R as (fs & ds & tail & L & _).
  unfold __setitem__. mstep. rewrite (lay_open _ _ _ _ _ L). mstep.
  rewrite (len_Repr _ _ _ R). mstep.
  destruct (Z.ltb_spec key 0); [|lia].
  destruct (Z.ltb_spec (key + Z.of_nat (length vs)) 0); [lia|]. mstep.
  destruct (Z.ltb_spec (key + Z.of_nat (length vs)) 0); [lia|]. reflexivity.
Qed.

Lemma getitem_out_of_range s w vs key :
  Repr s w vs → key < - Z.of_nat (length vs) ∨ Z.of_nat (length vs) ≤ key →
  __getitem__ key (s, w) = (Raise (IndexError "BigArray index out of range"), (s, w)).
Proof.
  intros R Hk. pose proof R as (fs & ds & tail & L & _).
  unfold __getitem__. mstep. rewrite (lay_open _ _ _ _ _ L). mstep.
  rewrite (len_Repr _ _ _ R). mstep.
  destruct (Z.eqb_spec (Z.of_nat (length vs)) 0); [done|].
  destruct (Z.ltb_spec key 0); mstep.
  - destruct (Z.ltb_spec (key + Z.of_nat (length vs)) 0); [done|lia].
  - destruct (Z.ltb_spec key 0); [lia|].
    destruct (Z.leb_spec (Z.of_nat (length vs)) key); [done|lia].
Qed.

Lemma setitem_out_of_range s w vs key v :
  Repr s w vs → key < - Z.of_nat (length vs) ∨ Z.of_nat (length vs) ≤ key →
  __setitem__ key v (s, w)
  = (Raise (IndexError "BigArray assignment index out of range"), (s, w)).
Proof.
  intros R Hk. pose proof R as (fs & ds & tail & L & _).
  unfold __setitem__. mstep. rewrite (lay_open _ _ _ _ _ L). mstep.
  rewrite (len_Repr _ _ _ R). mstep.
  destruct (Z.ltb_spec key 0); mstep.
  - destruct (Z.ltb_spec (key + Z.of_nat (length vs)) 0); [done|].
    destruct (Z.leb_spec (Z.of_nat (length vs)) (key + Z.of_nat (length vs))); [done|lia].
  - destruct (Z.ltb_spec key 0); [lia|].
    destruct (Z.leb_spec (Z.of_nat (length vs)) key); [done|lia].
Qed.

Lemma py_index_cases {A} (l : list A) (key : Z) :
  (py_index l key = None
   ∧ (key < - Z.of_nat (length l) ∨ Z.of_nat (length l) ≤ key))
  ∨ (0 ≤ key < Z.of_nat (length l) ∧ py_index l key = Some (Z.to_nat key))
  ∨ (- Z.of_nat (length l) ≤ key < 0
     ∧ py_index l key = Some (Z.to_nat (key + Z.of_nat (length l)))).
Proof.
  unfold py_index.
  destruct (Z.ltb_spec key 0); simpl.
  - destruct (Z.leb_spec 0 (key + Z.of_nat (length l))); simpl.
    + destruct (Z.ltb_spec (key + Z.of_nat (length l)) (Z.of_nat (length l))); [|lia].
      right. right. split; [lia|done].
    + left. split; [done|lia].
  - destruct (Z.leb_spec 0 key); [|lia]. simpl.
    destruct (Z.ltb_spec key (Z.of_nat (length l))).
    + right. left. split; [lia|done].
    + left. split; [done|lia].
Qed.

(** X1.  On a well-formed container [get(key)] is Python list indexing,
    for every integer key: an index in range counted from the front, or a
    negative one counted from the end, returns that element of the
    sequence; any other key raises [IndexError] and changes nothing. *)
Theorem getitem_is_list_indexing s w vs key :
  Repr s w vs → healthy w →
  match py_getitem vs key with
  | Some x =>
      ∃ s' w', __getitem__ key (s, w) = (Ok x, (s', w'))
               ∧ Repr s' w' vs ∧ healthy w'
  | None =>
      __getitem__ key (s, w)
      = (Raise (IndexError "BigArray index out of range"), (s, w))
  end.
Proof.
  intros R Hw. unfold py_getitem.
  destruct (py_index_cases vs key) as [[-> Hk]|[[Hk ->]|[Hk ->]]].
  - exact (getitem_out_of_range s w vs key R Hk).
  - destruct (getitem_Repr s w vs key R Hw Hk) as (x & s' & w' & E & -> & ?).
    eauto.
  - rewrite (getitem_normalize s w vs key R Hk).
    destruct (getitem_Repr s w vs (key + Z.of_nat (length vs)) R Hw)
      as (x & s' & w' & E & -> & ?); [lia|]. eauto.
Qed.

(** X2.  On a well-formed container [set(key, value)] is Python list item
    assignment, for every integer key: in range (from the front, or
    negative from the end) it replaces that element and no other; any other
    key raises [IndexError] and changes nothing. *)
Theorem setitem_is_list_assignment s w vs key v :
  Repr s w vs → healthy w →
  match py_setitem vs key v with
  | Some vs' =>
      ∃ s' w', __setitem__ key v (s, w) = (Ok tt, (s', w'))
               ∧ Repr s' w' vs' ∧ healthy w'
  | None =>
      __setitem__ key v (s, w)
      = (Raise (IndexError "BigArray assignment index out of range"), (s, w))
  end.
Proof.
  intros R Hw. unfold py_setitem.
  destruct (py_index_cases vs key) as [[-> Hk]|[[Hk ->]|[Hk ->]]].
  - exact (setitem_out_of_range s w vs key v R Hk).
  - destruct (setitem_Repr s w vs key v R Hw Hk) as (s' & w' & E & ?). eauto.
  - rewrite (setitem_normalize s w vs key v R Hk).
    destruct (setitem_Repr s w vs (key + Z.of_nat (length vs)) v R Hw)
      as (s' & w' & E & ?); [lia|]. eauto.
Qed.

(** ** Reading twice *)

Lemma checkcache_hit s w index c :
  cache s = Some c → Cache.index c = index →
  _checkcache index (s, w) = (Ok tt, (s, w)).
Proof.
  intros Hc Hi. unfold _checkcache, _checkcache_write_dirty, _checkcache_load.
  mstep. rewrite Hc. rewrite Hi, Z.eqb_refl. mstep. rewrite Hc, Hi, Z.eqb_refl.
  reflexivity.
Qed.

Lemma getitem_Layout_hit s w fs ds tail i :
  Layout s w fs ds tail →
  0 ≤ i < Z.of_nat (length (concat ds ++ tail)) →
  (i < Z.of_nat (length ds) * chunk_length s →
   ∃ c, cache s = Some c ∧ Cache.index c = i / chunk_length s) →
  ∃ x, __getitem__ i (s, w) = (Ok x, (s, w))
       ∧ (concat ds ++ tail) !! Z.to_nat i = Some x.
Proof.
  intros L Hi Hslot.
  destruct (lookup_lt_is_Some_2 (concat ds ++ tail) (Z.to_nat i)) as [x Hx]; [lia|].
  exists x. split; [|done].
  unfold __getitem__. mstep. rewrite (lay_open _ _ _ _ _ L). mstep.
  rewrite (len_Layout _ _ _ _ _ L). mstep.
  destruct (Z.eqb_spec (Z.of_nat (length (concat ds ++ tail))) 0); [lia|].
  destruct (Z.ltb_spec i 0); [lia|]. mstep.
  destruct (Z.ltb_spec i 0); [lia|].
  destruct (Z.leb_spec (Z.of_nat (length (concat ds ++ tail))) i); [lia|].
  mstep.
  pose proof (lay_tail _ _ _ _ _ L) as Ht.
  destruct (Z.eqb_spec (chunk_length s) 0); [lia|]. mstep.
  pose proof (lay_full _ _ _ _ _ L) as Hfull.
  pose proof (concat_uniform_length _ _ Hfull) as Hlen.
  rewrite length_app in Hi.
  destruct (Z.lt_ge_cases i (Z.of_nat (length ds) * chunk_length s)) as [Hsp|Htl].
  - destruct (chunk_addr_spilled _ ds tail i x Hfull) as (Hq & Hr & d & Hd & Hget & _);
      [lia|].
    destruct (Hslot Hsp) as (c & Hc & Hci).
    set (k := Z.to_nat (i / chunk_length s)) in *.
    destruct (lookup_lt_is_Some_2 fs k) as [f Hf];
      [rewrite <- (lay_count _ _ _ _ _ L); lia|].
    pose proof (lay_files _ _ _ _ _ L k f d Hf Hd) as Hok.
    unfold chunk_ok, slot_at in Hok. rewrite Hc in Hok.
    replace (Z.of_nat k) with (i / chunk_length s) in Hok by lia.
    rewrite Hci, Z.eqb_refl in Hok. destruct Hok as [Hdata _].
    assert (py_getitem (chunks s) (i / chunk_length s) = Some (Spilled f)) as ->.
    { replace (i / chunk_length s) with (Z.of_nat k) by lia.
      exact (Layout_token _ _ _ _ _ _ _ L Hf). }
    mstep. rewrite (checkcache_hit s w _ c Hc Hci). mstep. rewrite Hc. mstep.
    rewrite Hdata, py_getitem_nonneg by lia. rewrite <- Hget, Hx. reflexivity.
  - destruct (chunk_addr_tail _ ds tail i x Hfull Ht) as (Hq & Hr & Hget & _); [lia|].
    rewrite Hq, py_getitem_nonneg, Nat2Z.id by lia.
    rewrite (lay_chunks _ _ _ _ _ L).
    rewrite lookup_app_r by (rewrite length_fmap, (lay_count _ _ _ _ _ L); done).
    rewrite length_fmap, (lay_count _ _ _ _ _ L), Nat.sub_diag.
    change ([Resident tail] !! 0%nat) with (Some (Resident tail)). mstep.
    rewrite py_getitem_nonneg by lia. rewrite <- Hget, Hx. reflexivity.
Qed.

Lemma get_twice_nonneg s w vs i :
  Repr s w vs → healthy w → 0 ≤ i < Z.of_nat (length vs) →
  ∃ x s' w',
    __getitem__ i (s, w) = (Ok x, (s', w'))
    ∧ vs !! Z.to_nat i = Some x
    ∧ Repr s' w' vs
    ∧ __getitem__ i (s', w') = (Ok x, (s', w')).
Proof.
  intros (fs & ds & tail & L & ->) Hw Hi.
  destruct (getitem_Layout _ _ _ _ _ i L Hw Hi)
    as (x & s' & w' & fs' & E & Hx & L' & Hw' & Hcl & Hsp).
  destruct (getitem_Layout_hit s' w' fs' ds tail i L' Hi) as (x' & E' & Hx').
  { rewrite Hcl. intros H. destruct (Hsp H) as (d & dirty' & _ & Hc & _). eauto. }
  assert (x' = x) as -> by congruence.
  exists x, s', w'. split_and!; try done. by exists fs', ds, tail.
Qed.


(** ** Iteration, counting, searching *)

Lemma iter_loop_Repr n : ∀ s w vs i,
  Repr s w vs → healthy w →
  0 ≤ i → i + Z.of_nat n ≤ Z.of_nat (length vs) →
  ∃ s' w',
    iter_loop n i (s, w) = (Ok (take n (drop (Z.to_nat i) vs)), (s', w'))
    ∧ Repr s' w' vs ∧ healthy w'.
Proof.
  induction n as [|n IH]; intros s w vs i R Hw Hi Hn.
  - exists s, w. done.
  - destruct (getitem_Repr s w vs i R Hw) as (x & s1 & w1 & E1 & Hx & R1 & Hw1); [lia|].
    destruct (IH s1 w1 vs (i + 1) R1 Hw1) as (s2 & w2 & E2 & R2 & Hw2); [lia|lia|].
    exists s2, w2. cbn [iter_loop]. unfold try_except. mstep. rewrite E1. mstep.
    rewrite E2. split_and!; try done. do 2 f_equal.
    rewrite (drop_S _ _ _ Hx). simpl. do 3 f_equal. lia.
Qed.

(** X4.  Iterating over a well-formed container yields exactly its
    sequence, in order, and leaves it holding the same sequence. *)
Theorem iter_yields_sequence s w vs :
  Repr s w vs → healthy w →
  ∃ s' w', __iter__ (s, w) = (Ok vs, (s', w')) ∧ Repr s' w' vs ∧ healthy w'.
Proof.
  intros R Hw.
  destruct (iter_loop_Repr (length vs) s w vs 0 R Hw) as (s' & w' & E & R' & Hw');
    [lia|lia|].
  exists s', w'. unfold __iter__. mstep. rewrite (len_Repr _ _ _ R). mstep.
  rewrite Nat2Z.id, E. simpl. rewrite firstn_all. done.
Qed.

(** X5.  [count(value)] on a well-formed container is the number of its
    elements equal (Python [==]) to [value]. *)
Theorem count_counts s w vs v :
  Repr s w vs → healthy w →
  ∃ s' w',
    count v (s, w)
    = (Ok (Z.of_nat (length (filter (λ x, py_eq x v = true) vs))), (s', w'))
    ∧ Repr s' w' vs ∧ healthy w'.
Proof.
  intros R Hw. destruct (iter_yields_sequence s w vs R Hw) as (s' & w' & E & R' & Hw').
  exists s', w'. unfold count. mstep. rewrite E. done.
Qed.

(** ** Popping *)

Lemma removelast_snoc_app {A} (l t : list A) :
  t ≠ [] → removelast (l ++ t) = l ++ removelast t.
Proof. intros H. by apply removelast_app. Qed.

Lemma last_app_nonempty {A} (l t : list A) :
  t ≠ [] → last (l ++ t) = last t.
Proof.
  intros H. destruct (exists_last H) as (t' & x & ->).
  by rewrite app_assoc, !last_snoc.
Qed.

Lemma py_index_last {A} (l : list A) (x : A) :
  py_index (l ++ [x]) (-1) = Some (length l).
Proof.
  unfold py_index. rewrite length_app. simpl.
  destruct (Z.leb_spec 0 (-1 + Z.of_nat (length l + 1))); [|lia].
  destruct (Z.ltb_spec (-1 + Z.of_nat (length l + 1))
              (Z.of_nat (length l + 1))); [|lia].
  simpl. f_equal. lia.
Qed.

Lemma load_last_chunk s w cs f d :
  chunks s = cs ++ [Spilled f] → stored w f = Some d →
  _load_chunk (-1) (s, w)
  = (Ok tt, (mkBigArray (cs ++ [Resident d]) (chunk_length s) (cache s)
               (filenames s) (_size_counter s) (_closed s) (_compress_level s), w)).
Proof.
  intros Hc Hst. unfold _load_chunk, try_except. mstep.
  unfold py_getitem, py_setitem. rewrite Hc, py_index_last.
  rewrite list_lookup_middle by done. mstep.
  rewrite (read_file_stored _ _ _ _ Hst). mstep.
  rewrite Hc, py_index_last. mstep.
  rewrite insert_app_r_alt by lia. rewrite Nat.sub_diag. done.
Qed.

Lemma pop_Layout s w fs ds tail :
  Layout s w fs ds tail → slot_off_last s →
  match last (concat ds ++ tail) with
  | Some v =>
      ∃ s' fs' ds' tail',
        pop (s, w) = (Ok v, (s', w))
        ∧ Layout s' w fs' ds' tail'
        ∧ concat ds' ++ tail' = removelast (concat ds ++ tail)
        ∧ cache s' = cache s
  | None => pop (s, w) = (Raise (IndexError "pop from empty BigArray"), (s, w))
  end.
Proof.
  intros L Hoff. pose proof L as [Hopen Hchunks Hcount Hfull Htail Hfiles Hslot Hsz Hb Hlvl].
  destruct (decide (tail = [])) as [->|Hne].
  - rewrite app_nil_r.
    destruct (decide (fs = [])) as [->|Hfs].
    + destruct ds; [|done]. simpl.
      unfold pop, len_last. mstep. rewrite Hopen. mstep. rewrite Hchunks. simpl.
      mstep. rewrite Hchunks. done.
    + destruct (exists_last Hfs) as (fs0 & f & ->).
      assert (ds ≠ []) as Hds by (intros ->; rewrite length_app in Hcount; simpl in *; lia).
      destruct (exists_last Hds) as (ds0 & d & ->).
      rewrite !length_app in Hcount. simpl in Hcount.
      apply Forall_app in Hfull as [Hfull0 Hd]. apply Forall_cons in Hd as [Hd _].
      assert (d ≠ []) as Hdne by (intros ->; simpl in *; lia).
      rewrite concat_app. simpl. rewrite app_nil_r.
      rewrite (last_app_nonempty _ d Hdne).
      destruct (exists_last Hdne) as (d0 & v & ->). rewrite last_snoc.
      assert (stored w f = Some (d0 ++ [v])) as Hst.
      { pose proof (Hfiles (length fs0) f (d0 ++ [v])) as Hok.
        rewrite list_lookup_middle in Hok by done.
        rewrite list_lookup_middle in Hok by lia.
        specialize (Hok eq_refl eq_refl). unfold chunk_ok, slot_at in Hok.
        unfold slot_off_last in Hoff. rewrite Hchunks in Hoff.
        rewrite !length_app, length_fmap, length_app in Hoff. simpl in Hoff.
        destruct (cache s) as [c|]; [|done].
        destruct (Z.eqb_spec (Cache.index c) (Z.of_nat (length fs0))); [lia|done]. }
      unfold pop, len_last. mstep. rewrite Hopen. mstep.
      rewrite Hchunks, last_snoc. mstep.
      change (Z.of_nat (@length pyval []) <? 1) with true. mstep.
      rewrite !Hchunks, length_app, length_fmap, length_app. simpl.
      replace (length fs0 + 1 + 1 <=? 1)%nat with false by (symmetry; apply Nat.leb_gt; lia).
      mstep. rewrite removelast_last.
      rewrite fmap_app. simpl.
      erewrite load_last_chunk; [|reflexivity|exact Hst].
      mstep. rewrite last_snoc. mstep. rewrite last_snoc. mstep.
      rewrite !removelast_last.
      eexists _, fs0, ds0, d0. split; [reflexivity|].
      split; [|split; [by rewrite app_assoc, removelast_last|done]].
      constructor; simpl; try done.
      * lia.
      * rewrite length_app in Hd. simpl in Hd. lia.
      * intros k f' d' Hf' Hd'.
        pose proof (Hfiles k f' d') as Hok.
        rewrite lookup_app_l in Hok by (eapply lookup_lt_Some; eauto).
        rewrite lookup_app_l in Hok by (eapply lookup_lt_Some; eauto).
        exact (Hok Hf' Hd').
      * unfold slot_off_last in Hoff. rewrite Hchunks in Hoff.
        rewrite !length_app, length_fmap, length_app in Hoff. simpl in Hoff.
        rewrite length_app in Hslot. simpl in Hslot.
        destruct (cache s); [lia|done].
      * intros Hu. specialize (Hsz Hu). by destruct fs0.
      * rewrite concat_app, app_nil_r in Hb. simpl in Hb.
        rewrite app_nil_r, !length_app in Hb. simpl in Hb.
        rewrite length_app. lia.
  - rewrite (last_app_nonempty _ tail Hne).
    destruct (exists_last Hne) as (t0 & v & ->). rewrite last_snoc.
    unfold pop, len_last. mstep. rewrite Hopen. mstep.
    rewrite Hchunks, last_snoc. mstep.
    rewrite length_app. simpl.
    replace (Z.of_nat (length t0 + 1) <? 1) with false by (symmetry; apply Z.ltb_ge; lia).
    mstep. rewrite Hchunks, last_snoc. mstep. rewrite last_snoc. mstep.
    rewrite !removelast_last.
    eexists _, fs, ds, t0. split; [reflexivity|].
    split; [|split; [by rewrite app_assoc, removelast_last|done]].
    constructor; simpl; try done.
    + rewrite length_app in Htail. simpl in Htail. lia.
    + rewrite !length_app in Hb. simpl in Hb. rewrite length_app. lia.
Qed.

(** X7.  [pop()] on a well-formed container whose cache slot is not on the
    last spilled chunk is Python's [list.pop()]: it returns the last
    element and leaves the sequence without it, reading the previous chunk
    back from its file when the open chunk is empty; on an empty container
    it raises [IndexError] and changes nothing.  It never writes to the
    file system and leaves the cache slot alone. *)
Theorem pop_is_list_pop s w vs :
  Repr s w vs → slot_off_last s →
  match last vs with
  | Some v =>
      ∃ s', pop (s, w) = (Ok v, (s', w))
            ∧ Repr s' w (removelast vs) ∧ cache s' = cache s
  | None => pop (s, w) = (Raise (IndexError "pop from empty BigArray"), (s, w))
  end.
Proof.
  intros (fs & ds & tail & L & ->) Hoff.
  pose proof (pop_Layout s w fs ds tail L Hoff) as H.
  destruct (last (concat ds ++ tail)) as [v|]; [|done].
  destruct H as (s' & fs' & ds' & tail' & E & L' & Hvs & Hc).
  exists s'. split_and!; try done. by exists fs', ds', tail'.
Qed.

Section More.

Variable BIGARRAY_CHUNK_SIZE : Z.
Variable BIGARRAY_COMPRESS_LEVEL : Z.
Variable getsizeof : pyval → Z.
Variable py_str : pyval → string.

Local Abbreviation append' := (append BIGARRAY_CHUNK_SIZE getsizeof).
Local Abbreviation getslice_loop' := (getslice_loop BIGARRAY_CHUNK_SIZE getsizeof).
Local Abbreviation copy_loop' := (copy_loop BIGARRAY_CHUNK_SIZE getsizeof).
Local Abbreviation new' :=
  (BigArray_new BIGARRAY_CHUNK_SIZE BIGARRAY_COMPRESS_LEVEL getsizeof).
Local Abbreviation getitem_slice' :=
  (getitem_slice BIGARRAY_CHUNK_SIZE BIGARRAY_COMPRESS_LEVEL getsizeof).
Local Abbreviation add' :=
  (__add__ BIGARRAY_CHUNK_SIZE BIGARRAY_COMPRESS_LEVEL getsizeof).
Local Abbreviation iadd' := (__iadd__ BIGARRAY_CHUNK_SIZE getsizeof).
Local Abbreviation extend' := (extend BIGARRAY_CHUNK_SIZE getsizeof).
Local Abbreviation init' := (__init__ BIGARRAY_CHUNK_SIZE getsizeof).
Local Abbreviation clear' :=
  (clear BIGARRAY_CHUNK_SIZE BIGARRAY_COMPRESS_LEVEL getsizeof).
Local Abbreviation reverse' :=
  (reverse BIGARRAY_CHUNK_SIZE BIGARRAY_COMPRESS_LEVEL getsizeof).

Lemma index_loop_Repr v n : ∀ s w vs i,
  Repr s w vs → healthy w →
  0 ≤ i → i + Z.of_nat n ≤ Z.of_nat (length vs) →
  ∃ s' w',
    Repr s' w' vs ∧ healthy w'
    ∧ index_loop py_str n i v (s, w)
      = (match list_find (λ x, py_eq x v = true) (take n (drop (Z.to_nat i) vs)) with
         | Some (j, _) => Ok (i + Z.of_nat j)
         | None => Raise (ValueError (py_str v +:+ " is not in BigArray"))
         end, (s', w')).
Proof.
  induction n as [|n IH]; intros s w vs i R Hw Hi Hn.
  - exists s, w. done.
  - destruct (getitem_Repr s w vs i R Hw) as (x & s1 & w1 & E1 & Hx & R1 & Hw1); [lia|].
    rewrite (drop_S _ _ _ Hx). cbn [take list_find]. cbn [index_loop]. mstep.
    rewrite E1. mstep.
    destruct (py_eq x v) eqn:Heq.
    + exists s1, w1. rewrite decide_True by done. simpl.
      rewrite Z.add_0_r. done.
    + destruct (IH s1 w1 vs (i + 1) R1 Hw1) as (s2 & w2 & R2 & Hw2 & E2); [lia|lia|].
      exists s2, w2. rewrite decide_False by done.
      rewrite E2. split_and!; try done.
      replace (Z.to_nat (i + 1)) with (S (Z.to_nat i)) by lia.
      generalize (list_find (λ x0, py_eq x0 v = true)
                    (take n (drop (S (Z.to_nat i)) vs))).
      intros [[j y]|]; [|reflexivity].
      cbn. do 2 f_equal. lia.
Qed.

(** X6.  [index(value, start, stop)] with [start >= 0] on a well-formed
    container searches the positions from [start] up to, not including,
    min([stop], length) (up to the length when [stop] is absent): it
    returns the first position whose element equals [value], and raises
    [ValueError] "... is not in BigArray" when there is none. *)
Theorem index_finds_first s w vs v start stop :
  Repr s w vs → healthy w → 0 ≤ start →
  let stop' := match stop with
               | None => Z.of_nat (length vs)
               | Some stop => Z.min stop (Z.of_nat (length vs))
               end in
  ∃ s' w',
    Repr s' w' vs ∧ healthy w'
    ∧ index py_str v start stop (s, w)
      = (match list_find (λ x, py_eq x v = true)
                 (take (Z.to_nat (stop' - start)) (drop (Z.to_nat start) vs)) with
         | Some (j, _) => Ok (start + Z.of_nat j)
         | None => Raise (ValueError (py_str v +:+ " is not in BigArray"))
         end, (s', w')).
Proof.
  intros R Hw Hs stop'.
  unfold index. mstep. rewrite (len_Repr _ _ _ R). mstep. fold stop'.
  destruct (Z.le_gt_cases start stop') as [Hle|Hgt].
  - apply index_loop_Repr; try done.
    assert (stop' ≤ Z.of_nat (length vs)) by (subst stop'; destruct stop; lia).
    lia.
  - replace (Z.to_nat (stop' - start)) with 0%nat by lia.
    exists s, w. done.
Qed.

(** ** Temporary files are removed on close *)

Lemma maintains_ret {A} P (x : A) : maintains P (ret x).
Proof. by intros st H. Qed.

Lemma maintains_raise {A} P e : maintains P (@raise A e).
Proof. by intros st H. Qed.

Lemma maintains_bind {A B} P (m : M A) (k : A → M B) :
  maintains P m → (∀ x, maintains P (k x)) → maintains P (bind m k).
Proof.
  intros Hm Hk st H. unfold bind. specialize (Hm st H).
  destruct (m st) as [[x|e] st']; simpl in *; [by apply Hk|done].
Qed.

Lemma maintains_try_except {A} P (m : M A) handles h :
  maintains P m → (∀ e, maintains P (h e)) → maintains P (try_except m handles h).
Proof.
  intros Hm Hh st H. unfold try_except. specialize (Hm st H).
  destruct (m st) as [[x|e] st']; simpl in *; [done|].
  destruct (handles e); [by apply Hh|done].
Qed.

Lemma maintains_for_each {A} P (l : list A) body :
  (∀ x, maintains P (body x)) → maintains P (for_each l body).
Proof.
  intros Hb. induction l as [|x l IH]; [apply maintains_ret|].
  cbn [for_each]. apply maintains_bind; [apply Hb|by intros _].
Qed.

Lemma maintains_get_self P : maintains P get_self.
Proof. by intros st H. Qed.

Lemma maintains_get_os P : maintains P get_os.
Proof. by intros st H. Qed.

Lemma maintains_from_option {A} P (o : option A) e : maintains P (from_option o e).
Proof. destruct o; by intros st H. Qed.

Lemma maintains_lift_result {A} P (r : result A) : maintains P (lift_result r).
Proof. destruct r; by intros st H. Qed.

Create HintDb maintains.
#[local] Hint Resolve maintains_ret maintains_raise maintains_get_self
  maintains_get_os maintains_from_option maintains_lift_result : maintains.

Ltac maintains_step :=
  first
    [ progress cbv beta zeta
    | solve [auto with maintains]
    | apply maintains_bind; [|intros ?]
    | apply maintains_try_except; [|intros ?]
    | apply maintains_for_each; intros ?
    | match goal with
      | |- maintains _ (match ?x with _ => _ end) => destruct x
      | |- maintains _ (if ?b then _ else _) => destruct b
      end ].

Ltac maintains := repeat maintains_step.

(** A condition that the field updates of the methods and a whole [_dump]
    sustain is sustained by every method that does not close or
    reinitialise the container. *)
Section Sustained.

Variable P : state → Prop.
Hypothesis P_set_chunks : ∀ cs, maintains P (set_chunks cs).
Hypothesis P_set_cache : ∀ c, maintains P (set_cache c).
Hypothesis P_set_chunk_length : ∀ n, maintains P (set_chunk_length n).
Hypothesis P_set_size_counter : ∀ n, maintains P (set_size_counter n).
Hypothesis P_dump : ∀ d, maintains P (_dump d).

#[local] Hint Resolve P_set_chunks P_set_cache P_set_chunk_length
  P_set_size_counter P_dump : maintains.

Lemma sustained_read_file f : maintains P (read_file f).
Proof. unfold read_file. maintains. Qed.
#[local] Hint Resolve sustained_read_file : maintains.

Lemma sustained_len_last : maintains P len_last.
Proof. unfold len_last. maintains. Qed.
#[local] Hint Resolve sustained_len_last : maintains.

Lemma sustained_len : maintains P len.
Proof. unfold len, __len__. maintains. Qed.
#[local] Hint Resolve sustained_len : maintains.

Lemma sustained_load_chunk i : maintains P (_load_chunk i).
Proof. unfold _load_chunk. maintains. Qed.

Lemma sustained_checkcache i : maintains P (_checkcache i).
Proof. unfold _checkcache, _checkcache_write_dirty, _checkcache_load. maintains. Qed.
#[local] Hint Resolve sustained_load_chunk sustained_checkcache : maintains.

Lemma sustained_append_spill : maintains P append_spill.
Proof. unfold append_spill. maintains. Qed.
#[local] Hint Resolve sustained_append_spill : maintains.

Lemma sustained_append_size_chunk v :
  maintains P (append_size_chunk BIGARRAY_CHUNK_SIZE getsizeof v).
Proof. unfold append_size_chunk. maintains. Qed.
#[local] Hint Resolve sustained_append_size_chunk : maintains.

Lemma sustained_append v : maintains P (append' v).
Proof. unfold append. maintains. Qed.
#[local] Hint Resolve sustained_append : maintains.

Lemma sustained_extend vs : maintains P (extend' vs).
Proof. unfold extend. maintains. Qed.

Lemma sustained_pop : maintains P pop.
Proof. unfold pop. maintains. Qed.

Lemma sustained_getitem k : maintains P (__getitem__ k).
Proof. unfold __getitem__. maintains. Qed.
#[local] Hint Resolve sustained_extend sustained_pop sustained_getitem : maintains.

Lemma sustained_setitem k v : maintains P (__setitem__ k v).
Proof. unfold __setitem__. maintains. Qed.

Lemma sustained_iter_loop n : ∀ i, maintains P (iter_loop n i).
Proof. induction n as [|n IH]; intros i; cbn [iter_loop]; maintains. Qed.
#[local] Hint Resolve sustained_setitem sustained_iter_loop : maintains.

Lemma sustained_iter : maintains P __iter__.
Proof. unfold __iter__. maintains. Qed.
#[local] Hint Resolve sustained_iter : maintains.

Lemma sustained_count v : maintains P (count v).
Proof. unfold count. maintains. Qed.

Lemma sustained_index_loop v n : ∀ i, maintains P (index_loop py_str n i v).
Proof. induction n as [|n IH]; intros i; cbn [index_loop]; maintains. Qed.
#[local] Hint Resolve sustained_count sustained_index_loop : maintains.

Lemma sustained_index v start stop : maintains P (index py_str v start stop).
Proof. unfold index. maintains. Qed.

Lemma sustained_init_rest items chunk_size :
  maintains P
    ((if negb (chunk_size =? BIGARRAY_CHUNK_SIZE)
      then set_chunk_length chunk_size ;; set_size_counter None
      else ret tt) ;;
     match items with Some values => extend' values | None => ret tt end).
Proof. maintains. Qed.

End Sustained.

Lemma owner_dump w0 d : maintains (open_owner w0) (_dump d).
Proof.
  intros [s w] (Ho & H1 & H2 & H3). simpl in *.
  unfold _dump, try_except, mkstemp, compress, write_file. mstep.
  destruct (mkstemp_fault w) as [err|]; [done|]. mstep.
  set (f := fresh (dom (files w))).
  assert (files w !! f = None) as Hf by (apply not_elem_of_dom, is_fresh).
  assert (files w0 !! f = None) as Hf0.
  { destruct (decide (f ∈ filenames s)) as [Hin|Hin]; [by apply H1|].
    by rewrite <- (H2 f Hin). }
  assert (∀ b, open_owner w0
            (mkBigArray (chunks s) (chunk_length s) (cache s) ({[f]} ∪ filenames s)
               (_size_counter s) (_closed s) (_compress_level s),
             mkWorld (<[f := b]> (files w)) None (write_fault w))) as Hnew.
  { intros b. split; [done|]. split_and!; simpl.
    - intros g [->%elem_of_singleton|Hg]%elem_of_union; [done|by apply H1].
    - intros g [Hgf Hg]%not_elem_of_union. apply not_elem_of_singleton in Hgf.
      rewrite lookup_insert_ne by done. by apply H2.
    - by rewrite Ho. }
  destruct (valid_level (_compress_level s)); mstep; [|apply Hnew].
  destruct (write_fault w) as [err|] eqn:Hwf; mstep.
  - cbn [is_OSError]. mstep. rewrite <- Hwf. apply Hnew.
  - rewrite insert_insert_eq. rewrite <- Hwf. apply Hnew.
Qed.

Ltac owner lem := apply lem; try (by intros ? [? ?] ?); apply owner_dump.

Lemma owner_append w0 v : maintains (open_owner w0) (append' v).
Proof. owner sustained_append. Qed.

Lemma owner_extend w0 vs : maintains (open_owner w0) (extend' vs).
Proof. owner sustained_extend. Qed.

Lemma owner_pop w0 : maintains (open_owner w0) pop.
Proof. owner sustained_pop. Qed.

Lemma owner_getitem w0 k : maintains (open_owner w0) (__getitem__ k).
Proof. owner sustained_getitem. Qed.

Lemma owner_setitem w0 k v : maintains (open_owner w0) (__setitem__ k v).
Proof. owner sustained_setitem. Qed.

Lemma owner_len w0 : maintains (open_owner w0) len.
Proof. owner sustained_len. Qed.

Lemma owner_iter w0 : maintains (open_owner w0) __iter__.
Proof. owner sustained_iter. Qed.

Lemma owner_count w0 v : maintains (open_owner w0) (count v).
Proof. owner sustained_count. Qed.

Lemma owner_index w0 v start stop :
  maintains (open_owner w0) (index py_str v start stop).
Proof. owner sustained_index. Qed.

Lemma remove_all_files l : ∀ s w,
  ∃ w',
    for_each l close_remove (s, w) = (Ok tt, (s, w'))
    ∧ (∀ g, files w' !! g = if decide (g ∈ l) then None else files w !! g)
    ∧ mkstemp_fault w' = mkstemp_fault w ∧ write_fault w' = write_fault w.
Proof.
  induction l as [|f l IH]; intros s w.
  { exists w. by split_and!. }
  cbn [for_each]. unfold close_remove at 1, try_except, os_remove. mstep.
  destruct (files w !! f) eqn:Hf; mstep; cbn [is_OSError]; mstep.
  - destruct (IH s (mkWorld (delete f (files w)) (mkstemp_fault w) (write_fault w)))
      as (w' & E & Hg & H1 & H2).
    exists w'. rewrite E. split_and!; try done.
    intros g. rewrite Hg. simpl.
    destruct (decide (g ∈ l)) as [Hin|Hin].
    + rewrite decide_True; [done|by right].
    + destruct (decide (g = f)) as [->|Hne].
      * rewrite decide_True by left. apply lookup_delete_eq.
      * rewrite decide_False by (by intros [?|?]%elem_of_cons).
        by apply lookup_delete_ne.
  - destruct (IH s w) as (w' & E & Hg & H1 & H2). exists w'. rewrite E.
    split_and!; try done. intros g. rewrite Hg.
    destruct (decide (g ∈ l)) as [Hin|Hin].
    + rewrite decide_True; [done|by right].
    + destruct (decide (g = f)) as [->|Hne].
      * rewrite decide_True by left. done.
      * rewrite decide_False by (by intros [?|?]%elem_of_cons). done.
Qed.

Lemma close_open s w :
  _closed s = false →
  ∃ w',
    close (s, w)
    = (Ok tt,
       (mkBigArray (chunks s) (chunk_length s) None ∅ (_size_counter s) true
          (_compress_level s), w'))
    ∧ (∀ g, files w' !! g = if decide (g ∈ filenames s) then None else files w !! g)
    ∧ mkstemp_fault w' = mkstemp_fault w ∧ write_fault w' = write_fault w.
Proof.
  intros Ho. unfold close. mstep. rewrite Ho. mstep.
  match goal with |- context [for_each ?l ?b (?s1, w)] =>
    destruct (remove_all_files l s1 w) as (w' & E & Hg & H1 & H2) end.
  rewrite E. mstep. exists w'. split_and!; try done.
  intros g. rewrite Hg.
  destruct (decide (g ∈ filenames s)) as [Hin|Hin].
  - rewrite decide_True; [done|by apply elem_of_elements].
  - rewrite decide_False; [done|by rewrite elem_of_elements].
Qed.


Lemma owner_close w0 st :
  owns_new_files w0 st →
  ∃ s' w',
    close st = (Ok tt, (s', w'))
    ∧ owns_new_files w0 (s', w') ∧ files w' = files w0 ∧ filenames s' = ∅.
Proof.
  destruct st as [s w]. intros (H1 & H2 & H3). simpl in *.
  destruct (_closed s) eqn:Hc.
  - exists s, w. unfold close. mstep. rewrite Hc. split_and!; try done.
    + unfold owns_new_files. simpl. split_and!; try done. intros _. by apply H3.
    + apply map_eq. intros g. apply H2. rewrite (H3 eq_refl). apply not_elem_of_empty.
    + by apply H3.
  - destruct (close_open s w Hc) as (w' & E & Hg & _).
    assert (∀ g, files w' !! g = files w0 !! g) as Heq.
    { intros g. rewrite Hg. destruct (decide (g ∈ filenames s)) as [Hin|Hin].
      - symmetry. by apply H1.
      - by apply H2. }
    eexists _, w'. split; [exact E|].
    split; [|split; [by apply map_eq|done]].
    unfold owns_new_files. simpl. by split_and!.
Qed.

Lemma owner_init w0 s0 w items chunk_size level :
  files w = files w0 →
  open_owner w0 (snd (init' items chunk_size level (s0, w))).
Proof.
  intros Hw. unfold __init__. unfold bind at 1, put_self at 1. cbn [fst snd].
  match goal with |- open_owner _ (snd (?m ?st)) =>
    assert (maintains (open_owner w0) m) as Hm
      by (owner sustained_init_rest); apply Hm end.
  split; [done|]. unfold owns_new_files. simpl. split_and!; try done.
  intros g _. by rewrite Hw.
Qed.

Lemma owner_clear w0 st :
  owns_new_files w0 st →
  ∃ s' w', clear' st = (Ok tt, (s', w')) ∧ open_owner w0 (s', w').
Proof.
  intros H. destruct (owner_close w0 st H) as (s1 & w1 & E & _ & Hf & _).
  pose proof (owner_init w0 s1 w1 None BIGARRAY_CHUNK_SIZE BIGARRAY_COMPRESS_LEVEL Hf)
    as Hi.
  unfold clear. unfold bind at 1. rewrite E.
  unfold __init__ in *. revert Hi. mstep. rewrite Z.eqb_refl. mstep.
  intros Hi. eexists _, w1. split; [reflexivity|exact Hi].
Qed.

Lemma open_owner_owns w0 st : open_owner w0 st → owns_new_files w0 st.
Proof. by intros [_ H]. Qed.

Lemma owns_open_owner w0 st :
  _closed (fst st) = false → owns_new_files w0 st → open_owner w0 st.
Proof. by split. Qed.

Lemma owner_reverse w0 st :
  owns_new_files w0 st → owns_new_files w0 (snd (reverse' st)).
Proof.
  intros H. destruct (_closed (fst st)) eqn:Hc.
  { by rewrite (closed_reverse _ _ _ st Hc). }
  pose proof (owner_iter w0 st (owns_open_owner w0 st Hc H)) as Hi.
  destruct st as [s w]. simpl in Hc. unfold reverse. mstep. rewrite Hc.
  destruct (__iter__ (s, w)) as [[items|e] st1]; simpl in Hi;
    [|by apply open_owner_owns].
  destruct (owner_clear w0 st1 (open_owner_owns _ _ Hi)) as (s2 & w2 & E & Ho).
  rewrite E. apply open_owner_owns. by apply owner_extend.
Qed.

Lemma owner_perform w0 o st :
  owns_new_files w0 st →
  owns_new_files w0 (perform BIGARRAY_CHUNK_SIZE getsizeof py_str o st).
Proof.
  intros H. destruct o; cbn [perform];
    try (destruct (owner_close w0 st H) as (s' & w' & E & Ho & _); by rewrite E);
    (destruct (_closed (fst st)) eqn:Hc;
     [|apply open_owner_owns; pose proof (owns_open_owner w0 st Hc H) as Ho]).
  - by rewrite (closed_append _ _ st _ Hc).
  - by apply owner_append.
  - by rewrite (closed_extend _ _ st _ Hc).
  - by apply owner_extend.
  - by rewrite (closed_pop st Hc).
  - by apply owner_pop.
  - by rewrite (closed_getitem st _ Hc).
  - by apply owner_getitem.
  - by rewrite (closed_setitem st _ _ Hc).
  - by apply owner_setitem.
  - by rewrite (closed_len st Hc).
  - by apply owner_len.
  - by rewrite (closed_count st _ Hc).
  - by apply owner_count.
  - destruct (closed_index py_str st value start stop Hc) as (e & -> & _). done.
  - by apply owner_index.
  - by rewrite (closed_iter st Hc).
  - by apply owner_iter.
Qed.

Lemma owner_invoke w0 m st :
  owns_new_files w0 st →
  owns_new_files w0
    (invoke BIGARRAY_CHUNK_SIZE BIGARRAY_COMPRESS_LEVEL getsizeof py_str m st).
Proof.
  intros H. destruct m as [o| |]; cbn [invoke].
  - by apply owner_perform.
  - destruct (owner_clear w0 st H) as (s' & w' & -> & Ho). by apply open_owner_owns.
  - by apply owner_reverse.
Qed.

Lemma owner_session w0 ms : ∀ st,
  owns_new_files w0 st →
  owns_new_files w0
    (session BIGARRAY_CHUNK_SIZE BIGARRAY_COMPRESS_LEVEL getsizeof py_str ms st).
Proof.
  induction ms as [|m ms IH]; intros st H; [done|].
  cbn [session foldl]. apply IH. by apply owner_invoke.
Qed.


(** ** Growing, constructing, clearing and reversing *)

(** X10.  [extend(values)] on a well-formed container appends the values
    in order: the container then holds the old sequence followed by them.
    While the chunk length is still being determined the values must be
    hashable, since each one is passed to the memoised size estimate. *)
Theorem extend_is_list_extend s w vs ws :
  Repr s w vs → healthy w →
  (undetermined s = true → Forall (λ v, hashable v = true) ws) →
  Z.of_nat (length vs) + Z.of_nat (length ws) < sys_maxsize →
  ∃ s' w',
    extend' ws (s, w) = (Ok tt, (s', w'))
    ∧ Repr s' w' (vs ++ ws) ∧ healthy w'
    ∧ (undetermined s = false → undetermined s' = false).
Proof.
  intros R Hw Hv Hb.
  destruct (for_each_append_Repr BIGARRAY_CHUNK_SIZE getsizeof ws s w vs R Hw Hv Hb)
    as (s' & w' & E & R' & Hw' & Hu).
  exists s', w'. split_and!; try done.
  unfold extend. mstep.
  destruct R as (fs & ds & tail & L & _). rewrite (lay_open _ _ _ _ _ L). exact E.
Qed.

Lemma dump_frame d s w :
  ∃ fn' w',
    snd (_dump d (s, w))
    = (mkBigArray (chunks s) (chunk_length s) (cache s) fn' (_size_counter s)
         (_closed s) (_compress_level s), w').
Proof.
  unfold _dump, try_except, mkstemp, compress, write_file. mstep.
  destruct (mkstemp_fault w); [destruct s; by eexists _, _|]. mstep.
  destruct (valid_level (_compress_level s)); mstep; [|by eexists _, _].
  destruct (write_fault w); mstep; [|by eexists _, _].
  cbn [is_OSError]. mstep. by eexists _, _.
Qed.

Lemma level_dump l d : maintains (λ st, _compress_level (fst st) = l) (_dump d).
Proof.
  intros [s w] H. destruct (dump_frame d s w) as (fn' & w' & ->). exact H.
Qed.

Lemma slot_dump c d : maintains (λ st, cache (fst st) = c) (_dump d).
Proof.
  intros [s w] H. destruct (dump_frame d s w) as (fn' & w' & ->). exact H.
Qed.

Lemma slot_append c v : maintains (λ st, cache (fst st) = c) (append' v).
Proof. apply sustained_append; try (by intros ? [? ?] ?). apply slot_dump. Qed.

Lemma level_extend l vs : maintains (λ st, _compress_level (fst st) = l) (extend' vs).
Proof. apply sustained_extend; try (by intros ? [? ?] ?). apply level_dump. Qed.

Lemma init_items_Repr s0 w items chunk_size level :
  healthy w → valid_level level = true →
  (chunk_size = BIGARRAY_CHUNK_SIZE → Forall (λ v, hashable v = true) items) →
  (chunk_size ≠ BIGARRAY_CHUNK_SIZE → 1 ≤ chunk_size) →
  Z.of_nat (length items) < sys_maxsize →
  ∃ s w',
    init' (Some items) chunk_size level (s0, w) = (Ok tt, (s, w'))
    ∧ Repr s w' items ∧ healthy w' ∧ _compress_level s = level
    ∧ (chunk_size ≠ BIGARRAY_CHUNK_SIZE → chunk_length s = chunk_size).
Proof.
  intros Hw Hl Hh Hc Hb.
  destruct (init_Repr BIGARRAY_CHUNK_SIZE getsizeof s0 w chunk_size level Hl)
    as (s1 & E0 & R0 & Hu0).
  { destruct (decide (chunk_size = BIGARRAY_CHUNK_SIZE)); [by left|right; auto]. }
  assert (_compress_level s1 = level ∧ _closed s1 = false
          ∧ (chunk_size ≠ BIGARRAY_CHUNK_SIZE →
             chunk_length s1 = chunk_size ∧ _size_counter s1 = None)) as (Hl1 & Ho1 & Hcl1).
  { revert E0. unfold __init__. mstep.
    destruct (Z.eqb_spec chunk_size BIGARRAY_CHUNK_SIZE); mstep; by intros [= <-]. }
  destruct (for_each_append_Repr BIGARRAY_CHUNK_SIZE getsizeof items s1 w [] R0 Hw)
    as (s2 & w2 & E2 & R2 & Hw2 & _); [| simpl; lia |].
  { intros Hu. apply Hh. destruct (decide (chunk_size = BIGARRAY_CHUNK_SIZE)); [done|].
    by rewrite (Hu0 n) in Hu. }
  assert (extend' items (s1, w) = (Ok tt, (s2, w2))) as Eext.
  { unfold extend. mstep. rewrite Ho1. exact E2. }
  exists s2, w2. split_and!; try done.
  - revert E0. unfold __init__. mstep.
    destruct (Z.eqb_spec chunk_size BIGARRAY_CHUNK_SIZE); mstep;
      intros [= <-]; exact Eext.
  - pose proof (level_extend level items (s1, w) Hl1) as Hk.
    by rewrite Eext in Hk.
  - intros Hne. destruct (Hcl1 Hne) as [H1 H2].
    destruct (for_each_append_keeps_fixed BIGARRAY_CHUNK_SIZE getsizeof items (s1, w))
      as [H3 H4].
    { simpl. unfold undetermined. rewrite H2. apply andb_false_r. }
    rewrite E2 in H3. simpl in H3. congruence.
Qed.

(** X11.  The constructor on a healthy file system builds a well-formed
    container holding exactly the given items, in order, compressing at the
    requested level; a chunk size other than the default becomes the chunk
    length.  With the default chunk size the items must be hashable (they
    are passed to the memoised size estimate); an explicit chunk size must
    be at least 1. *)
Theorem init_holds_items s0 w items chunk_size level :
  healthy w → valid_level level = true →
  (chunk_size = BIGARRAY_CHUNK_SIZE →
   Forall (λ v, hashable v = true) (default [] items)) →
  (chunk_size ≠ BIGARRAY_CHUNK_SIZE → 1 ≤ chunk_size) →
  Z.of_nat (length (default [] items)) < sys_maxsize →
  ∃ s w',
    init' items chunk_size level (s0, w) = (Ok tt, (s, w'))
    ∧ Repr s w' (default [] items) ∧ healthy w' ∧ _compress_level s = level
    ∧ (chunk_size ≠ BIGARRAY_CHUNK_SIZE → chunk_length s = chunk_size).
Proof.
  intros Hw Hl Hh Hc Hb. destruct items as [items|]; simpl in *.
  { by apply init_items_Repr. }
  destruct (init_Repr BIGARRAY_CHUNK_SIZE getsizeof s0 w chunk_size level Hl)
    as (s1 & E0 & R0 & Hu0).
  { destruct (decide (chunk_size = BIGARRAY_CHUNK_SIZE)); [by left|right; auto]. }
  exists s1, w. split_and!; try done;
    revert E0; unfold __init__; mstep;
    destruct (Z.eqb_spec chunk_size BIGARRAY_CHUNK_SIZE); mstep; by intros [= <-].
Qed.

Lemma clear_result s w :
  ∃ w',
    clear' (s, w)
    = (Ok tt,
       (mkBigArray [Resident []] sys_maxsize None ∅ (Some 0) false
          BIGARRAY_COMPRESS_LEVEL, w'))
    ∧ (∀ g, files w' !! g
            = if _closed s then files w !! g
              else if decide (g ∈ filenames s) then None else files w !! g)
    ∧ mkstemp_fault w' = mkstemp_fault w ∧ write_fault w' = write_fault w.
Proof.
  destruct (_closed s) eqn:Hc.
  - exists w. rewrite (clear_closed _ _ _ (s, w) Hc). done.
  - destruct (close_open s w Hc) as (w' & E & Hg & H1 & H2).
    exists w'. split_and!; try done.
    unfold clear. unfold bind at 1. rewrite E. unfold __init__. mstep.
    rewrite Z.eqb_refl. done.
Qed.

Lemma default_Repr w :
  valid_level BIGARRAY_COMPRESS_LEVEL = true →
  Repr (mkBigArray [Resident []] sys_maxsize None ∅ (Some 0) false
          BIGARRAY_COMPRESS_LEVEL) w [].
Proof. intros Hl. exists [], [], []. split; [|done]. constructor; simpl; done. Qed.


(** X13.  [reverse()] on a well-formed container of hashable elements, with
    a valid default compression level, leaves a well-formed container
    holding the elements in reverse order.  The elements must be hashable
    even if the container was built with an explicit chunk size, because
    [reverse] rebuilds it through [clear()], which resets it to adaptive
    sizing. *)
Theorem reverse_reverses s w vs :
  Repr s w vs → healthy w →
  valid_level BIGARRAY_COMPRESS_LEVEL = true →
  Forall (λ v, hashable v = true) vs →
  ∃ s' w',
    reverse' (s, w) = (Ok tt, (s', w')) ∧ Repr s' w' (rev vs) ∧ healthy w'.
Proof.
  intros R Hw Hl Hh.
  assert (Z.of_nat (length vs) < sys_maxsize) as Hb.
  { destruct R as (fs & ds & tail & L & ->). apply (lay_bound _ _ _ _ _ L). }
  assert (_closed s = false) as Ho.
  { destruct R as (fs & ds & tail & L & _). apply (lay_open _ _ _ _ _ L). }
  destruct (iter_loop_Repr (length vs) s w vs 0 R Hw) as (s1 & w1 & E1 & R1 & Hw1);
    [lia|lia|].
  destruct (clear_result s1 w1) as (w2 & E2 & _ & Hm & Hwf).
  assert (healthy w2) as Hw2 by (destruct Hw1; split; congruence).
  destruct (for_each_append_Repr BIGARRAY_CHUNK_SIZE getsizeof (rev vs) _ w2 []
              (default_Repr w2 Hl) Hw2) as (s3 & w3 & E3 & R3 & Hw3 & _).
  { intros _. by apply Forall_rev. }
  { rewrite length_rev. simpl. lia. }
  exists s3, w3. split_and!; try done.
  unfold reverse. mstep. rewrite Ho. unfold __iter__. mstep.
  rewrite (len_Repr _ _ _ R). mstep. rewrite Nat2Z.id, E1. simpl.
  rewrite firstn_all. mstep. rewrite E2. unfold extend. mstep. exact E3.
Qed.

(** ** The size estimator *)


(** ** Failures of the file system *)

(** X15.  A failed spill does not undo the append.  When the append brings
    the length of a well-formed container with a fixed chunk length to a
    multiple of it and no temporary file can be created, [append] raises
    [SqlmapSystemException] carrying the operating system's message, yet
    the element stays in the open chunk: the length is one more, the
    element is the last one, and nothing was registered or written. *)
Theorem append_failed_spill_keeps_element s w vs v err :
  Repr s w vs → undetermined s = false → mkstemp_fault w = Some err →
  (Z.of_nat (length vs) + 1) mod chunk_length s = 0 →
  ∃ s',
    append' v (s, w)
    = (Raise (SqlmapSystemException (store_message (OSError err))), (s', w))
    ∧ len (s', w) = (Ok (Z.of_nat (length vs) + 1), (s', w))
    ∧ __getitem__ (-1) (s', w) = (Ok v, (s', w))
    ∧ filenames s' = filenames s.
Proof.
  intros (fs & ds & tail & L & ->) Hu Hm Hmod.
  pose proof L as [Hopen Hchunks Hcount Hfull Htail Hfiles Hslot Hsz Hb Hlvl].
  pose proof (concat_uniform_length _ _ Hfull) as Hlen.
  rewrite length_app, Nat2Z.inj_add in *.
  set (cl := chunk_length s) in *.
  set (t := Z.of_nat (length tail)) in *.
  assert (0 ≤ t) as Ht0 by (unfold t; lia).
  assert (t + 1 = cl) as Ht.
  { rewrite Hlen in Hmod.
    replace (Z.of_nat (length ds) * cl + t + 1)
      with (t + 1 + Z.of_nat (length ds) * cl) in Hmod by lia.
    rewrite Z_mod_plus_full in Hmod.
    destruct (decide (t + 1 = cl)); [done|].
    rewrite Z.mod_small in Hmod by lia. lia. }
  assert (Z.of_nat (length (tail ++ [v])) = cl) as Hlen1
    by (rewrite length_app; simpl; lia).
  set (s1 := mkBigArray ((Spilled <$> fs) ++ [Resident (tail ++ [v])]) (chunk_length s)
               (cache s) (filenames s) (_size_counter s) (_closed s)
               (_compress_level s)).
  assert (len_last (s1, w) = (Ok cl, (s1, w))) as Hll.
  { rewrite <- Hlen1. by apply (len_last_resident s1 w (Spilled <$> fs)). }
  assert (len (s1, w) = (Ok (Z.of_nat (length (concat ds)) + t + 1), (s1, w))) as Hl1.
  { subst s1. unfold len, __len__. mstep. rewrite Hopen in Hll |- *. mstep.
    rewrite length_app, length_fmap. cbn [length].
    destruct fs as [|f fs]; cbn [length Nat.add Nat.eqb].
    + destruct ds; [|done]. simpl in Hlen. rewrite Hll. mstep.
      destruct (Z.ltb_spec cl 0); [lia|].
      destruct (Z.ltb_spec sys_maxsize cl); [lia|].
      do 2 f_equal. simpl. lia.
    + destruct (Nat.eqb_spec (length fs + 1) 0) as [E|_]; [clear -E; lia|].
      mstep. rewrite Hll. mstep. fold cl.
      cbn [length] in Hcount. rewrite Hcount in Hlen.
      set (n := (Z.of_nat (S (length fs + 1)) - 1) * cl + cl).
      assert (n = Z.of_nat (length (concat ds)) + t + 1) as Hn by (unfold n; lia).
      destruct (Z.ltb_spec n 0); [lia|].
      destruct (Z.ltb_spec sys_maxsize n); [lia|].
      do 2 f_equal. lia. }
  exists s1. split_and!; [|exact Hl1| |done].
  - subst s1. unfold append. mstep. rewrite Hopen. mstep.
    rewrite Hchunks, last_snoc. mstep. rewrite removelast_last.
    rewrite append_size_chunk_fixed by exact Hu. mstep.
    unfold append_spill. mstep. rewrite Hll. mstep.
    fold cl. rewrite Z.leb_refl. rewrite last_snoc.
    mstep. rewrite (dump_mkstemp_fault _ _ _ _ Hm). by rewrite Hopen.
  - unfold __getitem__. mstep. unfold s1 at 1. cbn [_closed]. rewrite Hopen. mstep.
    rewrite Hl1. mstep.
    set (n := Z.of_nat (length (concat ds)) + t + 1).
    assert (-1 + n = cl * Z.of_nat (length fs) + t) as Hq
      by (unfold n; rewrite Hlen, Hcount; lia).
    assert ((-1 + n) / cl = Z.of_nat (length fs)) as Hdiv
      by (symmetry; apply (Z.div_unique_pos _ _ _ t); [lia|exact Hq]).
    assert ((-1 + n) mod cl = t) as Hrem
      by (symmetry; apply (Z.mod_unique_pos _ _ (Z.of_nat (length fs))); [lia|exact Hq]).
    destruct (Z.eqb_spec n 0); [unfold n in *; lia|].
    change (-1 <? 0) with true. cbv iota.
    destruct (Z.ltb_spec (-1 + n) 0); [unfold n in *; lia|].
    destruct (Z.leb_spec n (-1 + n)); [lia|]. mstep.
    unfold s1 at 1 2 3 4. cbn [chunk_length chunks]. fold cl.
    destruct (Z.eqb_spec cl 0); [lia|]. mstep.
    rewrite Hdiv, Hrem.
    rewrite py_getitem_nonneg by lia. rewrite Nat2Z.id.
    rewrite list_lookup_middle by (by rewrite length_fmap). mstep.
    rewrite py_getitem_nonneg by lia. unfold t. rewrite Nat2Z.id.
    rewrite list_lookup_middle by done. reflexivity.
Qed.


Lemma checkcache_file_gone s w index f :
  py_getitem (chunks s) index = Some (Spilled f) → cache s = None →
  files w !! f = None →
  _checkcache index (s, w)
  = (Raise (SqlmapSystemException
              (retrieve_message
                 (OSError ("[Errno 2] No such file or directory: '" +:+ f +:+ "'")))),
     (s, w)).
Proof.
  intros Hf Hc Hgone.
  pose proof (checkcache_flushed s w index f
                (Raise (OSError ("[Errno 2] No such file or directory: '" +:+ f +:+ "'"))))
    as Hcc.
  cbv beta iota in Hcc. apply Hcc; [done| | |].
  - unfold slot_flushed. by rewrite Hc.
  - intros s0. unfold read_file. mstep. by rewrite Hgone.
  - intros d. unfold stored. by rewrite Hgone.
Qed.

(** Reading position [key] of a container with an empty slot, when the
    file of the chunk that holds the position is gone. *)
Lemma getitem_file_gone s w n key f :
  _closed s = false → len (s, w) = (Ok n, (s, w)) → 0 ≤ key < n →
  0 < chunk_length s →
  chunks s !! Z.to_nat (key / chunk_length s) = Some (Spilled f) →
  cache s = None → files w !! f = None →
  __getitem__ key (s, w)
  = (Raise (SqlmapSystemException
              (retrieve_message
                 (OSError ("[Errno 2] No such file or directory: '" +:+ f +:+ "'")))),
     (s, w)).
Proof.
  intros Ho Hlen Hk Hcl Hf Hc Hgone.
  assert (0 ≤ key / chunk_length s) as Hq by (apply Z.div_pos; lia).
  unfold __getitem__. mstep. rewrite Ho. mstep. rewrite Hlen. mstep.
  destruct (Z.eqb_spec n 0); [lia|].
  destruct (Z.ltb_spec key 0); [lia|]. cbv iota.
  destruct (Z.ltb_spec key 0); [lia|].
  destruct (Z.leb_spec n key); [lia|]. mstep.
  destruct (Z.eqb_spec (chunk_length s) 0); [lia|]. mstep.
  rewrite (py_getitem_nonneg _ _ Hq), Hf. mstep.
  rewrite (checkcache_file_gone s w _ f); [done| |done|done].
  by rewrite (py_getitem_nonneg _ _ Hq).
Qed.

(** X16.  Reading an element of a spilled chunk whose file is gone raises
    [SqlmapSystemException] with the operating system's message wrapped in
    the retrieval text, and changes nothing: the slot stays empty and the
    same read fails again. *)
Theorem get_after_file_loss s w w' vs key f :
  Repr s w vs → cache s = None → 0 ≤ key < Z.of_nat (length vs) →
  chunks s !! Z.to_nat (key / chunk_length s) = Some (Spilled f) →
  files w' !! f = None →
  __getitem__ key (s, w')
  = (Raise (SqlmapSystemException
              (retrieve_message
                 (OSError ("[Errno 2] No such file or directory: '" +:+ f +:+ "'")))),
     (s, w')).
Proof.
  intros R Hc Hk Hf Hgone.
  pose proof (len_Repr _ _ _ R) as Hlen.
  destruct (len_frame s s w w' eq_refl eq_refl eq_refl) as (r & E & E').
  rewrite Hlen in E. injection E as <-.
  destruct R as (fs & ds & tail & L & ->).
  pose proof (lay_tail _ _ _ _ _ L) as Ht.
  apply (getitem_file_gone s w' (Z.of_nat (length (concat ds ++ tail)))); try done.
  - apply (lay_open _ _ _ _ _ L).
  - lia.
Qed.

(** ** Used as a stack *)

(** X17.  On a well-formed container whose cache slot is empty, [append]
    followed by [pop] returns the appended element and leaves the same
    sequence, with the slot still empty: a container only ever pushed to
    and popped from behaves as a stack.  The file written when the append
    filled a chunk is read back by [pop] but not removed. *)
Theorem append_then_pop s w vs v :
  Repr s w vs → cache s = None → healthy w →
  (undetermined s = true → hashable v = true) →
  Z.of_nat (length vs) + 1 < sys_maxsize →
  ∃ s1 w1 s2,
    append' v (s, w) = (Ok tt, (s1, w1))
    ∧ pop (s1, w1) = (Ok v, (s2, w1))
    ∧ Repr s2 w1 vs ∧ cache s2 = None ∧ healthy w1.
Proof.
  intros R Hc Hw Hv Hb.
  destruct (append_Repr BIGARRAY_CHUNK_SIZE getsizeof s w vs v R Hw Hv Hb)
    as (s1 & w1 & E1 & (fs & ds & tail & L1 & Hvs) & Hw1 & _).
  pose proof (slot_append None v (s, w) Hc) as Hc1. rewrite E1 in Hc1. simpl in Hc1.
  pose proof (pop_Layout s1 w1 fs ds tail L1) as Hp.
  rewrite <- Hvs, last_snoc, removelast_last in Hp.
  destruct Hp as (s2 & fs2 & ds2 & tail2 & E2 & L2 & Hvs2 & Hc2).
  { unfold slot_off_last. by rewrite Hc1. }
  exists s1, w1, s2. split_and!; try done.
  - by exists fs2, ds2, tail2.
  - congruence.
Qed.

(** ** Two containers over one file system *)

Lemma stored_mono w w' f d :
  files w ⊆ files w' → stored w f = Some d → stored w' f = Some d.
Proof.
  unfold stored. intros Hsub H.
  destruct (files w !! f) as [[|lvl d']|] eqn:E; try done.
  by rewrite (lookup_weaken _ _ _ _ E Hsub).
Qed.

(** A container stays well formed when files are added around it. *)
Lemma Layout_mono s w w' fs ds tail :
  Layout s w fs ds tail → files w ⊆ files w' → Layout s w' fs ds tail.
Proof.
  intros [Hopen Hchunks Hcount Hfull Htail Hfiles Hslot Hsz Hb Hlvl] Hsub.
  constructor; try done.
  intros k f d Hf Hd. specialize (Hfiles k f d Hf Hd). unfold chunk_ok in *.
  destruct (slot_at s k) as [c|].
  - destruct Hfiles as [H1 H2]. split; [done|]. intros Hc.
    apply (stored_mono w); [done|by apply H2].
  - by apply (stored_mono w).
Qed.

Lemma Repr_mono s w w' vs : Repr s w vs → files w ⊆ files w' → Repr s w' vs.
Proof.
  intros (fs & ds & tail & L & ->) Hsub. exists fs, ds, tail.
  split; [by apply (Layout_mono s w)|done].
Qed.

Lemma grows_dump w0 d : maintains (λ st, files w0 ⊆ files (snd st)) (_dump d).
Proof.
  intros [s w] H. simpl in *.
  unfold _dump, try_except, mkstemp, compress, write_file. mstep.
  destruct (mkstemp_fault w) as [err|]; [done|]. mstep.
  set (f := fresh (dom (files w))).
  assert (files w !! f = None) as Hf by (apply not_elem_of_dom, is_fresh).
  assert (∀ b, files w0 ⊆ <[f := b]> (files w)) as Hnew.
  { intros b. etrans; [exact H|]. by apply insert_subseteq. }
  destruct (valid_level (_compress_level s)); mstep; [|apply Hnew].
  destruct (write_fault w) as [err|]; mstep.
  - cbn [is_OSError]. mstep. apply Hnew.
  - rewrite insert_insert_eq. apply Hnew.
Qed.

Lemma grows_getitem w0 k : maintains (λ st, files w0 ⊆ files (snd st)) (__getitem__ k).
Proof. apply sustained_getitem; try (by intros ? [? ?] ?). apply grows_dump. Qed.

Lemma grows_append w0 v : maintains (λ st, files w0 ⊆ files (snd st)) (append' v).
Proof. apply sustained_append; try (by intros ? [? ?] ?). apply grows_dump. Qed.

Lemma grows_extend w0 vs : maintains (λ st, files w0 ⊆ files (snd st)) (extend' vs).
Proof. apply sustained_extend; try (by intros ? [? ?] ?). apply grows_dump. Qed.

(** One round of a copying loop: read position [i] of [s], append it to
    [r]. *)
Lemma copy_step s w r vs acc i :
  Repr s w vs → Repr r w acc → healthy w →
  0 ≤ i < Z.of_nat (length vs) →
  (∀ x, vs !! Z.to_nat i = Some x → undetermined r = true → hashable x = true) →
  Z.of_nat (length acc) + 1 < sys_maxsize →
  ∃ x s' w' r' w'',
    __getitem__ i (s, w) = (Ok x, (s', w'))
    ∧ vs !! Z.to_nat i = Some x
    ∧ append' x (r, w') = (Ok tt, (r', w''))
    ∧ Repr s' w'' vs ∧ Repr r' w'' (acc ++ [x]) ∧ healthy w''
    ∧ (undetermined r = false → undetermined r' = false).
Proof.
  intros R Rr Hw Hi Hh Hb.
  destruct (getitem_Repr s w vs i R Hw Hi) as (x & s' & w' & E & Hx & R' & Hw').
  pose proof (grows_getitem w i (s, w) (reflexivity _)) as Hsub.
  rewrite E in Hsub. simpl in Hsub.
  pose proof (Repr_mono r w w' acc Rr Hsub) as Rr'.
  destruct (append_Repr BIGARRAY_CHUNK_SIZE getsizeof r w' acc x Rr' Hw' (Hh x Hx) Hb)
    as (r' & w'' & E2 & Rr'' & Hw'' & Hu).
  pose proof (grows_append w' x (r, w') (reflexivity _)) as Hsub2.
  rewrite E2 in Hsub2. simpl in Hsub2.
  exists x, s', w', r', w''. split_and!; try done.
  by apply (Repr_mono s' w').
Qed.

Lemma omap_cons_Some {A B} (f : A → option B) x y l :
  f x = Some y → omap f (x :: l) = y :: omap f l.
Proof. intros H. simpl. by rewrite H. Qed.

Lemma getslice_loop_Repr vs indices : ∀ s w r acc,
  Repr s w vs → Repr r w acc → healthy w →
  Forall (λ i, 0 ≤ i < Z.of_nat (length vs)) indices →
  (undetermined r = true →
   Forall (λ v, hashable v = true) (omap (λ i, vs !! Z.to_nat i) indices)) →
  Z.of_nat (length acc) + Z.of_nat (length indices) < sys_maxsize →
  ∃ s' w' r',
    getslice_loop' indices r (s, w) = (Ok r', (s', w'))
    ∧ Repr s' w' vs
    ∧ Repr r' w' (acc ++ omap (λ i, vs !! Z.to_nat i) indices)
    ∧ healthy w'.
Proof.
  induction indices as [|i indices IH]; intros s w r acc R Rr Hw Hi Hh Hb.
  { exists s, w, r. rewrite app_nil_r. done. }
  apply Forall_cons in Hi as [Hi His]. cbn [length] in Hb.
  destruct (copy_step s w r vs acc i R Rr Hw Hi)
    as (x & s1 & w1 & r1 & w2 & E1 & Hx & E2 & R1 & Rr1 & Hw2 & Hu); [|lia|].
  { intros x Hx Hund. specialize (Hh Hund).
    rewrite (omap_cons_Some (λ j, vs !! Z.to_nat j) i x indices Hx) in Hh. by apply Forall_cons in Hh as [? _]. }
  destruct (IH s1 w2 r1 (acc ++ [x]) R1 Rr1 Hw2 His)
    as (s3 & w3 & r3 & E3 & R3 & Rr3 & Hw3).
  { intros Hund. destruct (undetermined r) eqn:Hur; [|by rewrite Hu in Hund].
    specialize (Hh eq_refl).
    rewrite (omap_cons_Some (λ j, vs !! Z.to_nat j) i x indices Hx) in Hh. by apply Forall_cons in Hh as [_ ?]. }
  { rewrite length_app. simpl. lia. }
  exists s3, w3, r3. split_and!; try done.
  - cbn [getslice_loop]. mstep. rewrite E1. mstep.
    unfold on_object. cbn [fst snd]. rewrite E2. cbn [fst snd]. exact E3.
  - rewrite (omap_cons_Some (λ j, vs !! Z.to_nat j) i x indices Hx). by rewrite <- app_assoc in Rr3.
Qed.

Lemma new_ok s w :
  new' (s, w)
  = (Ok (mkBigArray [Resident []] sys_maxsize None ∅ (Some 0) false
           BIGARRAY_COMPRESS_LEVEL), (s, w)).
Proof.
  unfold BigArray_new, on_object, __init__. mstep. rewrite Z.eqb_refl. done.
Qed.

Lemma slice_indices_bounds key n a b c :
  0 ≤ n → slice_indices key n = Ok (a, b, c) →
  c ≠ 0
  ∧ (0 < c → 0 ≤ a ≤ n ∧ 0 ≤ b ≤ n)
  ∧ (c < 0 → -1 ≤ a ≤ n - 1 ∧ -1 ≤ b ≤ n - 1).
Proof.
  intros Hn. unfold slice_indices.
  destruct (Z.eqb_spec (default 1 (Slice.step key)) 0) as [|Hc]; [done|].
  intros [= <- <- <-]. split; [done|].
  destruct (Z.ltb_spec (default 1 (Slice.step key)) 0);
    (split; [intros ?|intros ?]; try lia);
    (split;
     [destruct (Slice.start key) as [i|]|destruct (Slice.stop key) as [i|]];
     try lia; destruct (Z.ltb_spec i 0); lia).
Qed.

Lemma py_range_elem a b c i :
  c ≠ 0 → i ∈ py_range a b c →
  (0 < c ∧ a ≤ i < b) ∨ (c < 0 ∧ b < i ≤ a).
Proof.
  intros Hc. unfold py_range, range_len.
  intros (k & -> & Hk)%list_elem_of_fmap. apply elem_of_seq in Hk.
  destruct (Z.ltb_spec 0 c) as [Hpos|Hneg].
  - left. split; [done|].
    destruct (Z.ltb_spec a b) as [Hab|Hab]; [|simpl in Hk; lia].
    assert (0 ≤ (b - a - 1) / c) by (apply Z.div_pos; lia).
    assert (Z.of_nat k ≤ (b - a - 1) / c) as Hle by lia.
    assert (c * ((b - a - 1) / c) ≤ b - a - 1) by (apply Z.mul_div_le; lia).
    nia.
  - right. split; [lia|].
    destruct (Z.ltb_spec b a) as [Hab|Hab]; [|simpl in Hk; lia].
    assert (0 ≤ (a - b - 1) / - c) by (apply Z.div_pos; lia).
    assert (Z.of_nat k ≤ (a - b - 1) / - c) as Hle by lia.
    assert (- c * ((a - b - 1) / - c) ≤ a - b - 1) by (apply Z.mul_div_le; lia).
    nia.
Qed.

Lemma py_range_length a b c :
  c ≠ 0 → Z.of_nat (length (py_range a b c)) ≤ Z.max 0 (Z.abs (b - a)).
Proof.
  intros Hc. unfold py_range, range_len. rewrite length_fmap, length_seq.
  destruct (Z.ltb_spec 0 c) as [Hpos|Hneg].
  - destruct (Z.ltb_spec a b) as [Hab|Hab]; [|simpl; lia].
    assert (0 ≤ (b - a - 1) / c) by (apply Z.div_pos; lia).
    assert ((b - a - 1) / c ≤ b - a - 1) by (apply Z.div_le_upper_bound; nia).
    lia.
  - destruct (Z.ltb_spec b a) as [Hab|Hab]; [|simpl; lia].
    assert (0 ≤ (a - b - 1) / - c) by (apply Z.div_pos; lia).
    assert ((a - b - 1) / - c ≤ a - b - 1) by (apply Z.div_le_upper_bound; nia).
    lia.
Qed.

Lemma slice_range_valid key n a b c :
  0 ≤ n → slice_indices key n = Ok (a, b, c) →
  Forall (λ i, 0 ≤ i < n) (py_range a b c)
  ∧ Z.of_nat (length (py_range a b c)) ≤ n.
Proof.
  intros Hn E. destruct (slice_indices_bounds key n a b c Hn E) as (Hc & Hpos & Hneg).
  split.
  - apply Forall_forall. intros i Hi.
    destruct (py_range_elem a b c i Hc Hi) as [[H1 H2]|[H1 H2]].
    + specialize (Hpos H1). lia.
    + specialize (Hneg H1). lia.
  - pose proof (py_range_length a b c Hc).
    destruct (Z.ltb_spec 0 c) as [H1|H1].
    + specialize (Hpos H1). lia.
    + assert (c < 0) as H2 by lia. specialize (Hneg H2). lia.
Qed.

Lemma slice_selects {A} (vs : list A) (i : Z) (n m : nat) :
  0 ≤ i → (Z.to_nat i + m + n ≤ length vs)%nat →
  omap (λ k, vs !! Z.to_nat k) ((λ k, i + Z.of_nat k * 1) <$> seq m n)
  = take n (drop (Z.to_nat i + m) vs).
Proof.
  intros Hi. revert m. induction n as [|n IH]; intros m Hb; [done|].
  cbn [seq fmap list_fmap].
  destruct (lookup_lt_is_Some_2 vs (Z.to_nat i + m)) as [x Hx]; [lia|].
  rewrite (omap_cons_Some (λ k, vs !! Z.to_nat k) _ x).
  - rewrite (drop_S _ _ _ Hx). cbn [take]. f_equal.
    rewrite IH by lia. do 2 f_equal. lia.
  - cbv beta. rewrite <- Hx. f_equal. lia.
Qed.

(** A plain slice [l[i:j]] with [0 ≤ i ≤ j ≤ len(l)] is the sublist from
    [i] up to [j]. *)
Lemma py_slice_plain {A} (l : list A) (i j : Z) :
  0 ≤ i ≤ j → j ≤ Z.of_nat (length l) →
  slice_indices (Slice.mk (Some i) (Some j) None) (Z.of_nat (length l)) = Ok (i, j, 1)
  ∧ range_len i j 1 = j - i.
Proof.
  intros Hi Hj. unfold slice_indices, range_len. cbn.
  destruct (Z.ltb_spec i 0); [lia|]. destruct (Z.ltb_spec j 0); [lia|].
  rewrite !Z.min_l by lia. split; [done|].
  destruct (Z.ltb_spec i j); [|lia]. rewrite Z.div_1_r. lia.
Qed.

(** X18.  [a[key]] with a slice [key] on a well-formed container returns a
    new well-formed container over the same file system holding what the
    same slice of the list holds, and leaves [a] holding its sequence.
    The selected elements must be hashable, because the result is built by
    [BigArray()] with adaptive sizing, whatever the chunk size of [a]; a
    step of zero raises [ValueError] and changes nothing.  For
    [0 ≤ i ≤ j ≤ len(a)], the slice [a[i:j]] holds the elements from
    position [i] up to [j]. *)
Theorem getslice_is_list_slice s w vs key :
  Repr s w vs → healthy w → valid_level BIGARRAY_COMPRESS_LEVEL = true →
  (∀ sel, py_slice vs key = Some sel → Forall (λ v, hashable v = true) sel) →
  match py_slice vs key with
  | Some sel =>
      (∃ s' w' r,
         getitem_slice' key (s, w) = (Ok r, (s', w'))
         ∧ Repr s' w' vs ∧ Repr r w' sel ∧ healthy w')
      ∧ (∀ i j, key = Slice.mk (Some i) (Some j) None →
                0 ≤ i ≤ j → j ≤ Z.of_nat (length vs) →
                sel = take (Z.to_nat (j - i)) (drop (Z.to_nat i) vs))
  | None =>
      getitem_slice' key (s, w)
      = (Raise (ValueError "slice step cannot be zero"), (s, w))
  end.
Proof.
  intros R Hw Hl Hh.
  assert (_closed s = false) as Ho.
  { destruct R as (fs & ds & tail & L & _). apply (lay_open _ _ _ _ _ L). }
  assert (Z.of_nat (length vs) < sys_maxsize) as Hb.
  { destruct R as (fs & ds & tail & L & ->). apply (lay_bound _ _ _ _ _ L). }
  unfold py_slice in *.
  destruct (slice_indices key (Z.of_nat (length vs))) as [[[a b] c]|e] eqn:E.
  - destruct (slice_range_valid key _ a b c (Zle_0_nat _) E) as [Hval Hlen].
    split.
    + destruct (getslice_loop_Repr vs (py_range a b c) s w _ [] R (default_Repr w Hl) Hw
                  Hval) as (s' & w' & r & E1 & R' & Rr & Hw').
      { intros _. by apply Hh. }
      { simpl. lia. }
      exists s', w', r. split_and!; try done.
      unfold getitem_slice, _getslice. mstep. rewrite Ho. mstep.
      rewrite (len_Repr _ _ _ R). mstep. rewrite E. mstep.
      rewrite new_ok. mstep.
      destruct (Z.eqb_spec c 1) as [->|_]; exact E1.
    + intros i j -> Hi Hj.
      destruct (py_slice_plain vs i j Hi Hj) as [E' Hrl].
      rewrite E' in E. injection E as <- <- <-.
      unfold py_range. rewrite Hrl.
      rewrite (slice_selects vs i (Z.to_nat (j - i)) 0) by lia.
      by rewrite Nat.add_0_r.
  - revert E. unfold slice_indices.
    destruct (default 1 (Slice.step key) =? 0) eqn:Hz; [|done]. intros [= <-].
    unfold getitem_slice, _getslice. mstep. rewrite Ho. mstep.
    rewrite (len_Repr _ _ _ R). mstep. unfold slice_indices. rewrite Hz. done.
Qed.

Lemma copy_loop_Repr vs n : ∀ s w r acc i,
  Repr s w vs → Repr r w acc → healthy w →
  0 ≤ i → i + Z.of_nat n ≤ Z.of_nat (length vs) →
  Forall (λ v, hashable v = true) vs →
  Z.of_nat (length acc) + Z.of_nat n < sys_maxsize →
  ∃ s' w' r',
    copy_loop' n i r (s, w) = (Ok r', (s', w'))
    ∧ Repr s' w' vs
    ∧ Repr r' w' (acc ++ take n (drop (Z.to_nat i) vs))
    ∧ healthy w'.
Proof.
  induction n as [|n IH]; intros s w r acc i R Rr Hw Hi Hn Hh Hb.
  { exists s, w, r. rewrite app_nil_r. done. }
  destruct (copy_step s w r vs acc i R Rr Hw)
    as (x & s1 & w1 & r1 & w2 & E1 & Hx & E2 & R1 & Rr1 & Hw2 & Hu); [lia| |lia|].
  { intros x Hx _. rewrite Forall_forall in Hh. apply Hh.
    by apply (list_elem_of_lookup_2 _ (Z.to_nat i)). }
  destruct (IH s1 w2 r1 (acc ++ [x]) (i + 1) R1 Rr1 Hw2)
    as (s3 & w3 & r3 & E3 & R3 & Rr3 & Hw3); [lia|lia|done| |].
  { rewrite length_app. simpl. lia. }
  exists s3, w3, r3. split_and!; try done.
  - cbn [copy_loop]. unfold try_except. mstep. rewrite E1. mstep.
    unfold on_object. cbn [fst snd]. rewrite E2. cbn [fst snd]. exact E3.
  - rewrite (drop_S _ _ _ Hx). cbn [take]. rewrite <- app_assoc in Rr3.
    replace (S (Z.to_nat i)) with (Z.to_nat (i + 1)) by lia. exact Rr3.
Qed.

Lemma extend_Repr s w vs ws :
  Repr s w vs → healthy w →
  (undetermined s = true → Forall (λ v, hashable v = true) ws) →
  Z.of_nat (length vs) + Z.of_nat (length ws) < sys_maxsize →
  ∃ s' w', extend' ws (s, w) = (Ok tt, (s', w')) ∧ Repr s' w' (vs ++ ws) ∧ healthy w'.
Proof.
  intros R Hw Hv Hb.
  destruct (for_each_append_Repr BIGARRAY_CHUNK_SIZE getsizeof ws s w vs R Hw Hv Hb)
    as (s' & w' & E & R' & Hw' & _).
  destruct R as (fs & ds & tail & L & _).
  exists s', w'. split_and!; try done.
  unfold extend. mstep. by rewrite (lay_open _ _ _ _ _ L).
Qed.

(** X19.  [a + b] on a well-formed container of hashable elements returns
    a new well-formed container over the same file system holding the
    elements of [a] followed by those of [b], and leaves [a] holding its
    own sequence; [a += b] instead changes [a] itself to hold both.  All
    elements must be hashable for [a + b], because the copy is built by
    [BigArray(a)] with adaptive sizing, whatever the chunk size of [a]. *)
Theorem add_concatenates s w vs ws :
  Repr s w vs → healthy w → valid_level BIGARRAY_COMPRESS_LEVEL = true →
  Forall (λ v, hashable v = true) (vs ++ ws) →
  Z.of_nat (length vs) + Z.of_nat (length ws) < sys_maxsize →
  (∃ s' w' r,
     add' ws (s, w) = (Ok r, (s', w'))
     ∧ Repr s' w' vs ∧ Repr r w' (vs ++ ws) ∧ healthy w')
  ∧ (∃ s' w',
       iadd' ws (s, w) = (Ok tt, (s', w'))
       ∧ Repr s' w' (vs ++ ws) ∧ healthy w').
Proof.
  intros R Hw Hl Hh Hb. apply Forall_app in Hh as [Hvs Hws]. split.
  - destruct (copy_loop_Repr vs (length vs) s w _ [] 0 R (default_Repr w Hl) Hw)
      as (s1 & w1 & r1 & E1 & R1 & Rr1 & Hw1); [lia|lia|done|simpl; lia|].
    rewrite firstn_all in Rr1. simpl in Rr1.
    destruct (extend_Repr r1 w1 vs ws Rr1 Hw1 (λ _, Hws) Hb)
      as (r2 & w2 & E2 & Rr2 & Hw2).
    pose proof (grows_extend w1 ws (r1, w1) (reflexivity _)) as Hsub.
    rewrite E2 in Hsub. simpl in Hsub.
    exists s1, w2, r2. split_and!; try done; [|by apply (Repr_mono s1 w1)].
    unfold __add__. mstep. rewrite new_ok. mstep.
    rewrite (len_Repr _ _ _ R). mstep. rewrite Nat2Z.id, E1. mstep.
    unfold on_object. cbn [fst snd]. rewrite E2. done.
  - by apply extend_Repr.
Qed.

(** ** Display and scope exit *)

(** X20.  [repr] of a well-formed container shows the open chunk only:
    the elements after the last full chunk, preceded by ["..."] exactly
    when something has been spilled; right after a spill that is ["...[]"].
    It reads no file and changes nothing.  A closed container shows as
    ["BigArray(closed)"]. *)
Theorem repr_shows_open_chunk (repr_list : list pyval → string)
    (repr_str : string → string) s w vs :
  Repr s w vs →
  __repr__ repr_list repr_str (s, w)
  = (Ok ((if Z.of_nat (length vs) <? chunk_length s then "" else "...")
         +:+ repr_list
               (drop (Z.to_nat (Z.of_nat (length vs) / chunk_length s * chunk_length s))
                  vs)), (s, w))
  ∧ ∀ s0, _closed s0 = true →
          __repr__ repr_list repr_str (s0, w) = (Ok "BigArray(closed)", (s0, w)).
Proof.
  intros (fs & ds & tail & L & ->). split.
  - pose proof L as [Hopen Hchunks Hcount Hfull Htail Hfiles Hslot Hsz Hb Hlvl].
    pose proof (concat_uniform_length _ _ Hfull) as Hlen.
    set (cl := chunk_length s) in *.
    assert (Z.of_nat (length (concat ds ++ tail)) / cl = Z.of_nat (length ds)) as Hq.
    { rewrite length_app, Nat2Z.inj_add, Hlen. symmetry.
      apply (Z.div_unique_pos _ _ _ (Z.of_nat (length tail))); lia. }
    rewrite Hq, <- Hlen, Nat2Z.id, drop_app_length.
    unfold __repr__. mstep. rewrite Hopen, Hchunks, last_snoc.
    rewrite length_app, length_fmap. cbn [length]. fold cl.
    do 3 f_equal.
    assert (Z.of_nat (length (concat ds ++ tail))
            = Z.of_nat (length fs) * cl + Z.of_nat (length tail)) as Hn
      by (rewrite length_app, Nat2Z.inj_add, Hlen, Hcount; done).
    destruct (Nat.ltb_spec 1 (length fs + 1));
      destruct (Z.ltb_spec (Z.of_nat (length (concat ds ++ tail))) cl);
      try done; exfalso; nia.
  - intros s0 H. unfold __repr__. mstep. by rewrite H.
Qed.


(** ** Reading and writing when the file system fails *)

Lemma Layout_registry s w fs ds tail fn :
  Layout s w fs ds tail →
  Layout (mkBigArray (chunks s) (chunk_length s) (cache s) fn (_size_counter s)
            (_closed s) (_compress_level s)) w fs ds tail.
Proof. intros []. by constructor. Qed.

(** A [_dump] that fails leaves the layout as it was. *)
Lemma dump_fails_Layout s w fs ds tail d :
  Layout s w fs ds tail →
  mkstemp_fault w ≠ None ∨ write_fault w ≠ None →
  ∃ msg s' w',
    _dump d (s, w) = (Raise (SqlmapSystemException msg), (s', w'))
    ∧ Layout s' w' fs ds tail
    ∧ mkstemp_fault w' = mkstemp_fault w ∧ write_fault w' = write_fault w.
Proof.
  intros L Hbad.
  unfold _dump, try_except, mkstemp, compress, write_file. mstep.
  destruct (mkstemp_fault w) as [err|] eqn:Hm.
  { cbn [is_OSError]. mstep. eexists _, s, w. by split_and!. }
  destruct Hbad as [|Hbad]; [done|]. mstep.
  rewrite (lay_level _ _ _ _ _ L). mstep.
  destruct (write_fault w) as [err|] eqn:Hwf; [|done].
  cbn [is_OSError]. mstep. eexists _, _, _. split; [reflexivity|].
  split; [|done].
  apply Layout_registry. apply (Layout_mono s w); [done|]. simpl.
  apply insert_subseteq, not_elem_of_dom, is_fresh.
Qed.

Lemma checkcache_any s w fs ds tail k f d :
  Layout s w fs ds tail → fs !! k = Some f → ds !! k = Some d →
  ∃ r s' w' fs',
    _checkcache (Z.of_nat k) (s, w) = (r, (s', w'))
    ∧ Layout s' w' fs' ds tail
    ∧ mkstemp_fault w' = mkstemp_fault w ∧ write_fault w' = write_fault w
    ∧ match r with
      | Ok _ =>
          ∃ dirty', cache s' = Some (Cache.new (Z.of_nat k) d dirty')
                    ∧ chunk_length s' = chunk_length s
      | Raise e => ∃ msg, e = SqlmapSystemException msg
      end.
Proof.
  intros L Hf Hd.
  destruct (mkstemp_fault w) as [e1|] eqn:Hm; [|destruct (write_fault w) as [e2|] eqn:Hwf];
    cycle 2.
  { destruct (checkcache_Layout s w fs ds tail k f d L (conj Hm Hwf) Hf Hd)
      as (s' & w' & fs' & dirty' & E & Hc & _ & L' & [Hm' Hwf'] & Hcl).
    exists (Ok tt), s', w', fs'. split_and!; try done; eauto. }
  all: assert (mkstemp_fault w ≠ None ∨ write_fault w ≠ None) as Hbad
         by (rewrite ?Hm, ?Hwf; auto).
  all: unfold _checkcache; unfold bind at 1;
    unfold _checkcache_write_dirty; mstep.
  all: destruct (cache s) as [c|] eqn:Hc.
  all: try (destruct (Z.eqb_spec (Cache.index c) (Z.of_nat k)) as [E|E]; cbn [negb andb];
            [|destruct (Cache.dirty c) eqn:Hdirty]).
  all: try (match goal with |- context [_dump ?x ?st] =>
              destruct (dump_fails_Layout s w fs ds tail x L Hbad)
                as (msg & s' & w' & -> & L' & Hm' & Hwf');
              exists (Raise (SqlmapSystemException msg)), s', w', fs;
              split_and!; try done; try congruence; eauto
            end).
  all: destruct (load_Layout s w fs ds tail k f d L) as (s' & dirty' & E' & Hc' & _ & L' & Hcl);
    [rewrite Hc; auto|done|done|];
    exists (Ok tt), s', w, fs; rewrite E'; split_and!; try done; eauto.
Qed.


(** X23.  Writing is all or nothing.  On any file system, working or not,
    [set(i, v)] at a position of a well-formed container either returns
    and the container holds the sequence with [v] at position [i], or
    raises [SqlmapSystemException] and the container holds the sequence it
    held before. *)
Theorem set_is_all_or_nothing s w vs i v :
  Repr s w vs → 0 ≤ i < Z.of_nat (length vs) →
  ∃ r s' w',
    __setitem__ i v (s, w) = (r, (s', w'))
    ∧ ((r = Ok tt ∧ Repr s' w' (<[Z.to_nat i := v]> vs))
       ∨ ((∃ msg, r = Raise (SqlmapSystemException msg)) ∧ Repr s' w' vs)).
Proof.
  intros (fs & ds & tail & L & ->) Hi.
  unfold __setitem__. mstep. rewrite (lay_open _ _ _ _ _ L). mstep.
  rewrite (len_Layout _ _ _ _ _ L). mstep.
  destruct (Z.ltb_spec i 0); [lia|]. mstep.
  destruct (Z.ltb_spec i 0); [lia|].
  destruct (Z.leb_spec (Z.of_nat (length (concat ds ++ tail))) i); [lia|].
  mstep.
  pose proof (lay_tail _ _ _ _ _ L) as Ht.
  destruct (Z.eqb_spec (chunk_length s) 0); [lia|]. mstep.
  pose proof (lay_full _ _ _ _ _ L) as Hfull.
  pose proof (concat_uniform_length _ _ Hfull) as Hlen.
  rewrite length_app in Hi.
  destruct (Z.lt_ge_cases i (Z.of_nat (length ds) * chunk_length s)) as [Hsp|Htl].
  - destruct (chunk_addr_spilled _ ds tail i v Hfull) as (Hq & Hr & d & Hd & _ & Hset);
      [lia|].
    set (k := Z.to_nat (i / chunk_length s)) in *.
    destruct (lookup_lt_is_Some_2 fs k) as [f Hf];
      [rewrite <- (lay_count _ _ _ _ _ L); lia|].
    replace (i / chunk_length s) with (Z.of_nat k) by lia.
    rewrite (Layout_token _ _ _ _ _ _ _ L Hf). mstep.
    destruct (checkcache_any s w fs ds tail k f d L Hf Hd)
      as (r & s' & w' & fs' & E & L' & _ & _ & Hr').
    rewrite E. destruct r as [[]|e].
    + destruct Hr' as (dirty' & Hc & Hcl). mstep. rewrite Hc. mstep.
      rewrite py_setitem_in_range.
      2:{ rewrite (Forall_lookup_1 _ _ _ _ Hfull Hd). lia. }
      mstep. eexists _, _, w'. split; [reflexivity|]. left. split; [done|].
      eexists fs', _, tail. split; [|exact Hset].
      apply (Layout_write_slot s' w' fs' ds tail k d _ v dirty' L' Hc Hd).
    + destruct Hr' as [msg ->].
      eexists _, s', w'. split; [reflexivity|]. right.
      split; [eauto|by exists fs', ds, tail].
  - destruct (chunk_addr_tail _ ds tail i v Hfull Ht) as (Hq & Hr & _ & Hset); [lia|].
    rewrite Hq, py_getitem_nonneg, Nat2Z.id by lia.
    rewrite (lay_chunks _ _ _ _ _ L).
    rewrite lookup_app_r by (rewrite length_fmap, (lay_count _ _ _ _ _ L); done).
    rewrite length_fmap, (lay_count _ _ _ _ _ L), Nat.sub_diag.
    change ([Resident tail] !! 0%nat) with (Some (Resident tail)). mstep.
    rewrite py_setitem_in_range by lia. mstep.
    rewrite py_setitem_in_range.
    2:{ rewrite length_app, length_fmap. simpl. lia. }
    mstep. rewrite Nat2Z.id.
    eexists _, _, w. split; [reflexivity|]. left. split; [done|].
    eexists fs, ds, _. split; [|exact Hset].
    destruct L as [Hopen Hchunks Hcount _ Htail Hfiles Hslot Hsz Hb Hlvl].
    constructor; simpl; try done.
    + rewrite insert_app_r_alt by (rewrite length_fmap; lia).
      rewrite length_fmap, <- Hcount, Nat.sub_diag. done.
    + rewrite length_insert. done.
    + rewrite length_app, length_insert, <- length_app. done.
Qed.

(** X24.  A failed reload in [pop] costs the container its open chunk.
    When the open chunk is empty and the file of the last spilled chunk is
    gone, [pop] raises [SqlmapSystemException], but it has already dropped
    the empty open chunk: the chunk list now ends in a file name, and
    every later [append] fails with [AttributeError]. *)
Theorem pop_failed_reload s w cs f v :
  _closed s = false → chunks s = (cs ++ [Spilled f]) ++ [Resident []] →
  files w !! f = None →
  ∃ s',
    pop (s, w)
    = (Raise (SqlmapSystemException
                (retrieve_message
                   (OSError ("[Errno 2] No such file or directory: '" +:+ f +:+ "'")))),
       (s', w))
    ∧ chunks s' = cs ++ [Spilled f]
    ∧ append' v (s', w)
      = (Raise (AttributeError "'str' object has no attribute 'append'"), (s', w)).
Proof.
  intros Ho Hc Hgone. eexists. split_and!.
  - unfold pop, len_last. mstep. rewrite Ho. mstep. rewrite Hc, last_snoc. mstep.
    change (Z.of_nat (@length pyval []) <? 1) with true. mstep.
    rewrite !Hc, !length_app. cbn [length].
    destruct (Nat.leb_spec (length cs + 1 + 1) 1) as [H|_]; [lia|]. mstep.
    rewrite removelast_last.
    unfold _load_chunk, try_except, py_getitem. mstep.
    rewrite py_index_last, list_lookup_middle by done. mstep.
    unfold read_file. mstep. rewrite Hgone. reflexivity.
  - reflexivity.
  - unfold append. mstep. rewrite Ho. mstep. rewrite last_snoc. reflexivity.
Qed.

(** ** Edge cases of the arguments *)

(** X25.  [index] does not normalise a negative [start]: the search runs
    over [range(start, stop)], whose negative members address the
    container from its end, and a hit there is returned as the negative
    number itself (where [list.index] returns the position counted from
    the front). *)
Theorem index_negative_start s w vs v start x :
  Repr s w vs → healthy w →
  - Z.of_nat (length vs) ≤ start < 0 →
  vs !! Z.to_nat (start + Z.of_nat (length vs)) = Some x → py_eq x v = true →
  ∃ s' w',
    index py_str v start None (s, w) = (Ok start, (s', w')) ∧ Repr s' w' vs.
Proof.
  intros R Hw Hs Hx Heq.
  destruct (getitem_Repr s w vs (start + Z.of_nat (length vs)) R Hw)
    as (x' & s' & w' & E & Hx' & R' & _); [lia|].
  assert (x' = x) as -> by congruence.
  exists s', w'. split; [|done].
  unfold index. mstep. rewrite (len_Repr _ _ _ R). mstep.
  destruct (Z.to_nat (Z.of_nat (length vs) - start)) as [|n] eqn:Hn; [lia|].
  cbn [index_loop]. mstep.
  rewrite (getitem_normalize s w vs start R Hs), E. mstep. by rewrite Heq.
Qed.

Lemma append_nonpositive_chunk s w fs v :
  _closed s = false → chunks s = (Spilled <$> fs) ++ [Resident []] →
  chunk_length s ≤ 0 → _size_counter s = None →
  valid_level (_compress_level s) = true → healthy w →
  ∃ f w',
    append' v (s, w)
    = (Ok tt,
       (mkBigArray ((Spilled <$> (fs ++ [f])) ++ [Resident []]) (chunk_length s)
          (cache s) ({[f]} ∪ filenames s) None false (_compress_level s), w'))
    ∧ stored w' f = Some [v] ∧ healthy w'.
Proof.
  intros Ho Hc Hcl Hsc Hl Hw.
  exists (fresh (dom (files w))), (mkWorld (<[fresh (dom (files w))
             := Packed (_compress_level s) [v]]> (files w)) None None).
  split; [|split; [apply stored_write_eq|done]].
  unfold append. mstep. rewrite Ho. mstep. rewrite Hc, last_snoc. mstep.
  rewrite removelast_last.
  rewrite append_size_chunk_fixed
    by (unfold undetermined; simpl; rewrite Hsc; apply andb_false_r).
  mstep. unfold append_spill. mstep.
  erewrite len_last_resident by reflexivity. mstep.
  destruct (Z.leb_spec (chunk_length s) (Z.of_nat (length ([] ++ [v])))) as [_|H];
    [|simpl in H; lia].
  rewrite last_snoc. mstep.
  rewrite dump_ok by done. mstep. rewrite removelast_last.
  rewrite fmap_app, Hsc, Ho. done.
Qed.

Lemma extend_nonpositive_chunk vs : ∀ s w fs,
  _closed s = false → chunks s = (Spilled <$> fs) ++ [Resident []] →
  chunk_length s ≤ 0 → _size_counter s = None →
  valid_level (_compress_level s) = true → healthy w →
  ∃ s' w' fs',
    for_each vs append' (s, w) = (Ok tt, (s', w'))
    ∧ _closed s' = false
    ∧ chunks s' = (Spilled <$> (fs ++ fs')) ++ [Resident []]
    ∧ length fs' = length vs
    ∧ chunk_length s' = chunk_length s ∧ healthy w'.
Proof.
  induction vs as [|v vs IH]; intros s w fs Ho Hc Hcl Hsc Hl Hw.
  { exists s, w, []. rewrite app_nil_r. done. }
  destruct (append_nonpositive_chunk s w fs v Ho Hc Hcl Hsc Hl Hw) as (f & w1 & E1 & _ & Hw1).
  match type of E1 with _ = (_, (?s1, _)) =>
    destruct (IH s1 w1 (fs ++ [f])) as (s2 & w2 & fs2 & E2 & Ho2 & Hc2 & Hlen2 & Hcl2 & Hw2);
      try done end.
  exists s2, w2, (f :: fs2). cbn [for_each]. mstep. rewrite E1, E2.
  split_and!; try done.
  - rewrite Hc2, <- app_assoc. done.
  - simpl. by rewrite Hlen2.
Qed.

(** X26.  The constructor does not validate an explicit chunk size.  With
    a chunk size of zero or less every appended element is spilled at once
    into a file of its own, and the elements cannot be counted or read
    back: with chunk size 0 the length stays 0 and every index is out of
    range; with a negative chunk size [len()] of the non-empty container
    raises [ValueError]. *)
Theorem nonpositive_chunk_size s0 w items chunk_size level :
  healthy w → valid_level level = true →
  chunk_size ≤ 0 → chunk_size ≠ BIGARRAY_CHUNK_SIZE → items ≠ [] →
  ∃ s w',
    init' (Some items) chunk_size level (s0, w) = (Ok tt, (s, w'))
    ∧ length (chunks s) = S (length items)
    ∧ last (chunks s) = Some (Resident [])
    ∧ len (s, w')
      = (if chunk_size =? 0 then Ok 0
         else Raise (ValueError "__len__() should return >= 0"), (s, w'))
    ∧ (chunk_size = 0 →
       ∀ key, __getitem__ key (s, w')
              = (Raise (IndexError "BigArray index out of range"), (s, w'))).
Proof.
  intros Hw Hl Hc Hne Hitems.
  set (s1 := mkBigArray [Resident []] chunk_size None ∅ None false level).
  destruct (extend_nonpositive_chunk items s1 w []) as
    (s & w' & fs & E & Ho & Hch & Hlen & Hcl & Hw'); try done.
  simpl in Hch, Hcl.
  assert (len (s, w')
          = (if chunk_size =? 0 then Ok 0
             else Raise (ValueError "__len__() should return >= 0"), (s, w'))) as Hl1.
  { unfold len, __len__. mstep. rewrite Ho, Hch. mstep.
    rewrite length_app, length_fmap, Hlen. cbn [length].
    destruct (Nat.eqb_spec (length items + 1) 1) as [H|_];
      [destruct items; [done|simpl in H; lia]|].
    mstep. erewrite len_last_resident by exact Hch. mstep. rewrite Hcl.
    assert (0 < Z.of_nat (length items)) by (destruct items; [done|simpl; lia]).
    destruct (Z.eqb_spec chunk_size 0) as [->|Hz].
    - rewrite Z.mul_0_r. done.
    - destruct (Z.ltb_spec ((Z.of_nat (length items + 1) - 1) * chunk_size
                            + Z.of_nat (@length pyval [])) 0) as [_|H1]; [done|].
      simpl in H1. nia. }
  exists s, w'. split_and!.
  - unfold __init__. mstep.
    destruct (Z.eqb_spec chunk_size BIGARRAY_CHUNK_SIZE); [done|]. mstep.
    unfold extend. mstep. exact E.
  - rewrite Hch, length_app, length_fmap, Hlen. simpl. lia.
  - by rewrite Hch, last_snoc.
  - exact Hl1.
  - intros -> key. unfold __getitem__. mstep. rewrite Ho. mstep.
    rewrite Hl1. done.
Qed.

(** ** Two objects over the same files *)


End More.

(** *** Instances of the further properties *)

Lemma five_Repr :
  Repr (fst (construct (ints 5) 2 9)) (snd (construct (ints 5) 2 9)) (ints 5)
  ∧ healthy (snd (construct (ints 5) 2 9)).
Proof.
  apply construct_Repr; [reflexivity|lia|unfold example_threshold; lia|reflexivity].
Qed.

Lemma getitem_is_list_indexing_witness :
  ∃ s' w',
    __getitem__ (-2) (construct (ints 5) 2 9) = (Ok (PyInt 3), (s', w'))
    ∧ Repr s' w' (ints 5) ∧ healthy w'.
Proof.
  destruct five_Repr as [R Hw].
  exact (getitem_is_list_indexing _ _ (ints 5) (-2) R Hw).
Defined.

Lemma setitem_is_list_assignment_witness :
  ∃ s' w',
    __setitem__ (-5) (PyStr "a") (construct (ints 5) 2 9) = (Ok tt, (s', w'))
    ∧ Repr s' w' [PyStr "a"; PyInt 1; PyInt 2; PyInt 3; PyInt 4] ∧ healthy w'.
Proof.
  destruct five_Repr as [R Hw].
  exact (setitem_is_list_assignment _ _ (ints 5) (-5) (PyStr "a") R Hw).
Defined.


Lemma iter_yields_sequence_witness :
  ∃ s' w',
    __iter__ (construct (ints 5) 2 9) = (Ok (ints 5), (s', w'))
    ∧ Repr s' w' (ints 5) ∧ healthy w'.
Proof.
  destruct five_Repr as [R Hw]. exact (iter_yields_sequence _ _ (ints 5) R Hw).
Defined.

Lemma count_counts_witness :
  ∃ s' w',
    count (PyInt 3) (construct (ints 5) 2 9) = (Ok 1, (s', w'))
    ∧ Repr s' w' (ints 5) ∧ healthy w'.
Proof.
  destruct five_Repr as [R Hw]. exact (count_counts _ _ (ints 5) (PyInt 3) R Hw).
Defined.

Lemma pop_is_list_pop_witness :
  ∃ s',
    pop (construct (ints 4) 2 9) = (Ok (PyInt 3), (s', snd (construct (ints 4) 2 9)))
    ∧ Repr s' (snd (construct (ints 4) 2 9)) (ints 3)
    ∧ cache s' = cache (fst (construct (ints 4) 2 9)).
Proof.
  destruct (construct_Repr (ints 4) 2 9) as [R Hw];
    [reflexivity|lia|unfold example_threshold; lia|reflexivity|].
  apply (pop_is_list_pop _ _ (ints 4) R). vm_compute. exact I.
Defined.

Lemma index_finds_first_witness :
  ∃ s' w',
    Repr s' w' (ints 5) ∧ healthy w'
    ∧ index example_str (PyInt 3) 1 (Some 9) (construct (ints 5) 2 9)
      = (Ok 3, (s', w')).
Proof.
  destruct five_Repr as [R Hw].
  apply (index_finds_first example_str _ _ (ints 5) (PyInt 3) 1 (Some 9) R Hw). lia.
Defined.


Lemma extend_is_list_extend_witness :
  ∃ s' w',
    extend example_threshold example_getsizeof [PyList []; PyInt 6]
      (construct (ints 5) 2 9)
    = (Ok tt, (s', w'))
    ∧ Repr s' w' (ints 5 ++ [PyList []; PyInt 6]) ∧ healthy w'
    ∧ (undetermined (fst (construct (ints 5) 2 9)) = false → undetermined s' = false).
Proof.
  destruct five_Repr as [R Hw].
  apply (extend_is_list_extend example_threshold example_getsizeof _ _ (ints 5)
           [PyList []; PyInt 6] R Hw).
  - vm_compute. discriminate.
  - vm_compute. reflexivity.
Defined.

Lemma init_holds_items_witness :
  ∃ s w',
    __init__ example_threshold example_getsizeof (Some (ints 5)) 2 9
      (unborn, example_world)
    = (Ok tt, (s, w'))
    ∧ Repr s w' (ints 5) ∧ healthy w' ∧ _compress_level s = 9
    ∧ (2 ≠ example_threshold → chunk_length s = 2).
Proof.
  apply (init_holds_items example_threshold example_getsizeof unborn example_world
           (Some (ints 5)) 2 9).
  - split; reflexivity.
  - reflexivity.
  - intros H. discriminate H.
  - lia.
  - vm_compute. reflexivity.
Defined.

Lemma reverse_reverses_witness :
  ∃ s' w',
    reverse example_threshold 9 example_getsizeof (construct (ints 5) 2 9)
    = (Ok tt, (s', w'))
    ∧ Repr s' w' (rev (ints 5)) ∧ healthy w'.
Proof.
  destruct five_Repr as [R Hw].
  apply (reverse_reverses example_threshold 9 example_getsizeof _ _ (ints 5) R Hw).
  - reflexivity.
  - repeat constructor.
Defined.

Lemma append_failed_spill_keeps_element_witness :
  ∃ s',
    append example_threshold example_getsizeof (PyInt 1)
      (mkBigArray [Resident [PyInt 0]] 2 None ∅ None false 9,
       mkWorld ∅ (Some "[Errno 13] Permission denied") None)
    = (Raise (SqlmapSystemException
                (store_message (OSError "[Errno 13] Permission denied"))),
       (s', mkWorld ∅ (Some "[Errno 13] Permission denied") None))
    ∧ len (s', mkWorld ∅ (Some "[Errno 13] Permission denied") None)
      = (Ok 2, (s', mkWorld ∅ (Some "[Errno 13] Permission denied") None))
    ∧ __getitem__ (-1) (s', mkWorld ∅ (Some "[Errno 13] Permission denied") None)
      = (Ok (PyInt 1), (s', mkWorld ∅ (Some "[Errno 13] Permission denied") None))
    ∧ filenames s' = ∅.
Proof.
  apply (append_failed_spill_keeps_element example_threshold example_getsizeof
           (mkBigArray [Resident [PyInt 0]] 2 None ∅ None false 9)
           (mkWorld ∅ (Some "[Errno 13] Permission denied") None) [PyInt 0] (PyInt 1)).
  - exists [], [], [PyInt 0]. split; [|reflexivity].
    constructor; simpl; try done; lia.
  - reflexivity.
  - reflexivity.
  - reflexivity.
Defined.

Lemma get_after_file_loss_witness :
  __getitem__ 0 (fst (construct (ints 5) 2 9), example_world)
  = (Raise (SqlmapSystemException
              (retrieve_message
                 (OSError ("[Errno 2] No such file or directory: '" +:+ "0" +:+ "'")))),
     (fst (construct (ints 5) 2 9), example_world)).
Proof.
  destruct five_Repr as [R Hw].
  apply (get_after_file_loss _ _ example_world (ints 5) 0 "0" R).
  - reflexivity.
  - simpl. lia.
  - vm_compute. reflexivity.
  - reflexivity.
Defined.

Lemma append_then_pop_witness :
  ∃ s1 w1 s2,
    append example_threshold example_getsizeof (PyInt 5) (construct (ints 5) 2 9)
    = (Ok tt, (s1, w1))
    ∧ pop (s1, w1) = (Ok (PyInt 5), (s2, w1))
    ∧ Repr s2 w1 (ints 5) ∧ cache s2 = None ∧ healthy w1.
Proof.
  destruct five_Repr as [R Hw].
  apply (append_then_pop example_threshold example_getsizeof _ _ (ints 5) (PyInt 5) R).
  - reflexivity.
  - exact Hw.
  - intros _. reflexivity.
  - vm_compute. reflexivity.
Defined.

Lemma getslice_is_list_slice_witness :
  ∃ s' w' r,
    getitem_slice example_threshold 9 example_getsizeof
      (Slice.mk (Some 1) (Some (-1)) None) (construct (ints 5) 2 9)
    = (Ok r, (s', w'))
    ∧ Repr s' w' (ints 5) ∧ Repr r w' [PyInt 1; PyInt 2; PyInt 3] ∧ healthy w'.
Proof.
  destruct five_Repr as [R Hw].
  refine (proj1 (getslice_is_list_slice example_threshold 9 example_getsizeof _ _
                   (ints 5) (Slice.mk (Some 1) (Some (-1)) None) R Hw eq_refl _)).
  intros sel H. vm_compute in H. injection H as <-. repeat constructor.
Defined.

Lemma add_concatenates_witness :
  (∃ s' w' r,
     __add__ example_threshold 9 example_getsizeof [PyStr "x"] (construct (ints 5) 2 9)
     = (Ok r, (s', w'))
     ∧ Repr s' w' (ints 5) ∧ Repr r w' (ints 5 ++ [PyStr "x"]) ∧ healthy w')
  ∧ (∃ s' w',
       __iadd__ example_threshold example_getsizeof [PyStr "x"] (construct (ints 5) 2 9)
       = (Ok tt, (s', w'))
       ∧ Repr s' w' (ints 5 ++ [PyStr "x"]) ∧ healthy w').
Proof.
  destruct five_Repr as [R Hw].
  apply (add_concatenates example_threshold 9 example_getsizeof _ _ (ints 5)
           [PyStr "x"] R Hw eq_refl).
  - repeat constructor.
  - vm_compute. reflexivity.
Defined.

Lemma repr_shows_open_chunk_witness :
  __repr__ (λ l, "[" +:+ example_str (PyList l) +:+ "]") (λ f, f)
    (fst (construct (ints 5) 2 9), snd (construct (ints 5) 2 9))
  = (Ok ("..." +:+ "[" +:+ example_str (PyList [PyInt 4]) +:+ "]"),
     (fst (construct (ints 5) 2 9), snd (construct (ints 5) 2 9))).
Proof.
  destruct five_Repr as [R Hw].
  exact (proj1 (repr_shows_open_chunk
                  (λ l, "[" +:+ example_str (PyList l) +:+ "]") (λ f, f) _ _
                  (ints 5) R)).
Defined.


Lemma set_is_all_or_nothing_witness :
  ∃ r s' w',
    __setitem__ 3 PyNone (fst (construct (ints 5) 2 9), snd (construct (ints 5) 2 9))
    = (r, (s', w'))
    ∧ ((r = Ok tt ∧ Repr s' w' (<[Z.to_nat 3 := PyNone]> (ints 5)))
       ∨ ((∃ msg, r = Raise (SqlmapSystemException msg)) ∧ Repr s' w' (ints 5))).
Proof.
  destruct five_Repr as [R _].
  apply (set_is_all_or_nothing _ _ (ints 5) 3 PyNone R). simpl. lia.
Defined.

Lemma pop_failed_reload_witness :
  ∃ s',
    pop (fst (construct (ints 2) 2 9), example_world)
    = (Raise (SqlmapSystemException
                (retrieve_message
                   (OSError ("[Errno 2] No such file or directory: '" +:+ "0" +:+ "'")))),
       (s', example_world))
    ∧ chunks s' = [] ++ [Spilled "0"]
    ∧ append example_threshold example_getsizeof (PyInt 7) (s', example_world)
      = (Raise (AttributeError "'str' object has no attribute 'append'"),
         (s', example_world)).
Proof.
  apply (pop_failed_reload example_threshold example_getsizeof
           (fst (construct (ints 2) 2 9)) example_world [] "0" (PyInt 7)).
  - reflexivity.
  - vm_compute. reflexivity.
  - reflexivity.
Defined.

Lemma index_negative_start_witness :
  ∃ s' w',
    index example_str (PyInt 3) (-2) None (construct (ints 5) 2 9)
    = (Ok (-2), (s', w'))
    ∧ Repr s' w' (ints 5).
Proof.
  destruct five_Repr as [R Hw].
  apply (index_negative_start example_str _ _ (ints 5) (PyInt 3) (-2) (PyInt 3) R Hw).
  - simpl. lia.
  - reflexivity.
  - reflexivity.
Defined.

Lemma nonpositive_chunk_size_witness :
  ∃ s w',
    __init__ example_threshold example_getsizeof (Some (ints 2)) 0 9
      (unborn, example_world)
    = (Ok tt, (s, w'))
    ∧ length (chunks s) = 3%nat
    ∧ last (chunks s) = Some (Resident [])
    ∧ len (s, w') = (Ok 0, (s, w'))
    ∧ (0 = 0 →
       ∀ key, __getitem__ key (s, w')
              = (Raise (IndexError "BigArray index out of range"), (s, w'))).
Proof.
  apply (nonpositive_chunk_size example_threshold example_getsizeof unborn
           example_world (ints 2) 0 9).
  - split; reflexivity.
  - reflexivity.
  - lia.
  - discriminate.
  - discriminate.
Defined.

